(** * iot-edge-demo: the coordination layer, embedded and verified

    A shallow embedding of the Python sources

    - [shared/iot_edge_base/asset.py]        (module [Asset])
    - [shared/iot_edge_base/client.py]       (module [Client])
    - [controller-module/src/registry.py]    (module [Registry])
    - [controller-module/src/aggregator.py]  (module [Aggregator])
    - [controller-module/src/dispatcher.py]  (module [Dispatcher])
    - [controller-module/main.py]            (module [Controller])
    - [battery-module/src/battery.py] and [battery-module/main.py]
                                             (module [Battery])
    - [boiler-module/src/boiler.py] and [boiler-module/main.py]
                                             (module [BoilerDriver])
    - [solar-module/src/inverter.py] and [solar-module/main.py]
                                             (module [Solar])

    The drivers are embedded up to the requests they serve; the
    simulation steps ([tick], [get_telemetry]) are not.

    Conventions of the embedding.

    - A method that mutates [self] and may raise is a computation in the
      monad [M W A := W -> res A * W]: it returns a value or raises, and
      in both cases hands back the (possibly modified) object.  A raise
      never rolls the object back, as in Python.
    - [async]/[await] is read sequentially: a coroutine runs from its call
      to its return.  Where the source has a real suspension point that
      other code observes (the future awaited by [invoke_method], the
      hook awaited by [BaseAsset.start]) the method is split at that
      point.
    - A Python [float] is modelled by the rational number it denotes;
      [nan] and the infinities are outside the model.  Comparison,
      negation and [abs] of floats are exact and are those of the
      rationals.  The operations that round ([sum], [-], [round]) are the
      interpreter's: the code is embedded over a class [FloatArith] that
      provides them, and [Binary64] gives them for IEEE 754 doubles.
    - Wall-clock readings ([datetime.now], [loop.time]) are explicit
      arguments of the operation that reads them. *)

From Stdlib Require Import ZArith QArith Qabs Qround Ascii String List Lia Lqa.
From stdpp Require Import base option list strings pretty gmap.

Open Scope string_scope.
Open Scope list_scope.

(** * Python values, exceptions and the state-exception monad *)

Module Py.

(** The values that [json.loads] produces. *)
#[warnings="-register-all"]
Inductive value : Type :=
| VNone
| VBool (b : bool)
| VInt (z : Z)
| VFloat (q : Q)
| VStr (s : string)
| VList (l : list value)
| VDict (d : list (string * value)).

(** A [dict] with string keys, in insertion order. *)
Abbreviation pydict := (list (string * value)).

(** The exception classes that occur in the embedded code.
    [CancelledError] derives from [BaseException] only. *)
Inductive exn_class : Type :=
| RuntimeError
| ValueError
| TypeError
| AttributeError
| OtherException
| CancelledError.

Record exn : Type := mkExn { exn_cls : exn_class; exn_str : string }.

(** [isinstance(e, Exception)] *)
Definition is_Exception (e : exn) : bool :=
  match exn_cls e with
  | CancelledError => false
  | _ => true
  end.

Inductive res (A : Type) : Type :=
| Ok (a : A)
| Raise (e : exn).
Arguments Ok {A} a.
Arguments Raise {A} e.

Definition M (W A : Type) : Type := W -> res A * W.

Definition ret {W A} (a : A) : M W A := fun w => (Ok a, w).

Definition bind {W A B} (c : M W A) (k : A -> M W B) : M W B :=
  fun w =>
    match c w with
    | (Ok a, w') => k a w'
    | (Raise e, w') => (Raise e, w')
    end.

Definition raise {W A} (e : exn) : M W A := fun w => (Raise e, w).

Definition get {W} : M W W := fun w => (Ok w, w).

Definition put {W} (w : W) : M W unit := fun _ => (Ok tt, w).

Definition modify {W} (f : W -> W) : M W unit := fun w => (Ok tt, f w).

(** [try: c  except Exception as exc: h exc] *)
Definition try_except {W A} (c : M W A) (h : exn -> M W A) : M W A :=
  fun w =>
    match c w with
    | (Ok a, w') => (Ok a, w')
    | (Raise e, w') => if is_Exception e then h e w' else (Raise e, w')
    end.

(** [d.get(k)], [None] of the option standing for an absent key *)
Fixpoint dict_lookup (k : string) (d : pydict) : option value :=
  match d with
  | [] => None
  | (k', v) :: d' => if String.eqb k k' then Some v else dict_lookup k d'
  end.

(** [d.get(k, dflt)] *)
Definition dict_get (k : string) (dflt : value) (d : pydict) : value :=
  match dict_lookup k d with
  | Some v => v
  | None => dflt
  end.

(** [bool(v)] *)
Definition truthy (v : value) : bool :=
  match v with
  | VNone => false
  | VBool b => b
  | VInt z => negb (z =? 0)%Z
  | VFloat q => negb (Qeq_bool q 0)
  | VStr s => negb (String.eqb s "")
  | VList l => match l with [] => false | _ => true end
  | VDict d => match d with [] => false | _ => true end
  end.

(** [v == s] for a string literal [s] *)
Definition eq_str (v : value) (s : string) : bool :=
  match v with
  | VStr s' => String.eqb s' s
  | _ => false
  end.

(** The number a hashable numeric value denotes ([True == 1 == 1.0]). *)
Definition numeric (v : value) : option Q :=
  match v with
  | VBool b => Some (if b then 1 else 0)%Q
  | VInt z => Some (inject_Z z)
  | VFloat q => Some q
  | _ => None
  end.

(** [hash(v)] succeeds *)
Definition hashable (v : value) : bool :=
  match v with
  | VList _ | VDict _ => false
  | _ => true
  end.

(** [k1 == k2] on hashable values, as a [dict] compares its keys *)
Definition key_eqb (k1 k2 : value) : bool :=
  match numeric k1, numeric k2 with
  | Some q1, Some q2 => Qeq_bool q1 q2
  | None, None =>
      match k1, k2 with
      | VNone, VNone => true
      | VStr s1, VStr s2 => String.eqb s1 s2
      | _, _ => false
      end
  | _, _ => false
  end.

(** [round(x)] to an integer, ties to the even neighbour *)
Definition round_half_even (x : Q) : Z :=
  let f := Qfloor x in
  match (x - inject_Z f ?= 1 # 2)%Q with
  | Lt => f
  | Gt => (f + 1)%Z
  | Eq => if Z.even f then f else (f + 1)%Z
  end.

(** A Python number as the aggregator meets it: an [int] or a [float]. *)
Inductive number : Type :=
| Int (z : Z)
| Float (q : Q).

(** The rational a number denotes. *)
Definition value_of (n : number) : Q :=
  match n with
  | Int z => inject_Z z
  | Float q => q
  end.

(** The float operations of the interpreter that round their result:
    [float_sum x xs] is what the float loop of the builtin [sum] makes of
    a first float [x] and the floats [xs] that follow it (additions from
    left to right before Python 3.12, compensated summation from 3.12
    on), [float_sub x y] is [x - y] and [float_round x n] is
    [round(x, n)]. *)
Class FloatArith : Type := {
  float_sum : Q -> list Q -> Q;
  float_sub : Q -> Q -> Q;
  float_round : Q -> Z -> Q
}.

(** [sum(xs)] for floats [xs]: the accumulator starts at the int [0],
    which it still is when [xs] is empty; [0 + x] is the float [x]. *)
Definition sum `{FloatArith} (xs : list Q) : number :=
  match xs with
  | [] => Int 0
  | x :: xs' => Float (float_sum x xs')
  end.

(** [a - b]: exact on two ints; an int beside a float is converted to
    float first (the only int the embedded code has here is [0]). *)
Definition sub `{FloatArith} (a b : number) : number :=
  match a, b with
  | Int x, Int y => Int (x - y)
  | _, _ => Float (float_sub (value_of a) (value_of b))
  end.

(** [round(a, ndigits)] for [ndigits >= 0]: an int is returned as it is *)
Definition round_ `{FloatArith} (a : number) (ndigits : Z) : number :=
  match a with
  | Int z => Int z
  | Float q => Float (float_round q ndigits)
  end.

(** [abs(a)] *)
Definition abs_ (a : number) : number :=
  match a with
  | Int z => Int (Z.abs z)
  | Float q => Float (Qabs q)
  end.

End Py.

Export Py.

(** * IEEE 754 binary64 arithmetic, on the rationals that doubles denote *)

Module Binary64.
Open Scope Q_scope.

(** [2 ** e] *)
Definition pow2 (e : Z) : Q :=
  if (0 <=? e)%Z then inject_Z (2 ^ e) else 1 # Z.to_pos (2 ^ (- e)).

(** The integer part of the binary logarithm of a positive rational. *)
Definition ilog2 (a : Q) : Z :=
  let k := (Z.log2 (Qnum a) - Z.log2 (Zpos (Qden a)))%Z in
  if Qle_bool (pow2 k) a then k else (k - 1)%Z.

(** The double nearest to [x], ties to the even significand: 53 bits of
    significand, the last place never below [2 ** -1074].  A magnitude
    beyond the largest double, which rounds to an infinity, is outside
    the model. *)
Definition nearest (x : Q) : Q :=
  if Qeq_bool x 0 then 0
  else
    let e := Z.max (ilog2 (Qabs x) - 52) (-1074) in
    let m := round_half_even (Qabs x / pow2 e) in
    Qred ((if Qle_bool 0 x then 1 else -1) * inject_Z m * pow2 e).

(** [x] to [ndigits] decimals, ties to the even last digit. *)
Definition round_decimal (x : Q) (ndigits : Z) : Q :=
  Qred (inject_Z (round_half_even (x * inject_Z (10 ^ ndigits))) / inject_Z (10 ^ ndigits)).

(** The float loop of [sum] before Python 3.12. *)
Definition plain_sum (x : Q) (xs : list Q) : Q :=
  fold_left (fun total y => nearest (total + y)) xs x.

(** The float loop of [sum] from Python 3.12 on (Neumaier's compensated
    summation): [c] collects what the additions lose and is added at the
    end when it is not zero. *)
Fixpoint compensated (total c : Q) (xs : list Q) : Q :=
  match xs with
  | [] => if Qeq_bool c 0 then total else nearest (total + c)
  | x :: xs' =>
      let t := nearest (total + x) in
      let lost :=
        if Qle_bool (Qabs x) (Qabs total)
        then nearest (nearest (total - t) + x)
        else nearest (nearest (x - t) + total) in
      compensated t (nearest (c + lost)) xs'
  end.

Definition compensated_sum (x : Q) (xs : list Q) : Q := compensated x 0 xs.

Inductive summation : Type := Plain | Compensated.

(** CPython on doubles: [x - y] is correctly rounded, and [round(x, n)]
    is the double nearest to the correctly rounded decimal. *)
Definition arith (s : summation) : FloatArith := {|
  float_sum := match s with Plain => plain_sum | Compensated => compensated_sum end;
  float_sub := fun x y => nearest (x - y);
  float_round := fun x ndigits => nearest (round_decimal x ndigits)
|}.

End Binary64.

Declare Scope py_scope.
Delimit Scope py_scope with py.
Notation "x <- c ;; k" := (bind c (fun x => k))
  (at level 100, c at next level, right associativity) : py_scope.
Notation "c ;;; k" := (bind c (fun _ => k))
  (at level 100, right associativity) : py_scope.

(** * [iot_edge_base/asset.py] *)

Module Asset.

Inductive AssetState : Type := IDLE | STARTING | RUNNING | STOPPING | FAULT.

Definition AssetState_eqb (s t : AssetState) : bool :=
  match s, t with
  | IDLE, IDLE | STARTING, STARTING | RUNNING, RUNNING
  | STOPPING, STOPPING | FAULT, FAULT => true
  | _, _ => false
  end.

(** An instance of [BaseAsset].  [driver] holds the fields the concrete
    subclass adds.  [_lock] is no field of the model: [start] and [stop]
    hold it from their entry to their return, so that neither finds the
    other half-way; [fault] and [reset] do not take it. *)
Record BaseAsset (D : Type) : Type := mkAsset {
  asset_id : string;
  _state : AssetState;
  _fault_code : option string;
  driver : D
}.
Arguments mkAsset {D}.
Arguments asset_id {D}.
Arguments _state {D}.
Arguments _fault_code {D}.
Arguments driver {D}.

(** The abstract hooks.  In every driver of the repository they read and
    write the subclass fields only, which the type records. *)
Class Hooks (D : Type) : Type := {
  _on_start : M D unit;
  _on_stop : M D unit;
  _on_fault : string -> M D unit
}.

Definition __init__ {D} (asset_id : string) (d : D) : BaseAsset D :=
  mkAsset asset_id IDLE None d.

Definition set_state {D} (s : AssetState) : M (BaseAsset D) unit :=
  modify (fun a => mkAsset (asset_id a) s (_fault_code a) (driver a)).

Definition set_fault_code {D} (c : option string) : M (BaseAsset D) unit :=
  modify (fun a => mkAsset (asset_id a) (_state a) c (driver a)).

(** Run a hook on the subclass fields of the instance. *)
Definition hook {D A} (h : M D A) : M (BaseAsset D) A :=
  fun a =>
    let '(r, d) := h (driver a) in
    (r, mkAsset (asset_id a) (_state a) (_fault_code a) d).

(** [start] as far as its suspension in [await self._on_start()]: the
    state is checked and set to [STARTING].  The result says whether the
    call goes on; otherwise it has returned.  Every driver of the
    repository suspends in [asyncio.sleep] at the beginning of its hook. *)
Definition start_enter {D} : M (BaseAsset D) bool :=
  (a <- get ;;
   if negb (AssetState_eqb (_state a) IDLE) then ret false
   else
     set_state STARTING ;;;
     ret true)%py.

(** [start] from its resumption on: the rest of the hook, then
    [RUNNING].  While the call is suspended it holds [_lock], which keeps
    other calls of [start] and [stop] waiting; [fault] and [reset] do not
    take the lock and run at once. *)
Definition start_resume {D} `{Hooks D} : M (BaseAsset D) unit :=
  (hook _on_start ;;;
   set_state RUNNING)%py.

(** A [start] that nothing interleaves with. *)
Definition start {D} `{Hooks D} : M (BaseAsset D) unit :=
  (entered <- start_enter ;;
   if entered then start_resume else ret tt)%py.

Definition stop {D} `{Hooks D} : M (BaseAsset D) unit :=
  (a <- get ;;
   if negb (AssetState_eqb (_state a) RUNNING || AssetState_eqb (_state a) STARTING)
   then ret tt
   else
     set_state STOPPING ;;;
     hook _on_stop ;;;
     set_state IDLE)%py.

Definition fault {D} `{Hooks D} (code : string) : M (BaseAsset D) unit :=
  (set_state FAULT ;;;
   set_fault_code (Some code) ;;;
   hook (_on_fault code))%py.

Definition reset {D} : M (BaseAsset D) unit :=
  (a <- get ;;
   if negb (AssetState_eqb (_state a) FAULT) then ret tt
   else
     set_fault_code None ;;;
     set_state IDLE)%py.

(** A caller's view: the four operations, each run to its end before the
    next, on the same instance.  An exception raised by a hook reaches the caller
    and the instance lives on. *)
Inductive op : Type := Start | Stop | Fault (code : string) | Reset.

Definition call {D} `{Hooks D} (o : op) : M (BaseAsset D) unit :=
  match o with
  | Start => start
  | Stop => stop
  | Fault code => fault code
  | Reset => reset
  end.

Definition run {D} `{Hooks D} (ops : list op) (a : BaseAsset D) : BaseAsset D :=
  fold_left (fun a o => snd (call o a)) ops a.

(** The fields and the hooks of [Boiler] ([boiler-module/src/boiler.py]). *)
Record Boiler : Type := mkBoiler {
  max_power_kw : Q;
  _startup_delay_s : Q;
  _target_temp_c : Q;
  _current_temp_c : Q;
  _power_kw : Q;
  _pressure_bar : Q
}.

Definition boiler_power_off : M Boiler unit :=
  modify (fun b => mkBoiler (max_power_kw b) (_startup_delay_s b) (_target_temp_c b)
                            (_current_temp_c b) 0 (_pressure_bar b)).

#[global] Instance Boiler_hooks : Hooks Boiler := {
  _on_start := ret tt;
  _on_stop := boiler_power_off;
  _on_fault := fun _ => boiler_power_off
}.

Definition Boiler__init__ (asset_id : string) : BaseAsset Boiler :=
  __init__ asset_id (mkBoiler 200 3 80 20 0 1).

End Asset.

(** * [controller-module/src/registry.py] *)

Module Registry.

(** The builtin [float(s)] on a string is the interpreter's; it is taken
    as given.  [None] stands for [ValueError]. *)
Class Builtins : Type := {
  float_of_str : string -> option Q
}.

(** [float(v)] *)
Definition float_ `{Builtins} (v : value) : res Q :=
  match v with
  | VBool b => Ok (if b then 1 else 0)%Q
  | VInt z => Ok (inject_Z z)
  | VFloat q => Ok q
  | VStr s =>
      match float_of_str s with
      | Some q => Ok q
      | None => Raise (mkExn ValueError "could not convert string to float")
      end
  | VNone | VList _ | VDict _ =>
      Raise (mkExn TypeError "float() argument must be a string or a real number")
  end.

Definition fmap_res {A B} (f : A -> B) (r : res A) : res B :=
  match r with
  | Ok a => Ok (f a)
  | Raise e => Raise e
  end.

Record AssetSnapshot : Type := mkSnapshot {
  asset_id : value;
  asset_type : value;
  state : value;
  power_kw : Q;
  last_seen : value;
  raw : pydict
}.

Definition _extract_power_kw `{Builtins} (data : pydict) : res Q :=
  let asset_type := dict_get "asset_type" (VStr "") data in
  if eq_str asset_type "solar_inverter" then
    float_ (dict_get "power_output_kw" (VFloat 0) data)
  else if eq_str asset_type "battery_storage" then
    fmap_res Qopp (float_ (dict_get "power_kw" (VFloat 0) data))
  else if eq_str asset_type "industrial_boiler" then
    fmap_res Qopp (float_ (dict_get "power_kw" (VFloat 0) data))
  else
    float_ (dict_get "power_kw" (dict_get "power_output_kw" (VFloat 0) data) data).

(** [self._assets]: a [dict] keyed by asset id, in insertion order. *)
Abbreviation assets := (list (value * AssetSnapshot)).

(** [d[k] = v] for a hashable [k]: an equal key keeps its place and its
    key object and takes the new value; a new key goes to the end. *)
Fixpoint setitem (k : value) (v : AssetSnapshot) (d : assets) : assets :=
  match d with
  | [] => [(k, v)]
  | (k', v') :: d' =>
      if key_eqb k' k then (k', v) :: d' else (k', v') :: setitem k v d'
  end.

Fixpoint getitem (k : value) (d : assets) : option AssetSnapshot :=
  match d with
  | [] => None
  | (k', v') :: d' => if key_eqb k' k then Some v' else getitem k d'
  end.

Definition unhashable {W A} : M W A :=
  raise (mkExn TypeError "unhashable type").

(** [AssetRegistry.update]; [now] is [datetime.now(timezone.utc).isoformat()]
    as read by this call. *)
Definition update `{Builtins} (now : string) (data : pydict) : M assets unit :=
  let asset_id := dict_get "asset_id" VNone data in
  if negb (truthy asset_id) then ret tt
  else
    match _extract_power_kw data with
    | Raise e => raise e
    | Ok power =>
        let snapshot :=
          mkSnapshot asset_id
                     (dict_get "asset_type" (VStr "unknown") data)
                     (dict_get "state" (VStr "UNKNOWN") data)
                     power
                     (dict_get "timestamp" (VStr now) data)
                     data in
        if hashable asset_id then modify (setitem asset_id snapshot)
        else unhashable
    end.

Definition get_all : M assets (list AssetSnapshot) :=
  (d <- Py.get ;; ret (map snd d))%py.

Definition get (asset_id : value) : M assets (option AssetSnapshot) :=
  if hashable asset_id then (d <- Py.get ;; ret (getitem asset_id d))%py
  else unhashable.

Definition count : M assets Z :=
  (d <- Py.get ;; ret (Z.of_nat (length d)))%py.

(** A [float(s)] for plain decimal literals: an optional sign, digits and
    an optional fraction. *)
Definition digit_of (c : Ascii.ascii) : option Z :=
  let n := Ascii.nat_of_ascii c in
  if (48 <=? n)%nat && (n <=? 57)%nat then Some (Z.of_nat (n - 48)) else None.

Fixpoint digits (s : string) (acc : Z) (scale : positive) : option (Z * positive * string) :=
  match s with
  | EmptyString => Some (acc, scale, EmptyString)
  | String c s' =>
      match digit_of c with
      | Some d => digits s' (10 * acc + d)%Z (10 * scale)%positive
      | None => Some (acc, scale, s)
      end
  end.

Definition unsigned_decimal (s : string) : option Q :=
  match s with
  | EmptyString => None
  | String c _ =>
      match digit_of c, digits s 0 1 with
      | Some _, Some (n, _, EmptyString) => Some (inject_Z n)
      | Some _, Some (n, _, String "."%char frac) =>
          match digits frac 0 1 with
          | Some (m, scale, EmptyString) => Some (inject_Z n + (m # scale))%Q
          | _ => None
          end
      | _, _ => None
      end
  end.

Definition decimal_literal (s : string) : option Q :=
  match s with
  | String "-"%char s' => option_map Qopp (unsigned_decimal s')
  | String "+"%char s' => unsigned_decimal s'
  | _ => unsigned_decimal s
  end.

#[global] Instance decimal_builtins : Builtins := {
  float_of_str := decimal_literal
}.

End Registry.

(** * [controller-module/src/aggregator.py] *)

Module Aggregator.
Import Registry.

(** The text of an alert is an f-string; it is kept as the template with
    the values it interpolates. *)
Inductive message : Type :=
| AssetInFault (asset_id asset_type : value)
| GridSurplusOf (balance : number)
| GridDeficitOf (abs_balance : number).

(** [message] is the field [text] and [asset_id] the field
    [alert_asset_id], [VNone] standing for the default [None]. *)
Record GridAlert : Type := mkAlert {
  severity : string;
  code : string;
  text : message;
  alert_asset_id : value
}.

(** [alerts] holds one dict per alert in the source, with the four fields
    of the alert; it is kept as the list of alerts. *)
Record AggregatedTelemetry : Type := mkTelemetry {
  device_id : string;
  timestamp : string;
  total_generation_kw : number;
  total_consumption_kw : number;
  grid_balance_kw : number;
  asset_count : Z;
  assets : list (value * pydict);
  alerts : list GridAlert
}.

Record Aggregator : Type := mkAggregator {
  self_device_id : string;
  surplus_threshold_kw : Q
}.

(** [x > y] and [x < y] on floats *)
Definition gt (x y : Q) : bool := match (x ?= y)%Q with Gt => true | _ => false end.
Definition lt (x y : Q) : bool := match (x ?= y)%Q with Lt => true | _ => false end.

Definition fault_alerts (snapshots : list AssetSnapshot) : list GridAlert :=
  flat_map
    (fun s =>
       if eq_str (state s) "FAULT"
       then [mkAlert "critical" "ASSET_FAULT"
                     (AssetInFault (asset_id s) (asset_type s)) (asset_id s)]
       else [])
    snapshots.

Definition _check_alerts (self : Aggregator) (snapshots : list AssetSnapshot)
  (balance : number) : list GridAlert :=
  let alerts := fault_alerts snapshots in
  let alerts :=
    if gt (value_of balance) (surplus_threshold_kw self)
    then alerts ++ [mkAlert "warning" "GRID_SURPLUS" (GridSurplusOf balance) VNone]
    else alerts in
  let alerts :=
    if lt (value_of balance) (- surplus_threshold_kw self)
    then alerts ++ [mkAlert "warning" "GRID_DEFICIT" (GridDeficitOf (abs_ balance)) VNone]
    else alerts in
  alerts.

(** [{k: v for ...}]: later equal keys overwrite in place *)
Fixpoint dict_setitem (k : value) (v : pydict) (d : list (value * pydict)) : list (value * pydict) :=
  match d with
  | [] => [(k, v)]
  | (k', v') :: d' =>
      if key_eqb k' k then (k', v) :: d' else (k', v') :: dict_setitem k v d'
  end.

Definition asset_entry (s : AssetSnapshot) : pydict :=
  [("state", state s); ("power_kw", VFloat (power_kw s)); ("asset_type", asset_type s)].

(** [Aggregator.compute]; [now] is the clock reading of this call. *)
Definition compute `{FloatArith} (self : Aggregator) (now : string)
  (registry : Registry.assets) : AggregatedTelemetry :=
  let snapshots := map snd registry in
  let generation := sum (map power_kw (List.filter (fun s => gt (power_kw s) 0) snapshots)) in
  let consumption :=
    sum (map (fun s => Qabs (power_kw s)) (List.filter (fun s => lt (power_kw s) 0) snapshots)) in
  let balance := sub generation consumption in
  let alerts := _check_alerts self snapshots balance in
  mkTelemetry (self_device_id self) now
              (round_ generation 2) (round_ consumption 2) (round_ balance 2)
              (Z.of_nat (length snapshots))
              (fold_left (fun d s => dict_setitem (asset_id s) (asset_entry s) d) snapshots [])
              alerts.

End Aggregator.

(** * [iot_edge_base/client.py]: [LocalMqttEdgeClient] *)

Module Client.

(** ** The string operations the client uses on topics *)

Fixpoint drop_chars (n : nat) (s : string) : string :=
  match n, s with
  | O, _ => s
  | S n', String _ s' => drop_chars n' s'
  | S _, EmptyString => EmptyString
  end.

(** What follows the last occurrence of a non-empty [sep] in [s]. *)
Fixpoint after_last (sep s : string) : option string :=
  match s with
  | EmptyString => None
  | String _ s' =>
      match after_last sep s' with
      | Some r => Some r
      | None =>
          if String.prefix sep s then Some (drop_chars (String.length sep) s) else None
      end
  end.

(** [sep in s] *)
Definition contains (sep s : string) : bool :=
  match after_last sep s with
  | Some _ => true
  | None => false
  end.

(** [s.rsplit(sep, 1)[-1]] *)
Definition rsplit_last (sep s : string) : string :=
  match after_last sep s with
  | Some r => r
  | None => s
  end.

(** [s.split("/")[0]] *)
Fixpoint split_first (s : string) : string :=
  match s with
  | EmptyString => EmptyString
  | String c s' => if Ascii.eqb c "/"%char then EmptyString else String c (split_first s')
  end.

(** ** Dicts with string keys *)

(** [d[k] = v] *)
Fixpoint dict_set (k : string) (v : value) (d : pydict) : pydict :=
  match d with
  | [] => [(k, v)]
  | (k', v') :: d' => if String.eqb k' k then (k', v) :: d' else (k', v') :: dict_set k v d'
  end.

(** [del d[k]] when present *)
Definition dict_remove (k : string) (d : pydict) : pydict :=
  List.filter (fun kv => negb (String.eqb (fst kv) k)) d.

(** ** The client object *)

Record DirectMethodRequest : Type := mkRequest {
  request_id : value;
  name : string;
  payload : pydict
}.

Record DirectMethodResponse : Type := mkResponse {
  response_request_id : value;
  status : Z;
  response_payload : pydict
}.

(** An [asyncio.Future]. *)
Inductive future : Type :=
| Pending
| Finished (result : value)
| Cancelled.

Definition done (f : future) : bool :=
  match f with
  | Pending => false
  | _ => true
  end.

(** A message as the broker hands it to [_listen_loop]: the topic, what
    [json.loads] makes of the payload ([None] when it cannot be decoded)
    and [id] of the decoded object. *)
Record message : Type := mkMessage {
  topic : string;
  body : option value;
  addr : Z
}.

(** [str(v)] inside an f-string.  The [repr] of floats and containers is
    the interpreter's and is taken as given. *)
Class Formatter : Type := {
  repr : value -> string
}.

Definition str_ `{Formatter} (v : value) : string :=
  match v with
  | VStr s => s
  | VNone => "None"
  | VBool true => "True"
  | VBool false => "False"
  | VInt z => pretty z
  | _ => repr v
  end.

(** The fields of a [LocalMqttEdgeClient].  The handlers work on the
    state [H] of the module that registered them.  Futures are objects
    shared between [_pending] and the coroutine that awaits them: they
    live in [futures] and are referred to by their index.  [published]
    lists the calls of [self._client.publish], oldest first;
    [_listening] says that [_listen_task] is still running. *)
Record LocalMqttEdgeClient (H : Type) : Type := mkClient {
  _broker_host : string;
  _module_id : string;
  _message_handler : option (value -> string -> M H unit);
  _method_handler : option (DirectMethodRequest -> M H DirectMethodResponse);
  _pending : gmap string nat;
  _extra_topics : list string;
  subscriptions : list string;
  _listening : bool;
  futures : list future;
  published : list (string * value)
}.
Arguments mkClient {H}.
Arguments _broker_host {H}.
Arguments _module_id {H}.
Arguments _message_handler {H}.
Arguments _method_handler {H}.
Arguments _pending {H}.
Arguments _extra_topics {H}.
Arguments subscriptions {H}.
Arguments _listening {H}.
Arguments futures {H}.
Arguments published {H}.

Definition __init__ {H} (broker_host module_id : string) (extra_topics : list string)
  : LocalMqttEdgeClient H :=
  mkClient broker_host module_id None None ∅ extra_topics [] false [] [].

Definition with_pending {H} (p : gmap string nat) (c : LocalMqttEdgeClient H) :=
  mkClient (_broker_host c) (_module_id c) (_message_handler c) (_method_handler c)
           p (_extra_topics c) (subscriptions c) (_listening c) (futures c) (published c).

Definition with_futures {H} (fs : list future) (c : LocalMqttEdgeClient H) :=
  mkClient (_broker_host c) (_module_id c) (_message_handler c) (_method_handler c)
           (_pending c) (_extra_topics c) (subscriptions c) (_listening c) fs (published c).

Definition with_published {H} (ps : list (string * value)) (c : LocalMqttEdgeClient H) :=
  mkClient (_broker_host c) (_module_id c) (_message_handler c) (_method_handler c)
           (_pending c) (_extra_topics c) (subscriptions c) (_listening c) (futures c) ps.

Definition with_listening {H} (b : bool) (c : LocalMqttEdgeClient H) :=
  mkClient (_broker_host c) (_module_id c) (_message_handler c) (_method_handler c)
           (_pending c) (_extra_topics c) (subscriptions c) b (futures c) (published c).

Definition on_message {H} (handler : value -> string -> M H unit) (c : LocalMqttEdgeClient H) :=
  mkClient (_broker_host c) (_module_id c) (Some handler) (_method_handler c)
           (_pending c) (_extra_topics c) (subscriptions c) (_listening c) (futures c)
           (published c).

Definition on_method {H} (handler : DirectMethodRequest -> M H DirectMethodResponse)
  (c : LocalMqttEdgeClient H) :=
  mkClient (_broker_host c) (_module_id c) (_message_handler c) (Some handler)
           (_pending c) (_extra_topics c) (subscriptions c) (_listening c) (futures c)
           (published c).

Definition connect {H} (c : LocalMqttEdgeClient H) : LocalMqttEdgeClient H :=
  mkClient (_broker_host c) (_module_id c) (_message_handler c) (_method_handler c)
           (_pending c) (_extra_topics c)
           (["edge/" +:+ _module_id c +:+ "/inputs/#";
             "edge/" +:+ _module_id c +:+ "/methods/+";
             "edge/+/methods/response/#"] ++ _extra_topics c)
           true (futures c) (published c).

(** A method of the client runs on the client together with the state
    its handlers work on. *)
Abbreviation world H := (LocalMqttEdgeClient H * H)%type.

Definition self {H} : M (world H) (LocalMqttEdgeClient H) := fun w => (Ok (fst w), w).

Definition update_self {H} (f : LocalMqttEdgeClient H -> LocalMqttEdgeClient H)
  : M (world H) unit :=
  fun w => (Ok tt, (f (fst w), snd w)).

Definition handler {H A} (h : M H A) : M (world H) A :=
  fun w => let '(r, h') := h (snd w) in (r, (fst w, h')).

(** [self._client.publish(topic, json.dumps(data))] on a connected client;
    a broker that refuses the publication is outside the model. *)
Definition publish {H} (topic : string) (data : value) : M (world H) unit :=
  update_self (fun c => with_published (published c ++ [(topic, data)]) c).

(** [self._pending.pop(request_id, None)] *)
Definition pending_pop {H} (request_id : string) : M (world H) (option nat) :=
  (c <- self ;;
   update_self (with_pending (delete request_id (_pending c))) ;;;
   ret (_pending c !! request_id))%py.

Definition set_future {H} (f : nat) (st : future) : M (world H) unit :=
  update_self (fun c => with_futures (<[f := st]> (futures c)) c).

Definition no_attribute {W A} (attr : string) : M W A :=
  raise (mkExn AttributeError ("object has no attribute '" +:+ attr +:+ "'")).

(** [f"edge/{module_id}/methods/response/{request_id}"] *)
Definition response_topic (module_id request_id : string) : string :=
  "edge/" +:+ module_id +:+ "/methods/response/" +:+ request_id.

Definition send_method_response {H} `{Formatter} (response : DirectMethodResponse)
  : M (world H) unit :=
  (c <- self ;;
   let topic := response_topic (_module_id c) (str_ (response_request_id response)) in
   publish topic (VDict [("status", VInt (status response));
                         ("payload", VDict (response_payload response))]))%py.

Definition send_message_to_output {H} (data : pydict) (output_name : string)
  : M (world H) unit :=
  (c <- self ;;
   publish ("edge/" +:+ _module_id c +:+ "/outputs/" +:+ output_name) (VDict data))%py.

Definition update_reported_properties {H} (props : pydict) : M (world H) unit :=
  (c <- self ;;
   publish ("edge/" +:+ _module_id c +:+ "/twin/reported") (VDict props))%py.

(** [_dispatch(topic, payload)]; [addr] is [id(payload)]. *)
Definition _dispatch {H} `{Formatter} (topic : string) (payload : value) (addr : Z)
  : M (world H) unit :=
  (c <- self ;;
   if contains "/methods/response/" topic then
     let request_id := rsplit_last "/methods/response/" topic in
     fut <- pending_pop request_id ;;
     match fut with
     | Some f =>
         match futures c !! f with
         | Some Pending =>
             match payload with
             | VDict d => set_future f (Finished (dict_get "payload" (VDict []) d))
             | _ => no_attribute "get"
             end
         | _ => ret tt
         end
     | None => ret tt
     end
   else if contains ("edge/" +:+ _module_id c +:+ "/methods/") topic then
     let method_name := rsplit_last "/methods/" topic in
     match _method_handler c with
     | Some h =>
         match payload with
         | VDict d =>
             let request_id :=
               dict_get "_request_id" (VStr (method_name +:+ "-" +:+ pretty addr)) d in
             let req := mkRequest request_id method_name (dict_remove "_request_id" d) in
             resp <- handler (h req) ;;
             send_method_response resp
         | VList _ => raise (mkExn TypeError "pop expected at most 1 argument, got 2")
         | _ => no_attribute "pop"
         end
     | None => ret tt
     end
   else
     match _message_handler c with
     | Some h =>
         let input_name :=
           if contains "/outputs/" topic then rsplit_last "/outputs/" topic
           else if contains "/inputs/" topic then split_first (rsplit_last "/inputs/" topic)
           else "default" in
         handler (h payload input_name)
     | None => ret tt
     end)%py.

(** One turn of the loop in [_listen_loop].  A message that cannot be
    decoded is skipped; an exception out of [_dispatch] is logged and
    ends the listener task. *)
Definition deliver {H} `{Formatter} (m : message) : M (world H) unit :=
  (c <- self ;;
   if _listening c then
     match body m with
     | None => ret tt
     | Some payload =>
         fun w =>
           match _dispatch (topic m) payload (addr m) w with
           | (Ok tt, w') => (Ok tt, w')
           | (Raise e, w') => update_self (with_listening false) w'
           end
     end
   else ret tt)%py.

(** A call of [invoke_method] that has reached its [await]. *)
Record call : Type := mkCall {
  call_request_id : string;
  call_future : nat
}.

(** [invoke_method] up to [await asyncio.wait_for(future, ...)];
    [stamp] is [f"{loop.time():.6f}"]. *)
Definition invoke_method_begin {H} (stamp : string)
  (target_module_id method_name : string) (payload : pydict) : M (world H) call :=
  (let request_id := method_name +:+ "-" +:+ stamp in
   let outgoing := dict_set "_request_id" (VStr request_id) payload in
   let topic := "edge/" +:+ target_module_id +:+ "/methods/" +:+ method_name in
   c <- self ;;
   let f := length (futures c) in
   update_self (fun c => with_futures (futures c ++ [Pending]) c) ;;;
   update_self (fun c => with_pending (<[request_id := f]> (_pending c)) c) ;;;
   publish topic (VDict outgoing) ;;;
   ret (mkCall request_id f))%py.

Definition timed_out (target_module_id method_name : string) (timeout_s : Z) : exn :=
  mkExn RuntimeError
        ("Method " +:+ method_name +:+ " on " +:+ target_module_id
         +:+ " timed out after " +:+ pretty timeout_s +:+ "s").

(** [invoke_method] from its [await] on, entered when the future is done
    or, failing that, when the deadline has passed: [wait_for] then
    cancels the future and raises [TimeoutError]. *)
Definition invoke_method_end {H} (k : call)
  (target_module_id method_name : string) (timeout_s : Z) : M (world H) value :=
  (c <- self ;;
   match futures c !! call_future k with
   | Some (Finished result) => ret result
   | Some Pending =>
       set_future (call_future k) Cancelled ;;;
       pending_pop (call_request_id k) ;;;
       raise (timed_out target_module_id method_name timeout_s)
   | _ => raise (mkExn CancelledError "")
   end)%py.

(** A whole [invoke_method]: the messages in [arriving] are those the
    listener receives while the call is suspended. *)
Definition invoke_method {H} `{Formatter} (stamp : string) (arriving : list message)
  (target_module_id method_name : string) (payload : pydict) (timeout_s : Z)
  : M (world H) value :=
  (k <- invoke_method_begin stamp target_module_id method_name payload ;;
   fold_right (fun m rest => deliver m ;;; rest) (ret tt) arriving ;;;
   invoke_method_end k target_module_id method_name timeout_s)%py.

(** The formatter of the examples: they print scalars only. *)
#[global] Instance scalar_formatter : Formatter := {
  repr := fun _ => "..."
}.

End Client.

(** * [controller-module/src/dispatcher.py] *)

Module Dispatcher.

Definition DEFAULT_TIMEOUT_S : Z := 10.
Definition MAX_RETRIES : Z := 2.
Definition RETRY_DELAY_S : Q := 2.

(** [BaseEdgeClient], as far as the dispatcher uses it: any object with
    an [invoke_method]. *)
Class BaseEdgeClient (T : Type) : Type := {
  invoke_method : string -> string -> pydict -> Z -> M T value
}.

(** What a call of [send] awaits, in order. *)
Inductive awaited : Type :=
| Invoke (target_module_id method_name : string) (payload : pydict) (timeout_s : Z)
| Sleep (delay : Q).

(** A [CommandDispatcher] with the client it holds; [awaits] records what
    it has awaited so far, oldest first. *)
Record CommandDispatcher (T : Type) : Type := mkDispatcher {
  _client : T;
  _max_retries : Z;
  awaits : list awaited
}.
Arguments mkDispatcher {T}.
Arguments _client {T}.
Arguments _max_retries {T}.
Arguments awaits {T}.

Definition __init__ {T} (client : T) (max_retries : Z) : CommandDispatcher T :=
  mkDispatcher client max_retries [].

Definition record {T} (a : awaited) : M (CommandDispatcher T) unit :=
  modify (fun d => mkDispatcher (_client d) (_max_retries d) (awaits d ++ [a])).

(** [await self._client.invoke_method(...)] *)
Definition client_invoke_method {T} `{BaseEdgeClient T}
  (module_id method_name : string) (payload : pydict) (timeout_s : Z)
  : M (CommandDispatcher T) value :=
  (record (Invoke module_id method_name payload timeout_s) ;;;
   fun d =>
     let '(r, c) := invoke_method module_id method_name payload timeout_s (_client d) in
     (r, mkDispatcher c (_max_retries d) (awaits d)))%py.

(** [await asyncio.sleep(delay)] *)
Definition sleep {T} (delay : Q) : M (CommandDispatcher T) unit := record (Sleep delay).

(** [str(last_exc)] *)
Definition str_exc (last_exc : option exn) : string :=
  match last_exc with
  | Some e => exn_str e
  | None => "None"
  end.

Definition command_failed (module_id method_name : string) (max_retries : Z)
  (last_exc : option exn) : exn :=
  mkExn RuntimeError
        ("Command " +:+ method_name +:+ " to " +:+ module_id +:+ " failed after "
         +:+ pretty (max_retries + 1)%Z +:+ " attempts: " +:+ str_exc last_exc).

(** The [for attempt in ...] loop of [send] over the attempts still to
    make, and the [raise] that follows it. *)
Fixpoint send_loop {T} `{BaseEdgeClient T} (attempts : list Z) (last_exc : option exn)
  (module_id method_name : string) (payload : pydict) (timeout_s : Z)
  : M (CommandDispatcher T) value :=
  match attempts with
  | [] =>
      (self <- get ;;
       raise (command_failed module_id method_name (_max_retries self) last_exc))%py
  | attempt :: rest =>
      (outcome <-
         try_except
           (result <- client_invoke_method module_id method_name payload timeout_s ;;
            ret (inl result))
           (fun exc =>
              self <- get ;;
              (if (attempt <=? _max_retries self)%Z then sleep RETRY_DELAY_S else ret tt) ;;;
              ret (inr exc)) ;;
       match outcome with
       | inl result => ret result
       | inr exc => send_loop rest (Some exc) module_id method_name payload timeout_s
       end)%py
  end.

Definition send {T} `{BaseEdgeClient T}
  (module_id method_name : string) (payload : pydict) (timeout_s : Z)
  : M (CommandDispatcher T) value :=
  (self <- get ;;
   send_loop (seqZ 1 (_max_retries self + 1)) None module_id method_name payload timeout_s)%py.

Definition start_asset {T} `{BaseEdgeClient T} (module_id : string) :=
  send module_id "start" [] DEFAULT_TIMEOUT_S.

Definition stop_asset {T} `{BaseEdgeClient T} (module_id : string) :=
  send module_id "stop" [] DEFAULT_TIMEOUT_S.

Definition set_solar_output {T} `{BaseEdgeClient T} (module_id : string) (target_kw : Q) :=
  send module_id "set_output" [("target_kw", VFloat target_kw)] DEFAULT_TIMEOUT_S.

Definition charge_battery {T} `{BaseEdgeClient T} (module_id : string) (power_kw : Q) :=
  send module_id "start_charging" [("power_kw", VFloat power_kw)] DEFAULT_TIMEOUT_S.

Definition discharge_battery {T} `{BaseEdgeClient T} (module_id : string) (power_kw : Q) :=
  send module_id "start_discharging" [("power_kw", VFloat power_kw)] DEFAULT_TIMEOUT_S.

Definition set_boiler_temperature {T} `{BaseEdgeClient T} (module_id : string)
  (target_celsius : Q) :=
  send module_id "set_temperature" [("target_celsius", VFloat target_celsius)]
       DEFAULT_TIMEOUT_S.

(** The client of the unit tests: [AsyncMock(side_effect=[...])] hands out
    the listed outcomes one call after the other. *)
Definition mock := list (res value).

#[global] Instance mock_client : BaseEdgeClient mock := {
  invoke_method := fun _ _ _ _ effects =>
    match effects with
    | r :: rest => (r, rest)
    | [] => (Raise (mkExn OtherException "StopAsyncIteration"), [])
    end
}.

End Dispatcher.

(** * The dispatcher on a [LocalMqttEdgeClient] *)

Module Local.
Import Client.

(** The client together with the number of calls it has made.  The
    surroundings are given by [stamp_of], the reading of [loop.time()] at
    each call, and [network], the messages that reach the listener while
    the answer to a publication is awaited. *)
Record link (H : Type) : Type := mkLink {
  endpoint : world H;
  calls : nat
}.
Arguments mkLink {H}.
Arguments endpoint {H}.
Arguments calls {H}.

Record surroundings : Type := mkSurroundings {
  stamp_of : nat -> string;
  network : string -> value -> list message
}.

#[global] Instance local_client {H} `{Formatter} (env : surroundings)
  : Dispatcher.BaseEdgeClient (link H) := {
  Dispatcher.invoke_method := fun target_module_id method_name payload timeout_s l =>
    let stamp := stamp_of env (calls l) in
    let topic := "edge/" +:+ target_module_id +:+ "/methods/" +:+ method_name in
    let outgoing := dict_set "_request_id" (VStr (method_name +:+ "-" +:+ stamp)) payload in
    let '(r, w) :=
      invoke_method stamp (network env topic (VDict outgoing))
                    target_module_id method_name payload timeout_s (endpoint l) in
    (r, mkLink w (S (calls l)))
}.

(** A broker with one other module on it: the publication is delivered
    to that module, and what the module publishes in turn comes back. *)
Definition relay {R} `{Formatter} (remote : world R) (topic : string) (data : value)
  : list message :=
  let remote' := snd (deliver (mkMessage topic (Some data) 0) remote) in
  map (fun p => mkMessage (fst p) (Some (snd p)) 0)
      (drop (length (published (fst remote))) (published (fst remote'))).

End Local.

(** * A controller and an asset module on one broker *)

Module Scenario.
Import Client Local.

(** A method handler that turns every request down with status 409, as
    the handlers of the asset modules do when the driver raises
    [RuntimeError]. *)
Definition rejecting (reason : string) (request : DirectMethodRequest)
  : M unit DirectMethodResponse :=
  ret (mkResponse (request_id request) 409 [("error", VStr reason)]).

Definition battery_module : world unit :=
  (connect (on_method (rejecting "Battery is at maximum charge")
                      (__init__ "mosquitto" "battery-module" [])), tt).

Definition controller_module : world unit :=
  (connect (__init__ "mosquitto" "controller-module" ["edge/+/outputs/telemetry"]), tt).

(** The loop clock reads 12 s at every call; the battery module is the
    only other module on the broker. *)
Definition broker : surroundings :=
  mkSurroundings (fun _ => "12.000000") (relay battery_module).

Definition telemetry : message :=
  mkMessage "edge/solar-module/outputs/telemetry"
            (Some (VDict [("asset_id", VStr "solar-01"); ("state", VStr "RUNNING")])) 0.

Definition response_to (request_id : string) (status : Z) (answer : pydict) : message :=
  mkMessage (response_topic "battery-module" request_id)
            (Some (VDict [("status", VInt status); ("payload", VDict answer)])) 0.

End Scenario.

(** * What the drivers and the entry points take from the interpreter *)

Module Interp.
Import Asset.

(** [x <= y] and [x >= y] on floats *)
Definition le (x y : Q) : bool := negb (Aggregator.gt x y).
Definition ge (x y : Q) : bool := negb (Aggregator.lt x y).

(** [min(a, b)] and [max(a, b)]: the first argument unless the second
    is strictly smaller (larger). *)
Definition min_ (a b : Q) : Q := if Aggregator.lt b a then b else a.
Definition max_ (a b : Q) : Q := if Aggregator.gt b a then b else a.

(** The value of a member of [AssetState], which is what [json.dumps]
    writes for it. *)
Definition state_name (s : AssetState) : string :=
  match s with
  | IDLE => "IDLE"
  | STARTING => "STARTING"
  | RUNNING => "RUNNING"
  | STOPPING => "STOPPING"
  | FAULT => "FAULT"
  end.

(** How an f-string formats a member of [AssetState] differs between
    versions of the interpreter; it is taken as given. *)
Class EnumFormat : Type := {
  format_state : AssetState -> string
}.

Definition is_RuntimeError (e : exn) : bool :=
  match exn_cls e with
  | RuntimeError => true
  | _ => false
  end.

Definition is_ValueError (e : exn) : bool :=
  match exn_cls e with
  | ValueError => true
  | _ => false
  end.

(** [try: c  except RuntimeError: h] *)
Definition try_except_RuntimeError {W A} (c : M W A) (h : M W A) : M W A :=
  fun w =>
    match c w with
    | (Ok a, w') => (Ok a, w')
    | (Raise e, w') => if is_RuntimeError e then h w' else (Raise e, w')
    end.

(** [d[key]]; a missing key raises [KeyError], whose text is the [repr]
    of the key. *)
Definition getitem (key : string) (d : pydict) : res value :=
  match dict_lookup key d with
  | Some v => Ok v
  | None => Raise (mkExn OtherException ("'" +:+ key +:+ "'"))
  end.

(** A call that only computes a result or raises. *)
Definition lift {W A} (r : res A) : M W A := fun w => (r, w).

(** [s.replace(old, new)] for a non-empty [old]; [skip] counts the
    characters of a match that are still to be passed over. *)
Fixpoint replace_from (old new : string) (skip : nat) (s : string) : string :=
  match s with
  | EmptyString => EmptyString
  | String c s' =>
      match skip with
      | S n => replace_from old new n s'
      | O =>
          if String.prefix old s
          then new +:+ replace_from old new (String.length old - 1) s'
          else String c (replace_from old new O s')
      end
  end.

Definition replace (old new s : string) : string := replace_from old new O s.

(** The format of the examples: the name of the member, as the
    interpreters before 3.11 print it. *)
#[global] Instance name_format : EnumFormat := {
  format_state := state_name
}.

End Interp.

(** * [battery-module/src/battery.py] and [battery-module/main.py] *)

Module Battery.
Import Asset Client Interp.
Open Scope Q_scope.

Definition SOC_MIN : Q := 0.05.
Definition SOC_MAX : Q := 0.95.

(** The values [_battery_state] takes: a member of [AssetState], or one
    of the two strings of [BatteryState]. *)
Inductive battery_state : Type :=
| of_asset (s : AssetState)
| CHARGING
| DISCHARGING.

(** The fields [BatteryStorage] adds to [BaseAsset]. *)
Record BatteryStorage : Type := mkBattery {
  capacity_kwh : Q;
  max_power_kw : Q;
  _startup_delay_s : Q;
  _soc : Q;
  _power_kw : Q;
  _temperature_c : Q;
  _battery_state : battery_state
}.

Definition __init__ (asset_id : string) (capacity_kwh max_power_kw initial_soc startup_delay_s : Q)
  : BaseAsset BatteryStorage :=
  Asset.__init__ asset_id
    (mkBattery capacity_kwh max_power_kw startup_delay_s initial_soc 0 25 (of_asset IDLE)).

Definition set_power_kw (power_kw : Q) : M BatteryStorage unit :=
  modify (fun b => mkBattery (capacity_kwh b) (max_power_kw b) (_startup_delay_s b) (_soc b)
                             power_kw (_temperature_c b) (_battery_state b)).

Definition set_battery_state (s : battery_state) : M BatteryStorage unit :=
  modify (fun b => mkBattery (capacity_kwh b) (max_power_kw b) (_startup_delay_s b) (_soc b)
                             (_power_kw b) (_temperature_c b) s).

(** The property [state], which overrides that of [BaseAsset]. *)
Definition state (a : BaseAsset BatteryStorage) : battery_state := _battery_state (driver a).

(** [f"{self._battery_state}"] *)
Definition state_text `{EnumFormat} (s : battery_state) : string :=
  match s with
  | of_asset a => format_state a
  | CHARGING => "CHARGING"
  | DISCHARGING => "DISCHARGING"
  end.

Definition start_charging `{EnumFormat} (power_kw : Q) : M BatteryStorage unit :=
  (b <- Py.get ;;
   match _battery_state b with
   | of_asset IDLE | of_asset RUNNING | DISCHARGING =>
       if ge (_soc b) SOC_MAX then raise (mkExn RuntimeError "Battery is at maximum charge")
       else
         set_power_kw (min_ power_kw (max_power_kw b)) ;;;
         set_battery_state CHARGING
   | s => raise (mkExn RuntimeError ("Cannot start charging in state " +:+ state_text s))
   end)%py.

Definition start_discharging `{EnumFormat} (power_kw : Q) : M BatteryStorage unit :=
  (b <- Py.get ;;
   match _battery_state b with
   | of_asset IDLE | of_asset RUNNING | CHARGING =>
       if le (_soc b) SOC_MIN then raise (mkExn RuntimeError "Battery is at minimum charge")
       else
         set_power_kw (- min_ power_kw (max_power_kw b)) ;;;
         set_battery_state DISCHARGING
   | s => raise (mkExn RuntimeError ("Cannot start discharging in state " +:+ state_text s))
   end)%py.

(** [stop], which overrides that of [BaseAsset]: it takes no lock, checks
    no state and leaves [_state] alone. *)
Definition stop : M BatteryStorage unit :=
  (set_power_kw 0 ;;; set_battery_state (of_asset IDLE))%py.

(** The hooks; [_on_start] sleeps before it sets the state. *)
#[global] Instance Battery_hooks : Hooks BatteryStorage := {
  _on_start := set_battery_state (of_asset RUNNING);
  _on_stop := (set_power_kw 0 ;;; set_battery_state (of_asset IDLE))%py;
  _on_fault := fun _ => (set_power_kw 0 ;;; set_battery_state (of_asset FAULT))%py
}.

(** [handle_method] of [register_handlers]; [MAX_POWER_KW] is read from
    the environment when the module is loaded. *)
Definition handle_method `{EnumFormat} `{Registry.Builtins} (MAX_POWER_KW : Q)
  (request : DirectMethodRequest) : M (BaseAsset BatteryStorage) DirectMethodResponse :=
  try_except
    (if String.eqb (name request) "start_charging" then
       power_kw <- lift (Registry.float_ (dict_get "power_kw" (VFloat MAX_POWER_KW)
                                                   (payload request))) ;;
       hook (start_charging power_kw) ;;;
       ret (mkResponse (request_id request) 200
                       [("status", VStr "charging"); ("power_kw", VFloat power_kw)])
     else if String.eqb (name request) "start_discharging" then
       power_kw <- lift (Registry.float_ (dict_get "power_kw" (VFloat MAX_POWER_KW)
                                                   (payload request))) ;;
       hook (start_discharging power_kw) ;;;
       ret (mkResponse (request_id request) 200
                       [("status", VStr "discharging"); ("power_kw", VFloat power_kw)])
     else if String.eqb (name request) "stop" then
       hook stop ;;;
       ret (mkResponse (request_id request) 200 [("status", VStr "stopped")])
     else if String.eqb (name request) "reset" then
       reset ;;;
       ret (mkResponse (request_id request) 200 [("status", VStr "reset")])
     else
       ret (mkResponse (request_id request) 404
                       [("error", VStr ("Unknown method: " +:+ name request))]))%py
    (fun exc =>
       ret (mkResponse (request_id request) (if is_RuntimeError exc then 409 else 500)
                       [("error", VStr (exn_str exc))])).

End Battery.

(** * [controller-module/main.py] *)

Module Controller.
Import Registry Aggregator Dispatcher Interp.

(** [min(a, b)] on numbers *)
Definition min_number (a b : number) : number :=
  if lt (value_of b) (value_of a) then b else a.

(** A number as a JSON value. *)
Definition number_value (n : number) : value :=
  match n with
  | Int z => VInt z
  | Float q => VFloat q
  end.

(** [_apply_balancing]; [BATTERY_MODULE_ID] is read from the environment
    when the module is loaded. *)
Section balancing.
Context {T : Type} `{BaseEdgeClient T}.
Variable BATTERY_MODULE_ID : string.

(** [dispatcher.charge_battery(module_id, power_kw)] and
    [dispatcher.discharge_battery(module_id, power_kw)] for the power
    that balancing passes, which is the int [0] when the balance is. *)
Definition charge_battery (module_id : string) (power_kw : number) :=
  send module_id "start_charging" [("power_kw", number_value power_kw)] DEFAULT_TIMEOUT_S.

Definition discharge_battery (module_id : string) (power_kw : number) :=
  send module_id "start_discharging" [("power_kw", number_value power_kw)] DEFAULT_TIMEOUT_S.

(** The body of the loop over the alerts. *)
Definition on_alert (balance : number) (alert : GridAlert) : M (CommandDispatcher T) unit :=
  if String.eqb (code alert) "GRID_SURPLUS" then
    try_except_RuntimeError
      (bind (charge_battery BATTERY_MODULE_ID (min_number (abs_ balance) (Float 50)))
            (fun _ => ret tt))
      (ret tt)
  else if String.eqb (code alert) "GRID_DEFICIT" then
    try_except_RuntimeError
      (bind (discharge_battery BATTERY_MODULE_ID (min_number (abs_ balance) (Float 50)))
            (fun _ => ret tt))
      (ret tt)
  else if String.eqb (code alert) "ASSET_FAULT" then ret tt
  else ret tt.

Fixpoint for_alerts (balance : number) (l : list GridAlert) : M (CommandDispatcher T) unit :=
  match l with
  | [] => ret tt
  | alert :: rest => bind (on_alert balance alert) (fun _ => for_alerts balance rest)
  end.

Definition _apply_balancing (telemetry : AggregatedTelemetry) (registry : Registry.assets)
  : M (CommandDispatcher T) unit :=
  let balance := grid_balance_kw telemetry in
  match fst (Registry.get (VStr (replace "-module" "-01" BATTERY_MODULE_ID)) registry) with
  | Raise e => raise e
  | Ok battery => for_alerts balance (alerts telemetry)
  end.

End balancing.

(** What [handle_asset_telemetry] works on: the registry of [main], and
    how many messages the handler has been given.  [clock n] is what
    [datetime.now(timezone.utc).isoformat()] reads during the handling of
    message [n]. *)
Record controller : Type := mkController {
  registry : Registry.assets;
  handled : nat
}.

Definition handle_asset_telemetry `{Builtins} (clock : nat -> string)
  (data : value) (input_name : string) : M controller unit :=
  fun s =>
    match data with
    | VDict d =>
        let '(r, reg) := Registry.update (clock (handled s)) d (registry s) in
        (r, mkController reg (S (handled s)))
    | _ => (Raise (mkExn AttributeError "object has no attribute 'get'"),
            mkController (registry s) (S (handled s)))
    end.

End Controller.

(** * [boiler-module/src/boiler.py] and [boiler-module/main.py] *)

Module BoilerDriver.
Import Asset Client Interp.
Open Scope Q_scope.

Definition set_target_temp_c (target : Q) : M Boiler unit :=
  modify (fun b => mkBoiler (max_power_kw b) (_startup_delay_s b) target
                            (_current_temp_c b) (_power_kw b) (_pressure_bar b)).

Definition set_temperature `{EnumFormat} `{Formatter} (target_celsius : Q)
  : M (BaseAsset Boiler) unit :=
  (a <- Py.get ;;
   if negb (AssetState_eqb (_state a) RUNNING) then
     raise (mkExn RuntimeError ("Cannot set temperature in state " +:+ format_state (_state a)))
   else if negb (le 40 target_celsius && le target_celsius 120) then
     raise (mkExn ValueError ("Temperature " +:+ repr (VFloat target_celsius)
                              +:+ "°C out of safe range [40, 120]"))
   else hook (set_target_temp_c target_celsius))%py.

(** [handle_method] of [register_handlers] *)
Definition handle_method `{EnumFormat} `{Formatter} `{Registry.Builtins}
  (request : DirectMethodRequest) : M (BaseAsset Boiler) DirectMethodResponse :=
  try_except
    (if String.eqb (name request) "start" then
       start ;;;
       ret (mkResponse (request_id request) 200 [("status", VStr "started")])
     else if String.eqb (name request) "stop" then
       Asset.stop ;;;
       ret (mkResponse (request_id request) 200 [("status", VStr "stopped")])
     else if String.eqb (name request) "set_temperature" then
       v <- lift (getitem "target_celsius" (payload request)) ;;
       target <- lift (Registry.float_ v) ;;
       set_temperature target ;;;
       ret (mkResponse (request_id request) 200
                       [("status", VStr "ok"); ("target_celsius", VFloat target)])
     else if String.eqb (name request) "reset" then
       reset ;;;
       ret (mkResponse (request_id request) 200 [("status", VStr "reset")])
     else
       ret (mkResponse (request_id request) 404
                       [("error", VStr ("Unknown method: " +:+ name request))]))%py
    (fun exc =>
       ret (mkResponse (request_id request)
                       (if is_RuntimeError exc || is_ValueError exc then 409 else 500)
                       [("error", VStr (exn_str exc))])).

End BoilerDriver.

(** * [solar-module/src/inverter.py] and [solar-module/main.py] *)

Module Solar.
Import Asset Client Interp.
Open Scope Q_scope.

(** The fields [SolarInverter] adds to [BaseAsset]. *)
Record SolarInverter : Type := mkInverter {
  max_power_kw : Q;
  _startup_delay_s : Q;
  _target_power_kw : Q;
  _current_power_kw : Q;
  _temperature_c : Q
}.

Definition __init__ (asset_id : string) (max_power_kw startup_delay_s : Q)
  : BaseAsset SolarInverter :=
  Asset.__init__ asset_id (mkInverter max_power_kw startup_delay_s max_power_kw 0 25).

Definition set_target_power_kw (target : Q) : M SolarInverter unit :=
  modify (fun v => mkInverter (max_power_kw v) (_startup_delay_s v) target
                              (_current_power_kw v) (_temperature_c v)).

Definition set_current_power_kw (power : Q) : M SolarInverter unit :=
  modify (fun v => mkInverter (max_power_kw v) (_startup_delay_s v) (_target_power_kw v)
                              power (_temperature_c v)).

(** The hooks; [_on_start] sleeps before it sets the target. *)
#[global] Instance Solar_hooks : Hooks SolarInverter := {
  _on_start := (v <- Py.get ;; set_target_power_kw (max_power_kw v))%py;
  _on_stop := (set_current_power_kw 0 ;;; set_target_power_kw 0)%py;
  _on_fault := fun _ => (set_current_power_kw 0 ;;; set_target_power_kw 0)%py
}.

Definition set_output `{EnumFormat} (target_kw : Q) : M (BaseAsset SolarInverter) unit :=
  (a <- Py.get ;;
   if negb (AssetState_eqb (_state a) RUNNING) then
     raise (mkExn RuntimeError ("Cannot set output while in state " +:+ format_state (_state a)))
   else
     hook (set_target_power_kw (max_ 0 (min_ target_kw (max_power_kw (driver a))))))%py.

(** [handle_method] of [register_handlers] *)
Definition handle_method `{EnumFormat} `{Registry.Builtins}
  (request : DirectMethodRequest) : M (BaseAsset SolarInverter) DirectMethodResponse :=
  try_except
    (if String.eqb (name request) "start" then
       start ;;;
       ret (mkResponse (request_id request) 200 [("status", VStr "started")])
     else if String.eqb (name request) "stop" then
       Asset.stop ;;;
       ret (mkResponse (request_id request) 200 [("status", VStr "stopped")])
     else if String.eqb (name request) "set_output" then
       v <- lift (getitem "target_kw" (payload request)) ;;
       target_kw <- lift (Registry.float_ v) ;;
       set_output target_kw ;;;
       ret (mkResponse (request_id request) 200
                       [("status", VStr "ok"); ("target_kw", VFloat target_kw)])
     else if String.eqb (name request) "reset" then
       reset ;;;
       ret (mkResponse (request_id request) 200 [("status", VStr "reset")])
     else
       ret (mkResponse (request_id request) 404
                       [("error", VStr ("Unknown method: " +:+ name request))]))%py
    (fun exc =>
       ret (mkResponse (request_id request) (if is_RuntimeError exc then 409 else 500)
                       [("error", VStr (exn_str exc))])).

End Solar.

(** * The vocabulary of the statements *)

Section AssetVocabulary.
Import Asset.
Context {D : Type}.

(** [fault_code] is set exactly in [FAULT]. *)
Definition fault_code_inv (a : BaseAsset D) : Prop :=
  is_Some (_fault_code a) <-> _state a = FAULT.

End AssetVocabulary.

Section AggregatorVocabulary.
Import Registry Aggregator.
Open Scope Q_scope.
Context `{FloatArith}.

(** The sums of the specification, written over the list of stored power
    values: the strictly positive entries and the absolute values of the
    strictly negative ones, each in the order of the list, and what [sum]
    makes of them. *)
Fixpoint strictly_positive (ps : list Q) : list Q :=
  match ps with
  | [] => []
  | p :: ps' => if Qlt_le_dec 0 p then p :: strictly_positive ps' else strictly_positive ps'
  end.

Fixpoint magnitudes_of_negative (ps : list Q) : list Q :=
  match ps with
  | [] => []
  | p :: ps' =>
      if Qlt_le_dec p 0 then Qabs p :: magnitudes_of_negative ps'
      else magnitudes_of_negative ps'
  end.

Definition positive_total (ps : list Q) : number := sum (strictly_positive ps).

Definition negative_total (ps : list Q) : number := sum (magnitudes_of_negative ps).

(** Generation minus consumption, before any rounding. *)
Definition unrounded_balance (ps : list Q) : number :=
  sub (positive_total ps) (negative_total ps).

Definition powers (registry : Registry.assets) : list Q := map power_kw (map snd registry).

(** The alerts of a list that carry a given code. *)
Definition with_code (c : string) (l : list GridAlert) : list GridAlert :=
  List.filter (fun a => String.eqb (code a) c) l.

(** How many of them are balance alerts. *)
Definition balance_alerts (l : list GridAlert) : nat :=
  length (List.filter (fun a => String.eqb (code a) "GRID_SURPLUS"
                           || String.eqb (code a) "GRID_DEFICIT") l).

(** The registry the unit tests populate: solar 100 kW, battery charging
    at 30 kW, boiler drawing 40 kW. *)
Definition populated : Registry.assets :=
  let solar := [("asset_id", VStr "solar-01"); ("asset_type", VStr "solar_inverter");
                ("state", VStr "RUNNING"); ("power_output_kw", VFloat 100)] in
  let battery := [("asset_id", VStr "battery-01"); ("asset_type", VStr "battery_storage");
                  ("state", VStr "CHARGING"); ("power_kw", VFloat 30)] in
  let boiler := [("asset_id", VStr "boiler-01"); ("asset_type", VStr "industrial_boiler");
                 ("state", VStr "RUNNING"); ("power_kw", VFloat 40)] in
  snd (update "t3" boiler (snd (update "t2" battery (snd (update "t1" solar []))))).

End AggregatorVocabulary.

Section DispatcherVocabulary.
Import Dispatcher.
Context {T : Type} `{BaseEdgeClient T}.
Variables (module_id method_name : string) (payload : pydict) (timeout_s : Z).

(** The client after its first [k] invocations by [send], and what the
    next invocation then does. *)
Fixpoint client_after (k : nat) (c : T) : T :=
  match k with
  | O => c
  | S k' => client_after k' (snd (invoke_method module_id method_name payload timeout_s c))
  end.

Definition outcome (k : nat) (c : T) : res value :=
  fst (invoke_method module_id method_name payload timeout_s (client_after k c)).

(** Invocation number [k] (from 0) fails: it raises an [Exception]. *)
Definition fails (k : nat) (c : T) : Prop :=
  exists e, outcome k c = Raise e /\ is_Exception e = true.

End DispatcherVocabulary.

Section AwaitedVocabulary.
Import Dispatcher.

(** [n] failed attempts at [call], each followed by the retry delay. *)
Fixpoint retried (call : awaited) (n : nat) : list awaited :=
  match n with
  | O => []
  | S n' => call :: Sleep RETRY_DELAY_S :: retried call n'
  end.

Definition invocations (l : list awaited) : nat :=
  length (List.filter (fun a => match a with Invoke _ _ _ _ => true | Sleep _ => false end) l).

End AwaitedVocabulary.

Section ClientVocabulary.
Import Client.
Context {H : Type} `{Formatter}.

(** The correlation id a message carries when it is a method response:
    what [_dispatch] reads off its topic. *)
Definition response_id (topic : string) : option string :=
  after_last "/methods/response/" topic.

(** The string has no ["/"] in it. *)
Fixpoint no_slash (s : string) : bool :=
  match s with
  | EmptyString => true
  | String c s' => negb (Ascii.eqb c "/"%char) && no_slash s'
  end.

(** Every future that [_pending] refers to exists. *)
Definition bounded (c : LocalMqttEdgeClient H) : Prop :=
  forall rid f, _pending c !! rid = Some f -> (f < length (futures c))%nat.

(** The future of call [k] is registered under the request id of [k] only. *)
Definition owns (k : call) (c : LocalMqttEdgeClient H) : Prop :=
  forall rid, _pending c !! rid = Some (call_future k) -> rid = call_request_id k.

(** A suspended call whose future nothing has touched. *)
Definition waiting (k : call) (c : LocalMqttEdgeClient H) : Prop :=
  owns k c /\ futures c !! call_future k = Some Pending.

(** Call [k] is outstanding: [_pending] holds its future under its request
    id and under no other, and the future is not done. *)
Definition outstanding (k : call) (c : LocalMqttEdgeClient H) : Prop :=
  _pending c !! call_request_id k = Some (call_future k) /\ waiting k c.

(** The call that [invoke_method_begin] creates. *)
Definition issued (stamp method_name : string) (c : LocalMqttEdgeClient H) : call :=
  mkCall (method_name +:+ "-" +:+ stamp) (length (futures c)).

(** What else happens on the client while a call is suspended. *)
Inductive activity : Type :=
| Delivered (m : message)
| Began (stamp target_module_id method_name : string) (payload : pydict)
| Resumed (k : call) (target_module_id method_name : string) (timeout_s : Z).

Definition act (a : activity) (w : world H) : world H :=
  match a with
  | Delivered m => snd (deliver m w)
  | Began stamp target method payload => snd (invoke_method_begin stamp target method payload w)
  | Resumed k target method timeout_s => snd (invoke_method_end k target method timeout_s w)
  end.

Definition acts (l : list activity) (w : world H) : world H :=
  fold_left (fun w a => act a w) l w.

(** The activity leaves call [k] alone: it is neither the delivery of a
    response to [k] nor the resumption of [k]. *)
Definition apart (k : call) (a : activity) : Prop :=
  match a with
  | Delivered m => response_id (topic m) <> Some (call_request_id k)
  | Began _ _ _ _ => True
  | Resumed k' _ _ _ => call_future k' <> call_future k
  end.

End ClientVocabulary.

(** * The vocabulary of the transport, the registry and the drivers *)

Section TopicVocabulary.
Import Client.

(** How many ["/"] a string has. *)
Fixpoint slashes (s : string) : nat :=
  match s with
  | EmptyString => O
  | String c s' => (if Ascii.eqb c "/"%char then 1 else 0) + slashes s'
  end.


(** [f"edge/{module_id}/outputs/{output_name}"], the topic of
    [send_message_to_output]. *)
Definition output_topic (module_id output_name : string) : string :=
  "edge/" +:+ module_id +:+ "/outputs/" +:+ output_name.

(** What [invoke_method] publishes as payload. *)
Definition outgoing (request_id : string) (payload : pydict) : pydict :=
  dict_set "_request_id" (VStr request_id) payload.

End TopicVocabulary.

Section TransportVocabulary.
Import Client.
Context {H : Type} `{Formatter}.

(** The deliveries that [invoke_method] sees while it is suspended. *)
Definition deliver_all (l : list message) : M (world H) unit :=
  fold_right (fun m rest => bind (deliver m) (fun _ => rest)) (ret tt) l.


End TransportVocabulary.

Section RegistryVocabulary.
Import Registry.
Context `{Builtins}.

(** The registry after a run of telemetry dicts, each with the clock
    reading of its [update]. *)
Definition feed (telemetry : list (string * pydict)) (d : assets) : assets :=
  fold_left (fun d m => snd (update (fst m) (snd m) d)) telemetry d.

(** No key of the registry equals a later one. *)
Fixpoint distinct_keys (d : assets) : Prop :=
  match d with
  | [] => True
  | (k, _) :: d' => getitem k d' = None /\ distinct_keys d'
  end.

(** Every key is a truthy hashable value and equals the [asset_id] of
    the snapshot stored under it. *)
Definition keyed (d : assets) : Prop :=
  Forall (fun e => truthy (fst e) = true /\ hashable (fst e) = true /\
                   key_eqb (fst e) (asset_id (snd e)) = true) d.

End RegistryVocabulary.

Section AssetMoreVocabulary.
Import Asset.
Context {D : Type} `{Hooks D}.

(** The hooks return normally, whatever the driver's fields. *)
Definition hooks_return : Prop :=
  (forall d, fst (_on_start d) = Ok tt) /\
  (forall d, fst (_on_stop d) = Ok tt) /\
  (forall code d, fst (_on_fault code d) = Ok tt).

Definition is_fault (o : op) : bool :=
  match o with
  | Fault _ => true
  | _ => false
  end.

(** The state machine of the class docstring, with [start] and [stop]
    taken in one step. *)
Definition transition (o : op) (s : AssetState) : AssetState :=
  match o, s with
  | Start, IDLE => RUNNING
  | Stop, (RUNNING | STARTING) => IDLE
  | Fault _, _ => FAULT
  | Reset, FAULT => IDLE
  | _, _ => s
  end.

End AssetMoreVocabulary.

(** A driver whose stop hook fails. *)
Definition stuck_valve : Asset.Hooks unit := {|
  Asset._on_start := ret tt;
  Asset._on_stop := raise (mkExn OtherException "valve stuck");
  Asset._on_fault := fun _ => ret tt
|}.

Section AggregatorMoreVocabulary.
Import Registry Aggregator.

(** The snapshots whose state is ["FAULT"]. *)
Definition faulted (snapshots : list AssetSnapshot) : list AssetSnapshot :=
  List.filter (fun s => eq_str (state s) "FAULT") snapshots.

Definition fault_alert (s : AssetSnapshot) : GridAlert :=
  mkAlert "critical" "ASSET_FAULT" (AssetInFault (asset_id s) (asset_type s)) (asset_id s).

End AggregatorMoreVocabulary.

Section ControllerVocabulary.
Import Aggregator Dispatcher Interp.

(** What balancing may await for a list of alerts and a capped power:
    retry delays, a charge command when the list has a surplus alert, a
    discharge command when it has a deficit alert. *)
Definition balancing_await (battery_module_id : string) (power_kw : number)
  (found : list GridAlert) (x : awaited) : Prop :=
  x = Sleep RETRY_DELAY_S \/
  (x = Invoke battery_module_id "start_charging" [("power_kw", Controller.number_value power_kw)]
              DEFAULT_TIMEOUT_S
   /\ with_code "GRID_SURPLUS" found <> []) \/
  (x = Invoke battery_module_id "start_discharging" [("power_kw", Controller.number_value power_kw)]
              DEFAULT_TIMEOUT_S
   /\ with_code "GRID_DEFICIT" found <> []).

(** A computation returned, or was cancelled. *)
Definition returned_or_cancelled {A} (r : res A) : Prop :=
  match r with
  | Ok _ => True
  | Raise e => is_Exception e = false
  end.

End ControllerVocabulary.

Section BoilerVocabulary.
Import Asset BoilerDriver.
Open Scope Q_scope.

(** The setpoint is in the safe range, and a boiler that is not running
    draws no power. *)
Definition safe (a : BaseAsset Boiler) : Prop :=
  (40 <= _target_temp_c (driver a) /\ _target_temp_c (driver a) <= 120) /\
  (_state a <> RUNNING -> _power_kw (driver a) == 0).

End BoilerVocabulary.

Section SolarVocabulary.
Import Asset Solar.
Open Scope Q_scope.

(** The target is between zero and the rating. *)
Definition in_range (a : BaseAsset SolarInverter) : Prop :=
  0 <= max_power_kw (driver a) /\
  (0 <= _target_power_kw (driver a) /\ _target_power_kw (driver a) <= max_power_kw (driver a)).

End SolarVocabulary.

(** The status of an answer, against what the request was. *)
Ltac settle :=
  simpl;
  first
    [ discriminate
    | solve [intros; reflexivity]
    | solve [intros _; split; [auto | eauto]]
    | solve [intros _ [?|[?|[?|?]]]; congruence]
    | solve [let Hk := fresh in intros Hk; exfalso; apply Hk; auto]
    | solve [intros [_ [? ?]]; discriminate]
    | solve [intros [[?|?] _]; congruence] ].

Ltac answer :=
  eexists _, _; split; [reflexivity|]; simpl; split; [reflexivity|];
  split; [first [now left | right; split; [auto | reflexivity]]|];
  split; split; settle.

(** * Properties of the asset life cycle *)

Section AssetProps.
Import Asset.
Context {D : Type} `{Hooks D}.

Lemma AssetState_eqb_eq s t : AssetState_eqb s t = true <-> s = t.
Proof. destruct s, t; simpl; split; congruence. Qed.

Lemma init_inv (id : string) (d : D) : fault_code_inv (__init__ id d).
Proof.
  unfold fault_code_inv; simpl; split; [intros [c Hc] | intros Hs]; discriminate.
Qed.

Lemma start_state (a : BaseAsset D) :
  _fault_code (snd (start a)) = _fault_code a /\
  (_state a = IDLE /\ (_state (snd (start a)) = STARTING \/ _state (snd (start a)) = RUNNING)
   \/ _state a <> IDLE /\ snd (start a) = a).
Proof.
  unfold start, start_enter, start_resume, bind, get; simpl.
  destruct a as [i s c d]; destruct s; simpl; auto;
    unfold hook; simpl; destruct (_on_start d) as [[[]|e] d']; simpl;
    (split; [reflexivity | left; auto]).
Qed.

Lemma stop_state (a : BaseAsset D) :
  _fault_code (snd (stop a)) = _fault_code a /\
  ((_state a = RUNNING \/ _state a = STARTING) /\
   (_state (snd (stop a)) = STOPPING \/ _state (snd (stop a)) = IDLE)
   \/ (_state a <> RUNNING /\ _state a <> STARTING) /\ snd (stop a) = a).
Proof.
  unfold stop, bind, get; simpl.
  destruct a as [i s c d]; destruct s; simpl;
    try (split; [reflexivity | right; repeat split; congruence]);
    unfold hook; simpl; destruct (_on_stop d) as [[[]|e] d']; simpl;
    (split; [reflexivity | left; auto]).
Qed.

Lemma fault_state code (a : BaseAsset D) :
  _state (snd (fault code a)) = FAULT /\ _fault_code (snd (fault code a)) = Some code.
Proof.
  unfold fault, bind; simpl. unfold hook; simpl.
  destruct (_on_fault code (driver a)) as [[[]|e] d']; simpl; auto.
Qed.

Lemma reset_state (a : BaseAsset D) :
  fst (reset a) = Ok tt /\
  (_state a = FAULT /\ _state (snd (reset a)) = IDLE /\ _fault_code (snd (reset a)) = None
   \/ _state a <> FAULT /\ snd (reset a) = a).
Proof.
  unfold reset, bind, get; simpl.
  destruct a as [i s c d]; destruct s; simpl; split; auto; right; split; congruence.
Qed.

Lemma call_inv o (a : BaseAsset D) : fault_code_inv a -> fault_code_inv (snd (call o a)).
Proof.
  unfold fault_code_inv; intros Ha; destruct o as [| |code|]; simpl.
  - destruct (start_state a) as [Hc [[Hi Hs] | [Hn ->]]]; [|exact Ha].
    rewrite Hc. split.
    + intros Hsome. apply Ha in Hsome. congruence.
    + intros Hf. destruct Hs; congruence.
  - destruct (stop_state a) as [Hc [[Hi Hs] | [Hn ->]]]; [|exact Ha].
    rewrite Hc. split.
    + intros Hsome. apply Ha in Hsome. destruct Hi; congruence.
    + intros Hf. destruct Hs; congruence.
  - destruct (fault_state code a) as [-> ->]. split; eauto.
  - destruct (reset_state a) as [_ [(Hf & -> & ->) | [Hn ->]]]; [|exact Ha].
    split; [intros [c Hc] | intros Hs]; discriminate.
Qed.

Lemma run_inv ops : forall a : BaseAsset D, fault_code_inv a -> fault_code_inv (run ops a).
Proof.
  induction ops as [|o ops IH]; intros a Ha; simpl; [exact Ha|].
  apply IH, call_inv, Ha.
Qed.

(** X18.  The four methods of [BaseAsset] itself and its own
    [_state].  Starting from a fresh instance ([IDLE], no fault
    code), after any sequence of [start], [stop], [fault] and [reset]
    calls, each run to its end before the next, whatever the hooks do to
    the driver and whether or not they raise: the fault code is present
    exactly when [_state] is [FAULT]; a further [fault code] enters
    [FAULT] and records [code]; and [reset] right after it returns
    normally and gives back [IDLE] with the fault code cleared. *)
Theorem fault_code_present_iff_fault (id : string) (d : D) (ops : list op) :
  let a := run ops (__init__ id d) in
  (is_Some (_fault_code a) <-> _state a = FAULT) /\
  (forall code,
      let a1 := snd (fault code a) in
      _state a1 = FAULT /\ _fault_code a1 = Some code /\
      fst (reset a1) = Ok tt /\
      _state (snd (reset a1)) = IDLE /\ _fault_code (snd (reset a1)) = None).
Proof.
  intros a. split.
  - apply (run_inv ops), init_inv.
  - intros code a1. destruct (fault_state code a) as [Hs Hc]. fold a1 in Hs, Hc.
    destruct (reset_state a1) as [Hr [(_ & Hs' & Hc') | [Hn _]]]; [auto | congruence].
Qed.

(** X19.  In [FAULT], [start()] returns normally and leaves the whole instance
    as it was ([_state], fault code and driver fields: the start hook is
    not run); and of the four methods of [BaseAsset] itself, each run to
    its end, only [reset] takes [_state] out of [FAULT]. *)
Theorem start_in_fault_is_noop (a : BaseAsset D) :
  _state a = FAULT ->
  start a = (Ok tt, a) /\
  (forall o, _state (snd (call o a)) <> FAULT -> o = Reset).
Proof.
  intros Hf. split.
  - unfold start, start_enter, bind, get; simpl. rewrite Hf; reflexivity.
  - intros o Hleave. destruct o as [| |code|]; [| | |reflexivity]; exfalso; apply Hleave; simpl.
    + destruct (start_state a) as [_ [[Hi _] | [_ ->]]]; congruence.
    + destruct (stop_state a) as [_ [[[Hi|Hi] _] | [_ ->]]]; congruence.
    + apply fault_state.
Qed.

End AssetProps.

(** * The state machine on the drivers of the repository *)

Section AssetOverrides.
Import Asset Interp.
Import Battery.

(** C8.  The invariant does not hold on the code.  On a battery, whose
    class overrides [state] and [stop]: after [fault(code)] and
    [reset()] the state is still [FAULT] while the fault code is [None],
    and after [fault(code)] and [stop()] the state is [IDLE] while the
    fault code is still [code].  On any asset, here a boiler: [fault]
    does not take the lock that [start] holds, so a fault that comes
    while [start()] is suspended in its hook is followed by the rest of
    [start()], which sets [RUNNING] and leaves the fault code in
    place. *)
Theorem fault_code_and_state_disagree
  (id code : string) (capacity max_power initial_soc startup_delay_s : Q) :
  let battery := Battery.__init__ id capacity max_power initial_soc startup_delay_s in
  let after_reset := snd (reset (snd (fault code battery))) in
  let after_stop := snd (hook Battery.stop (snd (fault code battery))) in
  let boiler := Boiler__init__ id in
  let raced := snd (start_resume (snd (fault code (snd (start_enter boiler))))) in
  (fst (reset (snd (fault code battery))) = Ok tt /\
   Battery.state after_reset = of_asset FAULT /\ _fault_code after_reset = None) /\
  (fst (hook Battery.stop (snd (fault code battery))) = Ok tt /\
   Battery.state after_stop = of_asset IDLE /\ _fault_code after_stop = Some code) /\
  (start_enter boiler = (Ok true, snd (start_enter boiler)) /\
   _state (snd (fault code (snd (start_enter boiler)))) = FAULT /\
   _state raced = RUNNING /\ _fault_code raced = Some code).
Proof. repeat split. Qed.

(** C10.  On a faulted asset [start()] returns normally and changes
    nothing, but [reset()] is not the only way out of [FAULT].  On a
    battery [stop()] takes the state from [FAULT] to [IDLE]; after
    [reset()], which leaves the battery's state at [FAULT], [start()] is
    no no-op: it takes the state to [RUNNING]; and on any asset, here a
    boiler, a [start()] that was suspended in its hook when the fault
    came sets [RUNNING] when it resumes. *)
Theorem fault_is_left_without_reset
  (id code : string) (capacity max_power initial_soc startup_delay_s : Q) :
  let battery :=
    snd (fault code (Battery.__init__ id capacity max_power initial_soc startup_delay_s)) in
  let boiler := snd (fault code (snd (start_enter (Boiler__init__ id)))) in
  (Battery.state battery = of_asset FAULT /\
   start battery = (Ok tt, battery) /\
   Battery.state (snd (hook Battery.stop battery)) = of_asset IDLE) /\
  (Battery.state (snd (reset battery)) = of_asset FAULT /\
   fst (start (snd (reset battery))) = Ok tt /\
   Battery.state (snd (start (snd (reset battery)))) = of_asset RUNNING) /\
  (_state boiler = FAULT /\
   fst (start_resume boiler) = Ok tt /\
   _state (snd (start_resume boiler)) = RUNNING).
Proof. repeat split. Qed.

End AssetOverrides.

(** A boiler that was started and then faulted on over-pressure. *)
Lemma start_in_fault_is_noop_witness :
  let a := Asset.run [Asset.Start; Asset.Fault "OVER_PRESSURE"] (Asset.Boiler__init__ "boiler-01") in
  Asset._state a = Asset.FAULT /\
  Asset.start a = (Ok tt, a) /\
  (forall o, Asset._state (snd (Asset.call o a)) <> Asset.FAULT -> o = Asset.Reset).
Proof.
  intros a. split; [reflexivity|].
  apply (start_in_fault_is_noop a). reflexivity.
Defined.

(** * Properties of the registry *)

Section RegistryProps.
Import Registry.
Context `{Builtins}.

Lemma key_eqb_refl k : hashable k = true -> key_eqb k k = true.
Proof.
  destruct k as [|b|z|q|s|l|d]; simpl; intros Hk; try discriminate; try reflexivity;
    try (apply Qeq_bool_iff; reflexivity).
  apply String.eqb_refl.
Qed.

Lemma getitem_setitem k v d : key_eqb k k = true -> getitem k (setitem k v d) = Some v.
Proof.
  intros Hk. induction d as [|[k' v'] d IH]; simpl.
  - rewrite Hk; reflexivity.
  - destruct (key_eqb k' k) eqn:E; simpl; rewrite E; [reflexivity | exact IH].
Qed.

Lemma setitem_setitem k v w d :
  key_eqb k k = true -> setitem k w (setitem k v d) = setitem k w d.
Proof.
  intros Hk. induction d as [|[k' v'] d IH]; simpl.
  - rewrite Hk; reflexivity.
  - destruct (key_eqb k' k) eqn:E; simpl; rewrite E; [reflexivity | now rewrite IH].
Qed.

Lemma length_setitem_setitem k v w d :
  key_eqb k k = true -> length (setitem k w (setitem k v d)) = length (setitem k v d).
Proof.
  intros Hk. rewrite setitem_setitem by exact Hk.
  induction d as [|[k' v'] d IH]; simpl; [reflexivity|].
  destruct (key_eqb k' k); simpl; [reflexivity | now rewrite IH].
Qed.

(** What a call of [update] that stores something stores, and where. *)
Lemma update_stores now data d d' :
  truthy (dict_get "asset_id" VNone data) = true ->
  update now data d = (Ok tt, d') ->
  exists power,
    _extract_power_kw data = Ok power /\
    hashable (dict_get "asset_id" VNone data) = true /\
    d' = setitem (dict_get "asset_id" VNone data)
                 (mkSnapshot (dict_get "asset_id" VNone data)
                             (dict_get "asset_type" (VStr "unknown") data)
                             (dict_get "state" (VStr "UNKNOWN") data)
                             power
                             (dict_get "timestamp" (VStr now) data)
                             data) d.
Proof.
  intros Hid. unfold update. rewrite Hid; simpl.
  destruct (_extract_power_kw data) as [power|e]; [|discriminate].
  destruct (hashable (dict_get "asset_id" VNone data)) eqn:Hh; [|discriminate].
  unfold modify. intros [= <-]. exists power; auto.
Qed.

(** C6.  When [update] stores a snapshot for a telemetry dict (the asset id
    is truthy and the call returns normally), the snapshot found under
    that asset id holds: for a [solar_inverter] the value of
    [power_output_kw] as [float] reads it, unchanged; for a
    [battery_storage] or an [industrial_boiler] the value of [power_kw]
    as [float] reads it, negated.  An absent field counts as [0.0]. *)
Theorem update_normalises_power_sign (now : string) (data : pydict) (d d' : assets) :
  truthy (dict_get "asset_id" VNone data) = true ->
  update now data d = (Ok tt, d') ->
  exists s,
    getitem (dict_get "asset_id" VNone data) d' = Some s /\
    (eq_str (dict_get "asset_type" (VStr "") data) "solar_inverter" = true ->
     float_ (dict_get "power_output_kw" (VFloat 0) data) = Ok (power_kw s)) /\
    (eq_str (dict_get "asset_type" (VStr "") data) "battery_storage" = true \/
     eq_str (dict_get "asset_type" (VStr "") data) "industrial_boiler" = true ->
     exists q, float_ (dict_get "power_kw" (VFloat 0) data) = Ok q /\ power_kw s = (- q)%Q).
Proof.
  intros Hid Hup. destruct (update_stores _ _ _ _ Hid Hup) as (power & Hp & Hh & ->).
  eexists; split; [apply getitem_setitem, key_eqb_refl, Hh|]. simpl.
  unfold _extract_power_kw in Hp. split.
  - intros Hs. rewrite Hs in Hp. exact Hp.
  - intros Ht.
    assert (Hneg : fmap_res Qopp (float_ (dict_get "power_kw" (VFloat 0) data)) = Ok power).
    { destruct (dict_get "asset_type" (VStr "") data) as [| | | |t| |]; simpl in Ht;
        try (destruct Ht; discriminate).
      simpl in Hp. destruct Ht as [Ht|Ht].
      - apply String.eqb_eq in Ht; subst t. exact Hp.
      - apply String.eqb_eq in Ht; subst t. exact Hp. }
    destruct (float_ (dict_get "power_kw" (VFloat 0) data)) as [q|e]; [|discriminate].
    injection Hneg as <-. exists q; auto.
Qed.

(** C7, the part that holds for every dict and every pair of clock
    readings: a second [update] with the same dict leaves the number of
    entries as the first left it, and the snapshot it stores differs from
    the first one in [last_seen] at most; when the dict has a [timestamp]
    entry, or the clock reads the same both times, the registry after the
    second call is the registry after the first. *)
Theorem update_twice_same_dict (now1 now2 : string) (data : pydict) (d : assets) :
  let d1 := snd (update now1 data d) in
  let d2 := snd (update now2 data d1) in
  length d2 = length d1 /\
  (forall s1 s2,
      getitem (dict_get "asset_id" VNone data) d1 = Some s1 ->
      getitem (dict_get "asset_id" VNone data) d2 = Some s2 ->
      asset_id s2 = asset_id s1 /\ asset_type s2 = asset_type s1 /\
      state s2 = state s1 /\ power_kw s2 = power_kw s1 /\ raw s2 = raw s1) /\
  (is_Some (dict_lookup "timestamp" data) \/ now1 = now2 -> d2 = d1).
Proof.
  intros d1 d2. subst d1 d2. unfold update.
  assert (Hskip : length d = length d /\
    (forall s1 s2,
      getitem (dict_get "asset_id" VNone data) d = Some s1 ->
      getitem (dict_get "asset_id" VNone data) d = Some s2 ->
      asset_id s2 = asset_id s1 /\ asset_type s2 = asset_type s1 /\
      state s2 = state s1 /\ power_kw s2 = power_kw s1 /\ raw s2 = raw s1) /\
    (is_Some (dict_lookup "timestamp" data) \/ now1 = now2 -> d = d)).
  { split; [reflexivity|]. split; [|reflexivity].
    intros s1 s2 Hs1 Hs2. rewrite Hs1 in Hs2. injection Hs2 as <-. auto. }
  destruct (truthy (dict_get "asset_id" VNone data)) eqn:Hid; simpl; [|exact Hskip].
  destruct (_extract_power_kw data) as [power|e]; simpl; [|exact Hskip].
  destruct (hashable (dict_get "asset_id" VNone data)) eqn:Hh; simpl; [|exact Hskip].
  clear Hskip.
  pose proof (key_eqb_refl _ Hh) as Hk.
  split; [apply length_setitem_setitem, Hk|]. split.
  - intros s1 s2. rewrite setitem_setitem by exact Hk.
    rewrite !getitem_setitem by exact Hk. intros [= <-] [= <-]. simpl. auto.
  - intros Hsame. rewrite setitem_setitem by exact Hk.
    replace (dict_get "timestamp" (VStr now2) data)
      with (dict_get "timestamp" (VStr now1) data); [reflexivity|].
    unfold dict_get. destruct Hsame as [[v Hv] | ->]; [rewrite Hv|]; reflexivity.
Qed.

End RegistryProps.

(** A battery charging at 30 kW is stored with -30 kW. *)
Lemma update_normalises_power_sign_witness :
  let data := [("asset_id", VStr "battery-01"); ("asset_type", VStr "battery_storage");
               ("state", VStr "CHARGING"); ("power_kw", VFloat 30);
               ("timestamp", VStr "2024-01-01T12:00:00Z")] in
  exists s,
    Registry.getitem (VStr "battery-01") (snd (Registry.update "now" data [])) = Some s /\
    Registry.power_kw s = (- 30)%Q.
Proof.
  intros data.
  destruct (update_normalises_power_sign "now" data [] (snd (Registry.update "now" data [])))
    as (s & Hs & _ & Hneg); [reflexivity | reflexivity |].
  exists s. split; [exact Hs|].
  destruct Hneg as (q & Hq & ->); [left; reflexivity|].
  simpl in Hq. injection Hq as <-. reflexivity.
Defined.

(** C7 as stated fails: a dict without [timestamp] is stamped with the
    clock reading of each call, so the snapshot stored by the second call
    is not the one stored by the first. *)
Lemma update_twice_restamps :
  let data := [("asset_id", VStr "solar-01"); ("asset_type", VStr "solar_inverter");
               ("state", VStr "RUNNING"); ("power_output_kw", VFloat 50)] in
  let d1 := snd (Registry.update "2024-01-01T12:00:00+00:00" data []) in
  let d2 := snd (Registry.update "2024-01-01T12:00:10+00:00" data d1) in
  Registry.getitem (VStr "solar-01") d2 <> Registry.getitem (VStr "solar-01") d1.
Proof. intros data d1 d2. vm_compute. discriminate. Qed.

(** With a [timestamp] in the dict the second update changes nothing,
    whatever the clock reads. *)
Lemma update_twice_same_dict_witness :
  let data := [("asset_id", VStr "solar-01"); ("asset_type", VStr "solar_inverter");
               ("state", VStr "RUNNING"); ("power_output_kw", VFloat 50);
               ("timestamp", VStr "2024-01-01T12:00:00Z")] in
  let d1 := snd (Registry.update "2024-01-01T12:00:00+00:00" data []) in
  let d2 := snd (Registry.update "2024-01-01T12:00:10+00:00" data d1) in
  d2 = d1.
Proof.
  intros data d1 d2.
  apply (update_twice_same_dict "2024-01-01T12:00:00+00:00" "2024-01-01T12:00:10+00:00" data []).
  left. vm_compute. eauto.
Defined.

(** * Properties of the aggregator *)

Section AggregatorProps.
Import Registry Aggregator.
Open Scope Q_scope.
Context `{FloatArith}.
#[local] Arguments String.eqb : simpl never.

Lemma gt_spec x y : gt x y = true <-> y < x.
Proof.
  unfold gt. rewrite Qgt_alt. destruct (x ?= y); split; congruence.
Qed.

Lemma lt_spec x y : lt x y = true <-> x < y.
Proof.
  unfold lt. rewrite Qlt_alt. destruct (x ?= y); split; congruence.
Qed.

Lemma gt_false x y : gt x y = false <-> x <= y.
Proof.
  rewrite <- Bool.not_true_iff_false, gt_spec. split; [apply Qnot_lt_le | apply Qle_not_lt].
Qed.

Lemma lt_false x y : lt x y = false <-> y <= x.
Proof.
  rewrite <- Bool.not_true_iff_false, lt_spec. split; [apply Qnot_lt_le | apply Qle_not_lt].
Qed.

Lemma generation_list (snaps : list AssetSnapshot) :
  map power_kw (List.filter (fun s => gt (power_kw s) 0) snaps)
  = strictly_positive (map power_kw snaps).
Proof.
  induction snaps as [|s snaps IH]; simpl; [reflexivity|].
  destruct (Qlt_le_dec 0 (power_kw s)) as [Hp|Hp].
  - apply gt_spec in Hp. rewrite Hp. simpl. now rewrite IH.
  - apply gt_false in Hp. now rewrite Hp.
Qed.

Lemma consumption_list (snaps : list AssetSnapshot) :
  map (fun s => Qabs (power_kw s)) (List.filter (fun s => lt (power_kw s) 0) snaps)
  = magnitudes_of_negative (map power_kw snaps).
Proof.
  induction snaps as [|s snaps IH]; simpl; [reflexivity|].
  destruct (Qlt_le_dec (power_kw s) 0) as [Hp|Hp].
  - apply lt_spec in Hp. rewrite Hp. simpl. now rewrite IH.
  - apply lt_false in Hp. now rewrite Hp.
Qed.

(** The balance that [compute] hands to [_check_alerts] is the one
    before rounding. *)
Lemma compute_alerts (self : Aggregator) (now : string) (registry : Registry.assets) :
  alerts (compute self now registry)
  = _check_alerts self (map snd registry) (unrounded_balance (powers registry)).
Proof.
  unfold compute, unrounded_balance, positive_total, negative_total, powers; simpl.
  now rewrite generation_list, consumption_list.
Qed.

(** C4, as the code has it.  For every registry and whatever the float
    arithmetic of the interpreter, [compute] reports what [sum] makes of
    the strictly positive stored powers, what it makes of the absolute
    values of the strictly negative ones, and the float difference of
    these two sums, each rounded by [round(_, 2)], and the number of
    snapshots.  On doubles, with either summation of CPython, the stored
    powers +100, -30, -40 give the three figures 100, 70 and 30; for the
    empty registry the three figures are the int 0. *)
Theorem compute_totals (self : Aggregator) (now : string) (registry : Registry.assets) :
  let t := compute self now registry in
  total_generation_kw t = round_ (positive_total (powers registry)) 2 /\
  total_consumption_kw t = round_ (negative_total (powers registry)) 2 /\
  grid_balance_kw t = round_ (unrounded_balance (powers registry)) 2 /\
  asset_count t = Z.of_nat (length registry) /\
  (forall s,
      let t3 := compute (H := Binary64.arith s) self now populated in
      powers populated = [100; -30; -40] /\
      value_of (total_generation_kw t3) == 100 /\
      value_of (total_consumption_kw t3) == 70 /\
      value_of (grid_balance_kw t3) == 30) /\
  (let t0 := compute self now [] in
   total_generation_kw t0 = Int 0 /\ total_consumption_kw t0 = Int 0 /\
   grid_balance_kw t0 = Int 0).
Proof.
  intros t. unfold t, compute, unrounded_balance, positive_total, negative_total, powers; simpl.
  rewrite generation_list, consumption_list.
  repeat split; try reflexivity.
  - now rewrite length_map.
  - destruct s; reflexivity.
  - destruct s; reflexivity.
  - destruct s; reflexivity.
Qed.

(** C4 as stated fails: the reported generation is the rounded sum.  One
    inverter delivering 0.0625 kW, which is a double: the sum is 0.0625
    and the reported generation is the double nearest to 0.06, with
    either summation. *)
Lemma compute_generation_is_rounded :
  let data := [("asset_id", VStr "solar-01"); ("asset_type", VStr "solar_inverter");
               ("state", VStr "RUNNING"); ("power_output_kw", VFloat 0.0625)] in
  let registry := snd (update "t1" data []) in
  let t := fun s => compute (H := Binary64.arith s) (mkAggregator "edge-device-01" 10) "t2"
                            registry in
  let total := fun s => positive_total (H := Binary64.arith s) (powers registry) in
  powers registry = [0.0625] /\
  total Binary64.Plain = Float 0.0625 /\ total Binary64.Compensated = Float 0.0625 /\
  total_generation_kw (t Binary64.Plain) = Float (Binary64.nearest 0.06) /\
  total_generation_kw (t Binary64.Compensated) = Float (Binary64.nearest 0.06) /\
  ~ value_of (total_generation_kw (t Binary64.Plain)) == value_of (total Binary64.Plain) /\
  ~ value_of (total_generation_kw (t Binary64.Compensated))
    == value_of (total Binary64.Compensated).
Proof.
  intros data registry t total.
  repeat split; try reflexivity; vm_compute; discriminate.
Qed.

Lemma with_code_app c l1 l2 : with_code c (l1 ++ l2) = with_code c l1 ++ with_code c l2.
Proof. apply List.filter_app. Qed.

Lemma with_code_fault_alerts c snaps :
  c <> "ASSET_FAULT" -> with_code c (fault_alerts snaps) = [].
Proof.
  intros Hc. induction snaps as [|s snaps IH]; simpl; [reflexivity|].
  unfold with_code in *. rewrite List.filter_app, IH, app_nil_r.
  destruct (eq_str (state s) "FAULT"); simpl; [|reflexivity].
  destruct (String.eqb_spec "ASSET_FAULT" c) as [E|_]; [congruence | reflexivity].
Qed.

Lemma balance_alerts_fault_alerts snaps : balance_alerts (fault_alerts snaps) = 0%nat.
Proof.
  unfold balance_alerts. induction snaps as [|s snaps IH]; simpl; [reflexivity|].
  rewrite List.filter_app, length_app, IH.
  destruct (eq_str (state s) "FAULT"); reflexivity.
Qed.

(** Which balance alerts [_check_alerts] emits, for every threshold. *)
Lemma check_alerts_codes (self : Aggregator) (snaps : list AssetSnapshot) (balance : number) :
  map severity (with_code "GRID_SURPLUS" (_check_alerts self snaps balance))
    = (if Qlt_le_dec (surplus_threshold_kw self) (value_of balance) then ["warning"] else []) /\
  map severity (with_code "GRID_DEFICIT" (_check_alerts self snaps balance))
    = (if Qlt_le_dec (value_of balance) (- surplus_threshold_kw self)
       then ["warning"] else []) /\
  balance_alerts (_check_alerts self snaps balance)
    = ((if Qlt_le_dec (surplus_threshold_kw self) (value_of balance) then 1 else 0)
       + (if Qlt_le_dec (value_of balance) (- surplus_threshold_kw self) then 1 else 0))%nat.
Proof.
  unfold _check_alerts.
  destruct (Qlt_le_dec (surplus_threshold_kw self) (value_of balance)) as [Hs|Hs];
    [rewrite (proj2 (gt_spec _ _) Hs) | rewrite (proj2 (gt_false _ _) Hs)];
    (destruct (Qlt_le_dec (value_of balance) (- surplus_threshold_kw self)) as [Hd|Hd];
     [rewrite (proj2 (lt_spec _ _) Hd) | rewrite (proj2 (lt_false _ _) Hd)]);
    unfold balance_alerts;
    rewrite ?with_code_app, ?List.filter_app, ?length_app, ?with_code_fault_alerts by discriminate;
    fold (balance_alerts (fault_alerts snaps)); rewrite balance_alerts_fault_alerts;
    repeat split; reflexivity.
Qed.

(** C5, as the code has it.  The balance that is compared is generation
    minus consumption before rounding, and the comparisons are strict for
    every threshold and every registry: among the alerts of [compute]
    there is one [GRID_SURPLUS] warning when that balance is above the
    threshold and none otherwise, one [GRID_DEFICIT] warning when it is
    below minus the threshold and none otherwise, and no balance alert
    besides.  For a threshold that is not negative, a balance equal to the
    threshold raises no balance alert, and the empty registry gives
    balance 0 and no alert. *)
Theorem balance_alerts_are_strict
  (self : Aggregator) (now : string) (registry : Registry.assets) :
  let found := alerts (compute self now registry) in
  let threshold := surplus_threshold_kw self in
  let balance := value_of (unrounded_balance (powers registry)) in
  map severity (with_code "GRID_SURPLUS" found)
    = (if Qlt_le_dec threshold balance then ["warning"] else []) /\
  map severity (with_code "GRID_DEFICIT" found)
    = (if Qlt_le_dec balance (- threshold) then ["warning"] else []) /\
  balance_alerts found
    = ((if Qlt_le_dec threshold balance then 1 else 0)
       + (if Qlt_le_dec balance (- threshold) then 1 else 0))%nat /\
  (0 <= threshold -> balance == threshold -> balance_alerts found = 0%nat) /\
  (0 <= threshold ->
   let t0 := compute self now [] in grid_balance_kw t0 = Int 0 /\ alerts t0 = []).
Proof.
  intros found threshold balance. unfold found. rewrite compute_alerts.
  destruct (check_alerts_codes self (map snd registry) (unrounded_balance (powers registry)))
    as (Hs & Hd & Hb).
  fold threshold balance in Hs, Hd, Hb.
  split; [exact Hs|]. split; [exact Hd|]. split; [exact Hb|]. split.
  - intros HT E. rewrite Hb.
    destruct (Qlt_le_dec threshold balance) as [Hlt|_]; [lra|].
    destruct (Qlt_le_dec balance (- threshold)) as [Hlt|_]; [lra|].
    reflexivity.
  - intros HT. split; [reflexivity|]. rewrite compute_alerts.
    change (unrounded_balance (powers [])) with (Int 0). unfold _check_alerts.
    assert (Hg : gt (value_of (Int 0)) (surplus_threshold_kw self) = false)
      by (apply gt_false; exact HT).
    assert (Hl : lt (value_of (Int 0)) (- surplus_threshold_kw self) = false)
      by (apply lt_false; unfold threshold in HT; change (value_of (Int 0)) with 0; lra).
    rewrite Hg, Hl. reflexivity.
Qed.

(** C5 as stated fails for a negative threshold.  With threshold -5 and
    one boiler drawing 5 kW the balance is -5, exactly the threshold, and
    [GRID_DEFICIT] is raised; and the empty registry raises both balance
    alerts. *)
Lemma negative_threshold_alerts :
  let self := mkAggregator "edge-device-01" (-5) in
  let data := [("asset_id", VStr "boiler-01"); ("asset_type", VStr "industrial_boiler");
               ("state", VStr "RUNNING"); ("power_kw", VFloat 5)] in
  let registry := snd (update "t1" data []) in
  let t := fun s => compute (H := Binary64.arith s) self "t2" registry in
  let t0 := fun s => compute (H := Binary64.arith s) self "t2" [] in
  value_of (unrounded_balance (H := Binary64.arith Binary64.Plain) (powers registry))
    == surplus_threshold_kw self /\
  value_of (unrounded_balance (H := Binary64.arith Binary64.Compensated) (powers registry))
    == surplus_threshold_kw self /\
  map code (alerts (t Binary64.Plain)) = ["GRID_DEFICIT"] /\
  map code (alerts (t Binary64.Compensated)) = ["GRID_DEFICIT"] /\
  map code (alerts (t0 Binary64.Plain)) = ["GRID_SURPLUS"; "GRID_DEFICIT"] /\
  map code (alerts (t0 Binary64.Compensated)) = ["GRID_SURPLUS"; "GRID_DEFICIT"].
Proof. repeat split; reflexivity. Qed.

(** The alerts are decided before rounding: 10.00390625 kW against a
    threshold of 10 kW is reported as a balance of 10 kW together with a
    [GRID_SURPLUS] alert. *)
Lemma alerts_precede_rounding :
  let data := [("asset_id", VStr "solar-01"); ("asset_type", VStr "solar_inverter");
               ("state", VStr "RUNNING"); ("power_output_kw", VFloat 10.00390625)] in
  let t := compute (H := Binary64.arith Binary64.Plain) (mkAggregator "edge-device-01" 10) "t2"
                   (snd (update "t1" data [])) in
  value_of (grid_balance_kw t) == 10 /\ map code (alerts t) = ["GRID_SURPLUS"].
Proof. split; reflexivity. Qed.

End AggregatorProps.

(** Threshold 10 kW on doubles: one inverter delivering exactly 10 kW
    raises nothing, one delivering 10.25 kW raises the surplus warning. *)
Lemma balance_alerts_are_strict_witness :
  let self := Aggregator.mkAggregator "edge-device-01" 10 in
  let inverter := fun p => [(VStr "solar-01",
                             Registry.mkSnapshot (VStr "solar-01") (VStr "solar_inverter")
                                                 (VStr "RUNNING") p (VStr "t1") [])] in
  let found := fun p => Aggregator.alerts
                          (Aggregator.compute (H := Binary64.arith Binary64.Plain)
                                              self "t2" (inverter p)) in
  balance_alerts (found 10%Q) = 0%nat /\
  map Aggregator.severity (with_code "GRID_SURPLUS" (found 10.25%Q)) = ["warning"].
Proof.
  intros self inverter found. split.
  - destruct (balance_alerts_are_strict (H := Binary64.arith Binary64.Plain)
                self "t2" (inverter 10%Q)) as (_ & _ & _ & Heq & _).
    apply Heq; [vm_compute; discriminate | reflexivity].
  - destruct (balance_alerts_are_strict (H := Binary64.arith Binary64.Plain)
                self "t2" (inverter 10.25%Q)) as (Hs & _).
    exact Hs.
Defined.

(** * Properties of the dispatcher *)

Section DispatcherProps.
Import Dispatcher.
Context {T : Type} `{BaseEdgeClient T}.
Variables (module_id method_name : string) (payload : pydict) (timeout_s : Z).

Local Abbreviation this_call := (Invoke module_id method_name payload timeout_s).

Lemma invocations_app l1 l2 : invocations (l1 ++ l2) = (invocations l1 + invocations l2)%nat.
Proof. unfold invocations. now rewrite List.filter_app, length_app. Qed.

Lemma invocations_retried n : invocations (retried this_call n) = n.
Proof. induction n as [|n IH]; [reflexivity|]. unfold invocations in *; simpl. now rewrite IH. Qed.

Lemma send_loop_cons (attempt : Z) (rest : list Z) (last : option exn)
  (d : CommandDispatcher T) :
  send_loop (attempt :: rest) last module_id method_name payload timeout_s d
  = match invoke_method module_id method_name payload timeout_s (_client d) with
    | (Ok result, c) => (Ok result, mkDispatcher c (_max_retries d) (awaits d ++ [this_call]))
    | (Raise e, c) =>
        if is_Exception e then
          send_loop rest (Some e) module_id method_name payload timeout_s
            (mkDispatcher c (_max_retries d)
               (if (attempt <=? _max_retries d)%Z
                then (awaits d ++ [this_call]) ++ [Sleep RETRY_DELAY_S]
                else awaits d ++ [this_call]))
        else (Raise e, mkDispatcher c (_max_retries d) (awaits d ++ [this_call]))
    end.
Proof.
  simpl. unfold bind, try_except, client_invoke_method, bind, record, modify; simpl.
  destruct (invoke_method module_id method_name payload timeout_s (_client d)) as [[r|e] c];
    simpl; [reflexivity|].
  destruct (is_Exception e); simpl; [|reflexivity].
  unfold Py.get; simpl.
  destruct (attempt <=? _max_retries d)%Z; reflexivity.
Qed.

Lemma send_loop_succeeds (j : nat) :
  forall (a len : Z) (last : option exn) (d : CommandDispatcher T) (result : value),
    (Z.of_nat j < len)%Z ->
    (a + len = _max_retries d + 2)%Z ->
    (forall k, (k < j)%nat -> fails module_id method_name payload timeout_s k (_client d)) ->
    outcome module_id method_name payload timeout_s j (_client d) = Ok result ->
    send_loop (seqZ a len) last module_id method_name payload timeout_s d
    = (Ok result,
       mkDispatcher (client_after module_id method_name payload timeout_s (S j) (_client d)) (_max_retries d)
                    (awaits d ++ retried this_call j ++ [this_call])).
Proof.
  induction j as [|j IH]; intros a len last d result Hlen Hend Hfail Hok.
  - rewrite seqZ_cons by lia. rewrite send_loop_cons.
    unfold outcome in Hok; simpl in Hok |- *.
    destruct (invoke_method module_id method_name payload timeout_s (_client d)) as [r c].
    simpl in Hok; subst r. reflexivity.
  - rewrite seqZ_cons by lia. rewrite send_loop_cons.
    destruct (Hfail O) as (e & He & Hexc); [lia|].
    unfold outcome in He; simpl in He.
    destruct (invoke_method module_id method_name payload timeout_s (_client d))
      as [r c] eqn:Hinv.
    simpl in He; subst r. rewrite Hexc.
    replace (a <=? _max_retries d)%Z with true by (symmetry; apply Z.leb_le; lia).
    rewrite (IH (Z.succ a) (Z.pred len) (Some e) _ result); simpl.
    + rewrite Hinv; simpl. rewrite <- !app_assoc. reflexivity.
    + lia.
    + lia.
    + intros k Hk. specialize (Hfail (S k) ltac:(lia)).
      unfold fails, outcome in *; simpl in Hfail. rewrite Hinv in Hfail. exact Hfail.
    + unfold outcome in *; simpl in Hok. rewrite Hinv in Hok. exact Hok.
Qed.

Lemma send_loop_exhausts (n : nat) :
  forall (a : Z) (last : option exn) (d : CommandDispatcher T),
    (a + Z.of_nat (S n) = _max_retries d + 2)%Z ->
    (forall k, (k <= n)%nat -> fails module_id method_name payload timeout_s k (_client d)) ->
    exists e,
      outcome module_id method_name payload timeout_s n (_client d) = Raise e /\
      send_loop (seqZ a (Z.of_nat (S n))) last module_id method_name payload timeout_s d
      = (Raise (command_failed module_id method_name (_max_retries d) (Some e)),
         mkDispatcher (client_after module_id method_name payload timeout_s (S n) (_client d)) (_max_retries d)
                      (awaits d ++ retried this_call n ++ [this_call])).
Proof.
  induction n as [|n IH]; intros a last d Hend Hfail.
  - destruct (Hfail O) as (e & He & Hexc); [lia|]. exists e. split; [exact He|].
    change (seqZ a (Z.of_nat 1)) with [a]. rewrite send_loop_cons.
    unfold outcome in He; simpl in He |- *.
    destruct (invoke_method module_id method_name payload timeout_s (_client d)) as [r c].
    simpl in He; subst r. rewrite Hexc.
    replace (a <=? _max_retries d)%Z with false by (symmetry; apply Z.leb_gt; lia).
    reflexivity.
  - rewrite seqZ_cons by lia. rewrite send_loop_cons.
    destruct (Hfail O) as (e0 & He0 & Hexc); [lia|].
    unfold outcome in He0; simpl in He0.
    destruct (invoke_method module_id method_name payload timeout_s (_client d))
      as [r c] eqn:Hinv.
    simpl in He0; subst r. rewrite Hexc.
    replace (a <=? _max_retries d)%Z with true by (symmetry; apply Z.leb_le; lia).
    replace (Z.pred (Z.of_nat (S (S n)))) with (Z.of_nat (S n)) by lia.
    destruct (IH (Z.succ a) (Some e0)
                (mkDispatcher c (_max_retries d)
                              ((awaits d ++ [this_call]) ++ [Sleep RETRY_DELAY_S])))
      as (e & He & Hrun); simpl.
    + lia.
    + intros k Hk. specialize (Hfail (S k) ltac:(lia)).
      unfold fails, outcome in *; simpl in Hfail. rewrite Hinv in Hfail. exact Hfail.
    + exists e. split.
      * unfold outcome in *; simpl. rewrite Hinv. exact He.
      * rewrite Hrun; simpl. rewrite Hinv; simpl. rewrite <- !app_assoc. reflexivity.
Qed.

(** C1.  For a dispatcher whose retry count is not negative, any target,
    method, payload and timeout, and any client.  If the first [N - 1]
    invocations raise an [Exception] and invocation [N] returns, with
    [N <= max_retries + 1], then [send] returns what that invocation
    returned, having invoked the client exactly [N] times, with the retry
    delay after each failure.  If every invocation raises an [Exception],
    [send] raises the [RuntimeError] whose text names the method, the
    module, the count [max_retries + 1] and the last exception raised,
    having invoked the client exactly [max_retries + 1] times. *)
Theorem send_retries_then_gives_up (d : CommandDispatcher T) :
  (0 <= _max_retries d)%Z ->
  let run := send module_id method_name payload timeout_s d in
  (forall (N : nat) (result : value),
      (1 <= N)%nat -> (Z.of_nat N <= _max_retries d + 1)%Z ->
      (forall k, (k < N - 1)%nat -> fails module_id method_name payload timeout_s k (_client d)) ->
      outcome module_id method_name payload timeout_s (N - 1) (_client d) = Ok result ->
      fst run = Ok result /\
      awaits (snd run) = awaits d ++ retried this_call (N - 1) ++ [this_call] /\
      invocations (awaits (snd run)) = (invocations (awaits d) + N)%nat) /\
  ((forall k, (k <= Z.to_nat (_max_retries d))%nat -> fails module_id method_name payload timeout_s k (_client d)) ->
   exists e,
     outcome module_id method_name payload timeout_s (Z.to_nat (_max_retries d)) (_client d) = Raise e /\
     fst run = Raise (command_failed module_id method_name (_max_retries d) (Some e)) /\
     exn_str (command_failed module_id method_name (_max_retries d) (Some e))
       = "Command " +:+ method_name +:+ " to " +:+ module_id +:+ " failed after "
         +:+ pretty (_max_retries d + 1)%Z +:+ " attempts: " +:+ exn_str e /\
     awaits (snd run) = awaits d ++ retried this_call (Z.to_nat (_max_retries d)) ++ [this_call] /\
     invocations (awaits (snd run))
       = (invocations (awaits d) + Z.to_nat (_max_retries d + 1))%nat).
Proof.
  intros Hmr run. unfold run, send, bind, Py.get; simpl. split.
  - intros N result HN HNmax Hfail Hok.
    rewrite (send_loop_succeeds (N - 1) 1 (_max_retries d + 1) None d result);
      [simpl | lia | lia | exact Hfail | exact Hok].
    repeat split.
    rewrite !invocations_app, invocations_retried. unfold invocations; simpl. lia.
  - intros Hfail.
    assert (E : seqZ 1 (_max_retries d + 1) = seqZ 1 (Z.of_nat (S (Z.to_nat (_max_retries d)))))
      by (f_equal; lia).
    rewrite E; clear E.
    destruct (send_loop_exhausts (Z.to_nat (_max_retries d)) 1 None d) as (e & He & Hrun);
      [lia | exact Hfail |].
    exists e. rewrite Hrun; simpl. repeat split; [exact He|].
    rewrite !invocations_app, invocations_retried. unfold invocations; simpl. lia.
Qed.

End DispatcherProps.

(** The unit test [test_retries_on_transient_failure]: one retry allowed,
    the first invocation raises, the second returns. *)
Lemma send_retries_then_gives_up_witness :
  let transient := mkExn OtherException "transient" in
  let ok := VDict [("status", VStr "ok")] in
  let d := Dispatcher.__init__ [Raise transient; Ok ok] 1 in
  let run := Dispatcher.send "solar-module" "start" [] 10 d in
  fst run = Ok ok /\ invocations (Dispatcher.awaits (snd run)) = 2%nat.
Proof.
  intros transient ok d run.
  destruct (send_retries_then_gives_up "solar-module" "start" [] 10 d) as [Hretry _];
    [vm_compute; discriminate|].
  destruct (Hretry 2%nat ok) as (Hr & _ & Hn).
  - lia.
  - vm_compute; discriminate.
  - intros k Hk. assert (k = O) as -> by lia. exists transient. split; reflexivity.
  - reflexivity.
  - split; [exact Hr | exact Hn].
Defined.

(** * Properties of the local transport *)

Section ClientProps.
Import Client.
Context {H : Type} `{Formatter}.

Lemma with_pending_same (c : LocalMqttEdgeClient H) : with_pending (_pending c) c = c.
Proof. destruct c; reflexivity. Qed.

(** ** Topics carry the request id back *)



Lemma after_last_later (sep pre t r : string) :
  after_last sep t = Some r -> after_last sep (pre +:+ t) = Some r.
Proof.
  intros Ht. induction pre as [|c pre IH]; [exact Ht|].
  simpl. now rewrite IH.
Qed.


(** ** What [_dispatch] does, branch by branch *)

Lemma dispatch_response topic rid payload addr (w : world H) :
  response_id topic = Some rid ->
  _dispatch topic payload addr w
  = let c := with_pending (delete rid (_pending (fst w))) (fst w) in
    match _pending (fst w) !! rid with
    | Some f =>
        match futures (fst w) !! f with
        | Some Pending =>
            match payload with
            | VDict d =>
                (Ok tt,
                 (with_futures (<[f := Finished (dict_get "payload" (VDict []) d)]> (futures c)) c,
                  snd w))
            | _ => (Raise (mkExn AttributeError "object has no attribute 'get'"), (c, snd w))
            end
        | _ => (Ok tt, (c, snd w))
        end
    | None => (Ok tt, (c, snd w))
    end.
Proof.
  unfold response_id. intros Hid. destruct w as [c h].
  unfold _dispatch, bind, self, contains, rsplit_last; simpl. rewrite Hid.
  unfold pending_pop, bind, self, update_self, ret; simpl.
  destruct (_pending c !! rid) as [f|]; [|reflexivity].
  destruct (futures c !! f) as [[| |]|]; try reflexivity.
  destruct payload; reflexivity.
Qed.

(** A response for an id that is not pending changes nothing. *)
Lemma dispatch_unknown_response topic rid payload addr (w : world H) :
  response_id topic = Some rid ->
  _pending (fst w) !! rid = None ->
  _dispatch topic payload addr w = (Ok tt, w).
Proof.
  intros Hid Hnone. rewrite (dispatch_response _ _ _ _ _ Hid), Hnone; simpl.
  rewrite delete_id by exact Hnone. rewrite with_pending_same. now destruct w.
Qed.

(** Outside the response branch [_dispatch] touches neither [_pending]
    nor the futures. *)
Lemma dispatch_other topic payload addr (w : world H) :
  response_id topic = None ->
  _pending (fst (snd (_dispatch topic payload addr w))) = _pending (fst w) /\
  futures (fst (snd (_dispatch topic payload addr w))) = futures (fst w).
Proof.
  unfold response_id. intros Hid. destruct w as [c h].
  unfold _dispatch, bind, self, contains; simpl. rewrite Hid.
  destruct (after_last ("edge/" +:+ _module_id c +:+ "/methods/") topic).
  - destruct (_method_handler c) as [hd|]; [|now split].
    destruct payload; try now split.
    unfold handler; simpl.
    destruct (hd _ h) as [[resp|e] h']; simpl; now split.
  - destruct (_message_handler c) as [hd|]; [|now split].
    unfold handler; simpl.
    destruct (hd payload _ h) as [[[]|e] h']; simpl; now split.
Qed.

(** A response whose payload is not a JSON object, for a call that is
    pending: the entry is dropped, the future is left as it is and
    [AttributeError] goes up to [_listen_loop]. *)
Lemma dispatch_response_not_an_object topic rid f payload addr (w : world H) :
  response_id topic = Some rid ->
  _pending (fst w) !! rid = Some f ->
  futures (fst w) !! f = Some Pending ->
  (forall d, payload <> VDict d) ->
  _dispatch topic payload addr w
  = (Raise (mkExn AttributeError "object has no attribute 'get'"),
     (with_pending (delete rid (_pending (fst w))) (fst w), snd w)).
Proof.
  intros Hid Hf Hp Hno. rewrite (dispatch_response _ _ _ _ _ Hid), Hf; simpl. rewrite Hp.
  destruct payload; try reflexivity. now destruct (Hno d).
Qed.

(** ** The pending map refers to existing futures, always *)

Lemma bounded_no_pending (c : LocalMqttEdgeClient H) : _pending c = ∅ -> bounded c.
Proof. intros Hp rid f Hr. rewrite Hp, lookup_empty in Hr. discriminate. Qed.

Lemma bounded_ext (c c' : LocalMqttEdgeClient H) :
  _pending c' = _pending c -> futures c' = futures c -> bounded c -> bounded c'.
Proof. unfold bounded. intros -> ->. auto. Qed.

Lemma bounded_pop rid (c : LocalMqttEdgeClient H) :
  bounded c -> bounded (with_pending (delete rid (_pending c)) c).
Proof.
  intros Hb r f Hr. cbn [_pending with_pending futures] in *.
  apply lookup_delete_Some in Hr as [_ Hr]. apply (Hb r f Hr).
Qed.

Lemma bounded_set f st (c : LocalMqttEdgeClient H) :
  bounded c -> bounded (with_futures (<[f := st]> (futures c)) c).
Proof.
  intros Hb r g Hr. cbn [_pending with_futures futures] in *.
  rewrite length_insert. apply (Hb r g Hr).
Qed.

Lemma dispatch_bounded topic payload addr (w : world H) :
  bounded (fst w) -> bounded (fst (snd (_dispatch topic payload addr w))).
Proof.
  intros Hb. destruct (response_id topic) as [rid|] eqn:Hrid.
  - rewrite (dispatch_response _ _ _ _ _ Hrid); simpl.
    pose proof (bounded_pop rid _ Hb) as Hb'.
    destruct (_pending (fst w) !! rid) as [f|]; [|exact Hb'].
    destruct (futures (fst w) !! f) as [[| |]|]; try exact Hb'.
    destruct payload; try exact Hb'.
    exact (bounded_set f _ (with_pending (delete rid (_pending (fst w))) (fst w)) Hb').
  - destruct (dispatch_other topic payload addr w Hrid) as [Hp Hf].
    exact (bounded_ext _ _ Hp Hf Hb).
Qed.

Lemma deliver_bounded m (w : world H) :
  bounded (fst w) -> bounded (fst (snd (deliver m w))).
Proof.
  intros Hb. unfold deliver, bind, self; simpl.
  destruct (_listening (fst w)); [|exact Hb].
  destruct (body m) as [payload|]; [|exact Hb].
  pose proof (dispatch_bounded (topic m) payload (addr m) w Hb) as Hd.
  destruct (_dispatch (topic m) payload (addr m) w) as [[[]|e] w']; [exact Hd|].
  simpl. eapply bounded_ext; [| |exact Hd]; reflexivity.
Qed.

Lemma begin_bounded stamp target method payload (w : world H) :
  bounded (fst w) ->
  bounded (fst (snd (invoke_method_begin stamp target method payload w))).
Proof.
  intros Hb r f Hr.
  unfold invoke_method_begin, bind, self, update_self, publish in *; simpl in *.
  rewrite length_app; simpl.
  apply lookup_insert_Some in Hr as [[_ <-] | [_ Hr]]; [lia|].
  apply Hb in Hr. lia.
Qed.

Lemma resume_bounded k target method timeout_s (w : world H) :
  bounded (fst w) ->
  bounded (fst (snd (invoke_method_end k target method timeout_s w))).
Proof.
  intros Hb. unfold invoke_method_end, bind, self; simpl.
  destruct (futures (fst w) !! call_future k) as [[| |]|]; try exact Hb.
  unfold set_future, pending_pop, bind, self, update_self; simpl.
  apply (bounded_pop (call_request_id k)
           (with_futures (<[call_future k := Cancelled]> (futures (fst w))) (fst w))).
  apply bounded_set, Hb.
Qed.

Lemma acts_bounded (l : list activity) :
  forall w : world H, bounded (fst w) -> bounded (fst (acts l w)).
Proof.
  induction l as [|a l IH]; intros w Hb; [exact Hb|].
  simpl. apply IH.
  destruct a as [m|stamp target method payload|k target method timeout_s]; simpl.
  - now apply deliver_bounded.
  - now apply begin_bounded.
  - now apply resume_bounded.
Qed.

(** ** A suspended call is left alone by what is not addressed to it *)

Lemma waiting_ext k (c c' : LocalMqttEdgeClient H) :
  _pending c' = _pending c -> futures c' = futures c -> waiting k c -> waiting k c'.
Proof. unfold waiting, owns. intros -> ->. auto. Qed.

Lemma waiting_pop k rid (c : LocalMqttEdgeClient H) :
  waiting k c -> waiting k (with_pending (delete rid (_pending c)) c).
Proof.
  intros [Ho Hp]. split; [|exact Hp].
  intros r Hr. cbn [_pending with_pending] in Hr.
  apply lookup_delete_Some in Hr as [_ Hr]. auto.
Qed.

Lemma waiting_set_other k f st (c : LocalMqttEdgeClient H) :
  f <> call_future k -> waiting k c -> waiting k (with_futures (<[f := st]> (futures c)) c).
Proof.
  intros Hne [Ho Hp]. split; [exact Ho|].
  cbn [futures with_futures]. rewrite list_lookup_insert_ne by exact Hne. exact Hp.
Qed.

Lemma dispatch_waiting k topic payload addr (w : world H) :
  response_id topic <> Some (call_request_id k) ->
  waiting k (fst w) -> waiting k (fst (snd (_dispatch topic payload addr w))).
Proof.
  intros Hid Hw. destruct (response_id topic) as [rid|] eqn:Hrid.
  - rewrite (dispatch_response _ _ _ _ _ Hrid); simpl.
    pose proof (waiting_pop k rid _ Hw) as Hw'.
    destruct (_pending (fst w) !! rid) as [f|] eqn:Hf; [|exact Hw'].
    destruct (futures (fst w) !! f) as [[| |]|]; try exact Hw'.
    destruct payload; try exact Hw'.
    apply (waiting_set_other k f _ (with_pending (delete rid (_pending (fst w))) (fst w)));
      [|exact Hw'].
    intros ->. destruct Hw as [Ho _]. apply Ho in Hf. congruence.
  - destruct (dispatch_other topic payload addr w Hrid) as [Hp Hf].
    exact (waiting_ext _ _ _ Hp Hf Hw).
Qed.

Lemma deliver_waiting k m (w : world H) :
  response_id (topic m) <> Some (call_request_id k) ->
  waiting k (fst w) -> waiting k (fst (snd (deliver m w))).
Proof.
  intros Hid Hw. unfold deliver, bind, self; simpl.
  destruct (_listening (fst w)); [|exact Hw].
  destruct (body m) as [payload|]; [|exact Hw].
  pose proof (dispatch_waiting k (topic m) payload (addr m) w Hid Hw) as Hd.
  destruct (_dispatch (topic m) payload (addr m) w) as [[[]|e] w']; [exact Hd|].
  simpl. eapply waiting_ext; [| |exact Hd]; reflexivity.
Qed.

Lemma begin_waiting k stamp target method payload (w : world H) :
  waiting k (fst w) ->
  waiting k (fst (snd (invoke_method_begin stamp target method payload w))).
Proof.
  intros [Ho Hp]. pose proof (lookup_lt_Some _ _ _ Hp) as Hlt.
  unfold invoke_method_begin, bind, self, update_self, publish; simpl. split.
  - intros r Hr. cbn [futures with_futures with_published _pending with_pending] in *.
    apply lookup_insert_Some in Hr as [[_ Hr] | [_ Hr]]; [lia | auto].
  - cbn [futures with_futures with_published _pending with_pending].
    rewrite lookup_app_l by exact Hlt. exact Hp.
Qed.

Lemma resume_waiting k k' target method timeout_s (w : world H) :
  call_future k' <> call_future k ->
  waiting k (fst w) ->
  waiting k (fst (snd (invoke_method_end k' target method timeout_s w))).
Proof.
  intros Hne Hw. unfold invoke_method_end, bind, self; simpl.
  destruct (futures (fst w) !! call_future k') as [[| |]|]; try exact Hw.
  unfold set_future, pending_pop, bind, self, update_self; simpl.
  apply (waiting_pop k (call_request_id k')
           (with_futures (<[call_future k' := Cancelled]> (futures (fst w))) (fst w))).
  apply waiting_set_other; assumption.
Qed.

Lemma acts_waiting k (l : list activity) :
  forall w : world H, Forall (apart k) l -> waiting k (fst w) -> waiting k (fst (acts l w)).
Proof.
  induction l as [|a l IH]; intros w Hl Hw; [exact Hw|].
  inversion Hl as [|a' l' Ha Hl']; subst. simpl. apply IH; [exact Hl'|].
  destruct a as [m|stamp target method payload|k' target method timeout_s]; simpl in *.
  - now apply deliver_waiting.
  - now apply begin_waiting.
  - now apply resume_waiting.
Qed.

(** ** The two halves of [invoke_method] *)

Lemma begin_issues stamp target method payload (w : world H) :
  fst (invoke_method_begin stamp target method payload w) = Ok (issued stamp method (fst w)).
Proof. reflexivity. Qed.

(** A call is outstanding as soon as it is issued. *)
Lemma begin_outstanding stamp target method payload (w : world H) :
  bounded (fst w) ->
  outstanding (issued stamp method (fst w))
              (fst (snd (invoke_method_begin stamp target method payload w))).
Proof.
  intros Hb. unfold issued, invoke_method_begin, bind, self, update_self, publish; simpl.
  unfold outstanding, waiting, owns; simpl. repeat split.
  - apply lookup_insert_eq.
  - intros r Hr. apply lookup_insert_Some in Hr as [[<- _] | [_ Hr]]; [reflexivity|].
    apply Hb in Hr. lia.
  - rewrite lookup_app_r by lia. now rewrite Nat.sub_diag.
Qed.

Lemma end_times_out k target method timeout_s (w : world H) :
  futures (fst w) !! call_future k = Some Pending ->
  invoke_method_end k target method timeout_s w
  = (Raise (timed_out target method timeout_s),
     (with_pending (delete (call_request_id k) (_pending (fst w)))
        (with_futures (<[call_future k := Cancelled]> (futures (fst w))) (fst w)),
      snd w)).
Proof.
  intros Hp. unfold invoke_method_end, bind, self; simpl. rewrite Hp.
  reflexivity.
Qed.

Lemma end_returns k target method timeout_s result (w : world H) :
  futures (fst w) !! call_future k = Some (Finished result) ->
  invoke_method_end k target method timeout_s w = (Ok result, w).
Proof.
  intros Hp. unfold invoke_method_end, bind, self; simpl. rewrite Hp. reflexivity.
Qed.

(** C2.  A call is issued on a client whose pending futures all exist.
    While it is suspended anything may happen on the client (messages
    delivered, other calls begun or resumed) except the delivery of a
    response carrying its request id.  When the deadline then passes,
    [invoke_method] raises the time-out [RuntimeError], the future is
    cancelled and [_pending] has no entry for the request id; and
    [_dispatch] of a response carrying that id afterwards, whatever its
    payload, returns normally and leaves the client as it is. *)
Theorem timeout_removes_pending_call
  (stamp target method : string) (payload : pydict) (timeout_s : Z)
  (meanwhile : list activity) (w0 : world H) :
  bounded (fst w0) ->
  let k := issued stamp method (fst w0) in
  Forall (apart k) meanwhile ->
  let w1 := snd (invoke_method_begin stamp target method payload w0) in
  let w2 := acts meanwhile w1 in
  let w3 := snd (invoke_method_end k target method timeout_s w2) in
  fst (invoke_method_end k target method timeout_s w2)
    = Raise (timed_out target method timeout_s) /\
  _pending (fst w3) !! call_request_id k = None /\
  futures (fst w3) !! call_future k = Some Cancelled /\
  (forall late body_ addr_,
      response_id late = Some (call_request_id k) ->
      _dispatch late body_ addr_ w3 = (Ok tt, w3)).
Proof.
  intros Hb k Hquiet w1 w2 w3.
  destruct (begin_outstanding stamp target method payload w0 Hb) as [_ Hw1].
  pose proof (acts_waiting k meanwhile w1 Hquiet Hw1) as [_ Hp2].
  fold w2 in Hp2.
  pose proof (end_times_out k target method timeout_s w2 Hp2) as Hend.
  unfold w3. rewrite Hend. cbn [fst snd _pending with_pending futures with_futures].
  assert (Hgone : delete (call_request_id k) (_pending (fst w2)) !! call_request_id k = None)
    by apply lookup_delete_eq.
  repeat split.
  - exact Hgone.
  - apply list_lookup_insert_eq. eapply lookup_lt_Some, Hp2.
  - intros late body_ addr_ Hlate.
    apply (dispatch_unknown_response late (call_request_id k)); [exact Hlate | exact Hgone].
Qed.

Lemma dispatch_keeps_outstanding k topic body_ addr_ (w : world H) :
  response_id topic <> Some (call_request_id k) ->
  outstanding k (fst w) ->
  outstanding k (fst (snd (_dispatch topic body_ addr_ w))).
Proof.
  intros Hid [Hk Hw]. split; [|now apply dispatch_waiting].
  destruct (response_id topic) as [rid|] eqn:Hrid.
  - assert (Hne : rid <> call_request_id k) by congruence.
    assert (Hpop : delete rid (_pending (fst w)) !! call_request_id k = Some (call_future k))
      by (rewrite lookup_delete_ne by exact Hne; exact Hk).
    rewrite (dispatch_response _ _ _ _ _ Hrid); simpl.
    destruct (_pending (fst w) !! rid) as [f|]; [|exact Hpop].
    destruct (futures (fst w) !! f) as [[| |]|]; try exact Hpop.
    destruct body_; exact Hpop.
  - destruct (dispatch_other topic body_ addr_ w Hrid) as [Hpe _]. rewrite Hpe. exact Hk.
Qed.

Lemma dispatch_resolves k topic d addr_ (w : world H) :
  response_id topic = Some (call_request_id k) ->
  outstanding k (fst w) ->
  let result := dict_get "payload" (VDict []) d in
  let w' := snd (_dispatch topic (VDict d) addr_ w) in
  fst (_dispatch topic (VDict d) addr_ w) = Ok tt /\
  futures (fst w') !! call_future k = Some (Finished result) /\
  _pending (fst w') !! call_request_id k = None.
Proof.
  intros Hid (Hk & _ & Hp) result w'. unfold w'.
  rewrite (dispatch_response _ _ _ _ _ Hid), Hk; simpl. rewrite Hp; simpl.
  repeat split.
  - apply list_lookup_insert_eq. eapply lookup_lt_Some, Hp.
  - apply lookup_delete_eq.
Qed.

(** C3.  For an outstanding call: [_dispatch] of a message that does not
    carry its request id, be it a response to another id or not a response
    at all, leaves the call outstanding, its future not done; [_dispatch]
    of a response that carries its request id, with a JSON object as
    payload, returns normally, gives the future the object's [payload]
    entry as result, which is what [invoke_method] then returns, and
    removes the entry from [_pending]; and [_dispatch] of a further
    response with that id, whatever its payload, returns normally and
    changes nothing. *)
Theorem response_resolves_matching_call_once (k : call) (w : world H) :
  outstanding k (fst w) ->
  (forall other body_ addr_,
      response_id other <> Some (call_request_id k) ->
      outstanding k (fst (snd (_dispatch other body_ addr_ w)))) /\
  (forall matching d addr_ target method timeout_s,
      response_id matching = Some (call_request_id k) ->
      let w' := snd (_dispatch matching (VDict d) addr_ w) in
      fst (_dispatch matching (VDict d) addr_ w) = Ok tt /\
      futures (fst w') !! call_future k = Some (Finished (dict_get "payload" (VDict []) d)) /\
      _pending (fst w') !! call_request_id k = None /\
      invoke_method_end k target method timeout_s w'
        = (Ok (dict_get "payload" (VDict []) d), w') /\
      (forall again body_ addr2,
          response_id again = Some (call_request_id k) ->
          _dispatch again body_ addr2 w' = (Ok tt, w'))).
Proof.
  intros Hout. split.
  - intros other body_ addr_ Hid. now apply dispatch_keeps_outstanding.
  - intros matching d addr_ target method timeout_s Hid w'.
    destruct (dispatch_resolves k matching d addr_ w Hid Hout) as (Hr & Hf & Hp).
    fold w' in Hf, Hp. repeat split; [exact Hr | exact Hf | exact Hp | |].
    + apply end_returns, Hf.
    + intros again body_ addr2 Hagain.
      apply (dispatch_unknown_response again (call_request_id k)); assumption.
Qed.

End ClientProps.

(** * The dispatcher and the local transport together *)

Section LocalProps.
Import Client Local.
Context {H : Type} `{Formatter}.
Variable env : surroundings.

Lemma begin_keeps_listening stamp target method payload (w : world H) :
  _listening (fst (snd (invoke_method_begin stamp target method payload w)))
  = _listening (fst w).
Proof. reflexivity. Qed.

(** An [invoke_method] during which a response with its request id and a
    JSON object as payload arrives returns the object's [payload] entry. *)
Lemma invoke_answered stamp target method payload timeout_s (m : message) d (w : world H) :
  bounded (fst w) ->
  _listening (fst w) = true ->
  response_id (topic m) = Some (method +:+ "-" +:+ stamp) ->
  body m = Some (VDict d) ->
  fst (invoke_method stamp [m] target method payload timeout_s w)
  = Ok (dict_get "payload" (VDict []) d).
Proof.
  intros Hb Hl Hid Hbody.
  pose proof (begin_outstanding stamp target method payload w Hb) as Hout.
  pose proof (begin_keeps_listening stamp target method payload w) as Hl1.
  unfold invoke_method, bind.
  destruct (invoke_method_begin stamp target method payload w) as [r w1] eqn:Hbegin.
  pose proof (begin_issues stamp target method payload w) as Hk.
  rewrite Hbegin in Hk; simpl in Hk, Hout, Hl1. subst r.
  set (k := issued stamp method (fst w)) in *.
  destruct (dispatch_resolves k (topic m) d (addr m) w1 Hid Hout) as (Hr & Hf & _).
  simpl. unfold deliver, bind, self; simpl. rewrite Hl1, Hl, Hbody.
  destruct (_dispatch (topic m) (VDict d) (addr m) w1) as [[[]|e] w2]; [|discriminate].
  simpl in Hf |- *. unfold ret; simpl.
  rewrite (end_returns k target method timeout_s _ w2 Hf). reflexivity.
Qed.

(** C9.  A dispatcher works on a connected local client.  The answer to
    its invocation arrives as a method response with the call's request
    id whose payload is the object [{"status": status, "payload": answer}],
    for any [status] whatever, 404, 409 and 500 included.  Then
    [invoke_method] returns [answer], the status playing no part, and
    [send] returns [answer] as its result after this one invocation,
    without sleeping or retrying. *)
Theorem error_status_resolves_as_success
  (d : Dispatcher.CommandDispatcher (link H))
  (module_id method_name : string) (payload : pydict) (timeout_s : Z)
  (reply : string) (status answer : value) (addr_ : Z) :
  (0 <= Dispatcher._max_retries d)%Z ->
  bounded (fst (endpoint (Dispatcher._client d))) ->
  _listening (fst (endpoint (Dispatcher._client d))) = true ->
  let stamp := stamp_of env (calls (Dispatcher._client d)) in
  let request_id := method_name +:+ "-" +:+ stamp in
  network env ("edge/" +:+ module_id +:+ "/methods/" +:+ method_name)
          (VDict (dict_set "_request_id" (VStr request_id) payload))
  = [mkMessage reply (Some (VDict [("status", status); ("payload", answer)])) addr_] ->
  response_id reply = Some request_id ->
  fst (invoke_method stamp
         [mkMessage reply (Some (VDict [("status", status); ("payload", answer)])) addr_]
         module_id method_name payload timeout_s (endpoint (Dispatcher._client d)))
  = Ok answer /\
  let run := Dispatcher.send (H := local_client env) module_id method_name payload timeout_s d in
  fst run = Ok answer /\
  Dispatcher.awaits (snd run)
  = Dispatcher.awaits d ++ [Dispatcher.Invoke module_id method_name payload timeout_s].
Proof.
  intros Hmr Hb Hl stamp request_id Hnet Hid.
  assert (Hone :
    fst (invoke_method stamp
           [mkMessage reply (Some (VDict [("status", status); ("payload", answer)])) addr_]
           module_id method_name payload timeout_s (endpoint (Dispatcher._client d)))
    = Ok answer).
  { rewrite (invoke_answered stamp module_id method_name payload timeout_s
               (mkMessage reply (Some (VDict [("status", status); ("payload", answer)])) addr_)
               [("status", status); ("payload", answer)] _ Hb Hl Hid eq_refl).
    reflexivity. }
  split; [exact Hone|]. intros run. unfold run, Dispatcher.send, bind, Py.get; simpl.
  rewrite (send_loop_succeeds (H := local_client env) module_id method_name payload timeout_s
             0 1 (Dispatcher._max_retries d + 1) None d answer).
  - simpl. split; reflexivity.
  - lia.
  - lia.
  - intros k Hk. lia.
  - unfold outcome; simpl. fold stamp. fold request_id. rewrite Hnet.
    destruct (invoke_method stamp _ module_id method_name payload timeout_s
                (endpoint (Dispatcher._client d))) as [r w'].
    simpl in Hone |- *. exact Hone.
Qed.

End LocalProps.

(** The controller asks the battery module to charge; a telemetry
    message and the answer to another call arrive, then the deadline
    passes. *)
Lemma timeout_removes_pending_call_witness :
  let w0 := Scenario.controller_module in
  let k := issued "12.000000" "start_charging" (fst w0) in
  let meanwhile := [Delivered Scenario.telemetry;
                    Delivered (Scenario.response_to "stop-11.000000" 200 [])] in
  let w2 := acts meanwhile
              (snd (Client.invoke_method_begin "12.000000" "battery-module" "start_charging"
                      [("power_kw", VFloat 25)] w0)) in
  fst (Client.invoke_method_end k "battery-module" "start_charging" 10 w2)
    = Raise (mkExn RuntimeError "Method start_charging on battery-module timed out after 10s") /\
  Client._pending (fst (snd (Client.invoke_method_end k "battery-module" "start_charging" 10 w2)))
    !! "start_charging-12.000000" = None.
Proof.
  intros w0 k meanwhile w2.
  destruct (timeout_removes_pending_call "12.000000" "battery-module" "start_charging"
              [("power_kw", VFloat 25)] 10 meanwhile w0) as (Hr & Hp & _).
  - apply bounded_no_pending. reflexivity.
  - repeat constructor; vm_compute; discriminate.
  - split; [exact Hr | exact Hp].
Defined.

(** The controller asks the battery module to charge and the answer
    arrives. *)
Lemma response_resolves_matching_call_once_witness :
  let w0 := Scenario.controller_module in
  let k := issued "12.000000" "start_charging" (fst w0) in
  let w1 := snd (Client.invoke_method_begin "12.000000" "battery-module" "start_charging"
                   [("power_kw", VFloat 25)] w0) in
  let m := Scenario.response_to "start_charging-12.000000" 200 [("status", VStr "charging")] in
  outstanding k (fst w1) /\
  Client.invoke_method_end k "battery-module" "start_charging" 10
    (snd (Client._dispatch (Client.topic m)
            (VDict [("status", VInt 200); ("payload", VDict [("status", VStr "charging")])])
            0 w1))
  = (Ok (VDict [("status", VStr "charging")]),
     snd (Client._dispatch (Client.topic m)
            (VDict [("status", VInt 200); ("payload", VDict [("status", VStr "charging")])])
            0 w1)).
Proof.
  intros w0 k w1 m.
  assert (Hout : outstanding k (fst w1)).
  { apply (begin_outstanding "12.000000" "battery-module" "start_charging"
             [("power_kw", VFloat 25)] w0).
    apply bounded_no_pending. reflexivity. }
  split; [exact Hout|].
  destruct (response_resolves_matching_call_once k w1 Hout) as [_ Hmatch].
  destruct (Hmatch (Client.topic m)
              [("status", VInt 200); ("payload", VDict [("status", VStr "charging")])]
              0%Z "battery-module" "start_charging" 10%Z) as (_ & _ & _ & Hend & _).
  - reflexivity.
  - exact Hend.
Defined.

(** The battery module turns the charge command down with status 409;
    [charge_battery] returns the error object as its result, after one
    invocation. *)
Lemma error_status_resolves_as_success_witness :
  let d := Dispatcher.__init__ (Local.mkLink Scenario.controller_module 0) 2 in
  let run := Dispatcher.charge_battery (H := Local.local_client Scenario.broker)
               "battery-module" 25 d in
  fst run = Ok (VDict [("error", VStr "Battery is at maximum charge")]) /\
  Dispatcher.awaits (snd run)
  = [Dispatcher.Invoke "battery-module" "start_charging" [("power_kw", VFloat 25)] 10].
Proof.
  intros d run.
  destruct (error_status_resolves_as_success Scenario.broker d
              "battery-module" "start_charging" [("power_kw", VFloat 25)] 10
              "edge/battery-module/methods/response/start_charging-12.000000"
              (VInt 409) (VDict [("error", VStr "Battery is at maximum charge")]) 0)
    as (_ & Hr & Ha).
  - vm_compute; discriminate.
  - apply bounded_no_pending. reflexivity.
  - reflexivity.
  - reflexivity.
  - reflexivity.
  - split; [exact Hr | exact Ha].
Defined.

(** * Strings and topics *)

Section TopicProps.
Import Client.

Lemma slashes_app (a b : string) : slashes (a +:+ b) = (slashes a + slashes b)%nat.
Proof. induction a as [|c a IH]; simpl; [reflexivity|]. rewrite IH. lia. Qed.

Lemma no_slash_slashes (s : string) : no_slash s = true <-> slashes s = O.
Proof.
  induction s as [|c s IH]; simpl; [tauto|].
  destruct (Ascii.eqb c "/"); simpl; [split; [discriminate | lia]|exact IH].
Qed.

Lemma no_slash_app (a b : string) :
  no_slash (a +:+ b) = true <-> no_slash a = true /\ no_slash b = true.
Proof. rewrite !no_slash_slashes, slashes_app. lia. Qed.

Lemma append_cons (c : ascii) (a b : string) : String c a +:+ b = String c (a +:+ b).
Proof. reflexivity. Qed.

Lemma append_assoc (a b c : string) : (a +:+ b) +:+ c = a +:+ (b +:+ c).
Proof.
  induction a as [|x a IH]; [reflexivity|]. rewrite !append_cons. now rewrite IH.
Qed.

Lemma prefix_app (p r : string) : String.prefix p (p +:+ r) = true.
Proof.
  induction p as [|c p IH]; [now destruct r|].
  rewrite append_cons. simpl.
  destruct (Ascii.ascii_dec c c); [exact IH | congruence].
Qed.

Lemma prefix_split (p t : string) :
  String.prefix p t = true -> t = p +:+ drop_chars (String.length p) t.
Proof.
  revert t. induction p as [|c p IH]; intros t Hp; [reflexivity|].
  destruct t as [|c' t]; [discriminate|]. simpl in Hp.
  destruct (Ascii.ascii_dec c c') as [->|]; [|discriminate].
  cbn [String.length drop_chars]. rewrite append_cons. f_equal. exact (IH t Hp).
Qed.

Lemma drop_chars_app (p r : string) : drop_chars (String.length p) (p +:+ r) = r.
Proof. induction p as [|c p IH]; [reflexivity | exact IH]. Qed.

Lemma after_last_cons (sep : string) (c : ascii) (s : string) :
  after_last sep (String c s)
  = match after_last sep s with
    | Some r => Some r
    | None =>
        if String.prefix sep (String c s)
        then Some (drop_chars (String.length sep) (String c s)) else None
    end.
Proof. reflexivity. Qed.

(** An occurrence found is an occurrence. *)
Lemma after_last_occurs (sep t r : string) :
  after_last sep t = Some r -> exists a, t = a +:+ sep +:+ r.
Proof.
  revert r. induction t as [|c t IH]; intros r Hr; [discriminate|].
  rewrite after_last_cons in Hr.
  destruct (after_last sep t) as [r'|].
  - injection Hr as <-. destruct (IH r' eq_refl) as [a ->]. now exists (String c a).
  - destruct (String.prefix sep (String c t)) eqn:Hp; [|discriminate].
    injection Hr as <-. exists EmptyString. simpl. now apply prefix_split.
Qed.

Lemma after_last_few_slashes (sep t : string) :
  (slashes t < slashes sep)%nat -> after_last sep t = None.
Proof.
  intros Hlt. destruct (after_last sep t) as [r|] eqn:Hr; [|reflexivity].
  apply after_last_occurs in Hr as [a ->]. rewrite !slashes_app in Hlt. lia.
Qed.


(** After the last occurrence of a separator that begins with a slash
    comes what was appended to it, when that has no slash. *)
Lemma after_last_appended (sep' pre rid : string) :
  no_slash rid = true ->
  after_last (String "/" sep') (pre +:+ String "/" sep' +:+ rid) = Some rid.
Proof.
  intros Hrid. apply after_last_later.
  change (String "/" sep' +:+ rid) with (String "/" (sep' +:+ rid)).
  rewrite after_last_cons.
  rewrite after_last_few_slashes.
  - change (String "/" (sep' +:+ rid)) with (String "/" sep' +:+ rid).
    now rewrite prefix_app, drop_chars_app.
  - apply no_slash_slashes in Hrid. rewrite slashes_app, Hrid. simpl. lia.
Qed.

(** Strings that agree split alike at their first slash. *)
Lemma split_at_slash (a b x y : string) :
  no_slash a = true -> no_slash b = true ->
  a +:+ String "/" x = b +:+ String "/" y -> a = b /\ x = y.
Proof.
  revert b. induction a as [|c a IH]; intros b Ha Hb E.
  - destruct b as [|c' b]; simpl in *.
    + now injection E.
    + injection E as <- _. discriminate.
  - destruct b as [|c' b]; simpl in *.
    + injection E as -> _. discriminate.
    + injection E as <- E. apply andb_prop in Ha as [_ Ha], Hb as [_ Hb].
      destruct (IH b Ha Hb E) as [-> ->]. now split.
Qed.




Lemma output_topic_not_response (module_id output_name : string) :
  no_slash module_id = true -> no_slash output_name = true ->
  response_id (output_topic module_id output_name) = None.
Proof.
  intros Hm Hn. unfold response_id.
  destruct (after_last "/methods/response/" (output_topic module_id output_name))
    as [r|] eqn:Hr; [|reflexivity].
  exfalso. apply after_last_occurs in Hr as [a E].
  assert (Hs : slashes (output_topic module_id output_name) = 3%nat).
  { unfold output_topic. rewrite !slashes_app.
    apply no_slash_slashes in Hm, Hn. rewrite Hm, Hn. reflexivity. }
  rewrite E, !slashes_app in Hs. simpl in Hs.
  assert (Ha : no_slash a = true) by (apply no_slash_slashes; lia).
  unfold output_topic in E.
  change ("edge/" +:+ module_id +:+ "/outputs/" +:+ output_name)
    with ("edge" +:+ String "/" (module_id +:+ "/outputs/" +:+ output_name)) in E.
  change (a +:+ "/methods/response/" +:+ r)
    with (a +:+ String "/" ("methods" +:+ String "/" ("response/" +:+ r))) in E.
  apply split_at_slash in E as [_ E]; [|reflexivity|exact Ha].
  change (module_id +:+ "/outputs/" +:+ output_name)
    with (module_id +:+ String "/" ("outputs/" +:+ output_name)) in E.
  apply split_at_slash in E as [_ E]; [|exact Hm|reflexivity].
  discriminate.
Qed.

Lemma output_topic_not_method (own module_id output_name : string) :
  no_slash module_id = true -> no_slash output_name = true ->
  contains ("edge/" +:+ own +:+ "/methods/") (output_topic module_id output_name) = false.
Proof.
  intros Hm Hn. unfold contains.
  destruct (after_last ("edge/" +:+ own +:+ "/methods/") (output_topic module_id output_name))
    as [r|] eqn:Hr; [|reflexivity].
  exfalso. apply after_last_occurs in Hr as [a E].
  assert (Hs : slashes (output_topic module_id output_name) = 3%nat).
  { unfold output_topic. rewrite !slashes_app.
    apply no_slash_slashes in Hm, Hn. rewrite Hm, Hn. reflexivity. }
  rewrite E, !slashes_app in Hs. simpl in Hs.
  assert (Ha : no_slash a = true) by (apply no_slash_slashes; lia).
  assert (Ho : no_slash own = true) by (apply no_slash_slashes; lia).
  unfold output_topic in E.
  change ("edge/" +:+ module_id +:+ "/outputs/" +:+ output_name)
    with ("edge" +:+ String "/" (module_id +:+ "/outputs/" +:+ output_name)) in E.
  assert (E2 : a +:+ ("edge/" +:+ own +:+ "/methods/") +:+ r
               = (a +:+ "edge") +:+ String "/" (own +:+ String "/" ("methods/" +:+ r)))
    by (rewrite !append_assoc; reflexivity).
  rewrite E2 in E. clear E2.
  apply split_at_slash in E as [_ E];
    [|reflexivity | apply no_slash_app; split; [exact Ha | reflexivity]].
  change (module_id +:+ "/outputs/" +:+ output_name)
    with (module_id +:+ String "/" ("outputs/" +:+ output_name)) in E.
  apply split_at_slash in E as [_ E]; [|exact Hm|exact Ho].
  discriminate.
Qed.

Lemma output_topic_name (module_id output_name : string) :
  no_slash output_name = true ->
  after_last "/outputs/" (output_topic module_id output_name) = Some output_name.
Proof.
  intros Hn.
  assert (E : output_topic module_id output_name
              = ("edge/" +:+ module_id) +:+ String "/" "outputs/" +:+ output_name)
    by (unfold output_topic; now rewrite !append_assoc).
  rewrite E. exact (after_last_appended "outputs/" _ _ Hn).
Qed.

End TopicProps.

(** * More on the local transport *)

Section ClientMore.
Import Client Local.
Context {H : Type} `{Formatter}.




End ClientMore.

Section RelayProps.
Import Client Local.
Context {R : Type} `{Formatter}.


End RelayProps.

Section RoundTrip.
Import Client Local.
Context {H R : Type} `{Formatter}.


End RoundTrip.

Section ClientInvariants.
Import Client Local.
Context {H : Type} `{Formatter}.




(** Delivering messages never raises. *)
Lemma deliver_returns m (w : world H) : fst (deliver m w) = Ok tt.
Proof.
  unfold deliver, bind, self; simpl.
  destruct (_listening (fst w)); [|reflexivity].
  destruct (body m) as [payload|]; [|reflexivity].
  destruct (_dispatch (topic m) payload (addr m) w) as [[[]|e] w']; reflexivity.
Qed.



(** Nothing is delivered to a client whose listener has stopped. *)
Lemma arriving_ignored (l : list message) (w : world H) :
  _listening (fst w) = false ->
  deliver_all l w = (Ok tt, w).
Proof.
  intros Hl. induction l as [|m l IH]; [reflexivity|].
  simpl. unfold bind at 1. unfold deliver at 1, bind, self; simpl. rewrite Hl. exact IH.
Qed.

(** X3.  An exception out of [_dispatch] ends the listener for good.
    When the dispatch of a delivered message raises (a handler that
    raises, a response whose payload is not an object), the delivery
    itself returns normally, the listener is no longer running, and from
    then on every [invoke_method] ends in the time-out error, whatever
    arrives. *)
Theorem raising_dispatch_stops_listener
  (m : message) (body_ : value) (e : exn) (w : world H) :
  bounded (fst w) ->
  _listening (fst w) = true ->
  body m = Some body_ ->
  fst (_dispatch (topic m) body_ (addr m) w) = Raise e ->
  let w' := snd (deliver m w) in
  fst (deliver m w) = Ok tt /\
  _listening (fst w') = false /\
  (forall stamp arriving target method payload timeout_s,
      fst (invoke_method stamp arriving target method payload timeout_s w')
      = Raise (timed_out target method timeout_s)).
Proof.
  intros Hb Hl Hbody He w'. split; [apply deliver_returns|].
  assert (Hw' : _listening (fst w') = false).
  { unfold w', deliver, bind, self; simpl. rewrite Hl, Hbody.
    destruct (_dispatch (topic m) body_ (addr m) w) as [[[]|e'] w1]; [discriminate|].
    reflexivity. }
  split; [exact Hw'|].
  intros stamp arriving target method payload timeout_s.
  assert (Hb' : bounded (fst w')) by (apply deliver_bounded, Hb).
  unfold invoke_method. unfold bind at 1.
  destruct (begin_outstanding stamp target method payload w' Hb') as (_ & _ & Hp).
  pose proof (begin_issues stamp target method payload w') as Hk.
  pose proof (begin_keeps_listening stamp target method payload w') as Hl1.
  destruct (invoke_method_begin stamp target method payload w') as [r w1].
  simpl in Hk, Hp, Hl1. subst r. rewrite Hw' in Hl1.
  change (fold_right _ _ arriving) with (deliver_all (H := H) arriving).
  unfold bind. rewrite (arriving_ignored arriving w1 Hl1).
  rewrite (end_times_out (issued stamp method (fst w')) target method timeout_s w1 Hp).
  reflexivity.
Qed.

(** X4.  Two calls with one request id.  A second call of the same
    method at the same clock reading takes over the entry in [_pending]:
    a response with that id resolves the second call, which returns the
    response's payload, and the first call can only time out. *)
Theorem colliding_calls
  (stamp target method : string) (payload payload' : pydict) (timeout_s : Z)
  (matching : string) (d : pydict) (addr_ : Z) (w0 : world H) :
  bounded (fst w0) ->
  response_id matching = Some (method +:+ "-" +:+ stamp) ->
  let first := issued stamp method (fst w0) in
  let w1 := snd (invoke_method_begin stamp target method payload w0) in
  let second := issued stamp method (fst w1) in
  let w2 := snd (invoke_method_begin stamp target method payload' w1) in
  let w3 := snd (_dispatch matching (VDict d) addr_ w2) in
  call_request_id second = call_request_id first /\
  call_future second <> call_future first /\
  invoke_method_end second target method timeout_s w3
    = (Ok (dict_get "payload" (VDict []) d), w3) /\
  fst (invoke_method_end first target method timeout_s w3)
    = Raise (timed_out target method timeout_s).
Proof.
  intros Hb Hid first w1 second w2 w3.
  assert (Hb1 : bounded (fst w1)) by (apply begin_bounded, Hb).
  pose proof (begin_outstanding stamp target method payload w0 Hb) as (_ & _ & Hp1).
  pose proof (begin_outstanding stamp target method payload' w1 Hb1) as Hout2.
  fold w1 in Hp1. fold first in Hp1. fold w2 in Hout2. fold second in Hout2.
  assert (Hne : call_future second <> call_future first).
  { apply lookup_lt_Some in Hp1. unfold second, issued; simpl. simpl in Hp1. lia. }
  split; [reflexivity|]. split; [exact Hne|].
  assert (Hw2 : waiting first (fst w2)).
  { apply begin_waiting. split; [|exact Hp1].
    intros r Hr. unfold w1, invoke_method_begin, bind, self, update_self, publish in Hr.
    simpl in Hr. apply lookup_insert_Some in Hr as [[<- _] | [_ Hr]]; [reflexivity|].
    apply Hb in Hr. unfold first, issued in Hr; simpl in Hr. lia. }
  destruct (dispatch_resolves second matching d addr_ w2 Hid Hout2) as (_ & Hf & _).
  fold w3 in Hf. split; [apply end_returns, Hf|].
  assert (Hw3 : futures (fst w3) !! call_future first = Some Pending).
  { unfold w3.
    rewrite (dispatch_response matching (call_request_id second) (VDict d) addr_ w2 Hid).
    destruct Hout2 as (Hk2 & _ & Hp2). cbv zeta. rewrite Hk2, Hp2.
    cbn [fst snd futures with_futures with_pending].
    rewrite list_lookup_insert_ne; [apply Hw2 | exact Hne]. }
  rewrite (end_times_out first target method timeout_s w3 Hw3). reflexivity.
Qed.

End ClientInvariants.

(** * More on the dispatcher *)

Section DispatcherMore.
Import Dispatcher.
Context {T : Type} `{BaseEdgeClient T}.
Variables (module_id method_name : string) (payload : pydict) (timeout_s : Z).

Local Abbreviation the_call := (Invoke module_id method_name payload timeout_s).

Lemma invocations_invoke (l : list awaited) : invocations (the_call :: l) = S (invocations l).
Proof. reflexivity. Qed.

Lemma invocations_sleep (q : Q) (l : list awaited) : invocations (Sleep q :: l) = invocations l.
Proof. reflexivity. Qed.

Lemma send_loop_bounded (n : nat) :
  forall (a : Z) (last : option exn) (d : CommandDispatcher T),
    n = O \/ (a + Z.of_nat n = _max_retries d + 2)%Z ->
    let run := send_loop (seqZ a (Z.of_nat n)) last module_id method_name payload timeout_s d in
    exists extra,
      awaits (snd run) = awaits d ++ extra /\
      Forall (fun x => x = the_call \/ x = Sleep RETRY_DELAY_S) extra /\
      (invocations extra <= n)%nat /\
      (extra = [] /\ n = O \/ exists before, extra = before ++ [the_call]).
Proof.
  induction n as [|n IH]; intros a last d Hn run.
  - unfold run; simpl. exists []. rewrite app_nil_r.
    repeat split; [constructor | apply Nat.le_0_l | now left].
  - destruct Hn as [Hn|Hn]; [discriminate|].
    unfold run. rewrite seqZ_cons by lia. rewrite send_loop_cons.
    destruct (invoke_method module_id method_name payload timeout_s (_client d)) as [[r|e] c].
    + simpl. exists [the_call]. repeat split.
      * repeat constructor.
      * rewrite invocations_invoke. unfold invocations; simpl. lia.
      * right. now exists [].
    + destruct (is_Exception e).
      * replace (Z.pred (Z.of_nat (S n))) with (Z.of_nat n) by lia.
        set (d1 := mkDispatcher c (_max_retries d) _).
        destruct (IH (Z.succ a) (Some e) d1) as (extra & Ha & Hall & Hinv & Hend).
        { destruct n; [now left | right; simpl; lia]. }
        destruct (Z.leb_spec a (_max_retries d)) as [Hle|Hgt].
        -- exists (the_call :: Sleep RETRY_DELAY_S :: extra).
           subst d1; simpl in Ha. rewrite Ha, <- !app_assoc. repeat split.
           ++ constructor; [now left|]. constructor; [now right | exact Hall].
           ++ rewrite invocations_invoke, invocations_sleep. lia.
           ++ right. destruct Hend as [[-> ->]|[before ->]].
              ** exfalso. simpl in Hn. lia.
              ** exists (the_call :: Sleep RETRY_DELAY_S :: before). reflexivity.
        -- exists (the_call :: extra).
           subst d1; simpl in Ha. rewrite Ha, <- !app_assoc. repeat split.
           ++ constructor; [now left | exact Hall].
           ++ rewrite invocations_invoke. lia.
           ++ right. destruct Hend as [[-> ->]|[before ->]].
              ** now exists [].
              ** exists (the_call :: before). reflexivity.
      * simpl. exists [the_call]. repeat split.
        -- repeat constructor.
        -- rewrite invocations_invoke. unfold invocations; simpl. lia.
        -- right. now exists [].
Qed.

Lemma send_awaits (d : CommandDispatcher T) :
  let run := send module_id method_name payload timeout_s d in
  exists extra,
    awaits (snd run) = awaits d ++ extra /\
    Forall (fun x => x = Invoke module_id method_name payload timeout_s
                     \/ x = Sleep RETRY_DELAY_S) extra /\
    (invocations extra <= Z.to_nat (_max_retries d + 1))%nat /\
    (extra = [] \/ exists before, extra = before ++ [Invoke module_id method_name payload timeout_s]).
Proof.
  intros run. unfold run, send, bind, Py.get; simpl.
  assert (E : seqZ 1 (_max_retries d + 1)
              = seqZ 1 (Z.of_nat (Z.to_nat (_max_retries d + 1)))).
  { destruct (Z.le_gt_cases 0 (_max_retries d + 1)) as [Hpos|Hneg].
    - now rewrite Z2Nat.id.
    - rewrite !seqZ_nil; [reflexivity | lia | lia]. }
  rewrite E.
  destruct (send_loop_bounded (Z.to_nat (_max_retries d + 1)) 1 None d)
    as (extra & Ha & Hall & Hinv & Hend).
  - destruct (Z.le_gt_cases (_max_retries d + 1) 0) as [Hneg|Hpos].
    + left. lia.
    + right. lia.
  - exists extra. repeat split; [exact Ha | exact Hall | exact Hinv |].
    destruct Hend as [[-> _]|Hend]; [now left | now right].
Qed.

(** What [send] raises: the [RuntimeError] of the exhausted retries, or
    what the client raised when that is no [Exception]. *)
Lemma send_loop_raises (attempts : list Z) :
  forall (last : option exn) (d : CommandDispatcher T) (e : exn),
    fst (send_loop attempts last module_id method_name payload timeout_s d) = Raise e ->
    exn_cls e = RuntimeError \/ is_Exception e = false.
Proof.
  induction attempts as [|a attempts IH]; intros last d e.
  - simpl. unfold bind, Py.get, raise; simpl. intros [= <-]. now left.
  - rewrite send_loop_cons.
    destruct (invoke_method module_id method_name payload timeout_s (_client d)) as [[r|e0] c].
    + discriminate.
    + destruct (is_Exception e0) eqn:He0.
      * apply IH.
      * simpl. intros [= <-]. now right.
Qed.

Lemma send_raises (d : CommandDispatcher T) (e : exn) :
  fst (send module_id method_name payload timeout_s d) = Raise e ->
  exn_cls e = RuntimeError \/ is_Exception e = false.
Proof. unfold send, bind, Py.get; simpl. apply send_loop_raises. Qed.

(** X5.  [send] is bounded, for every client and every retry count.  What
    it awaits is a run of invocations with exactly the arguments it was
    given and of retry delays; the invocations number at most
    [max_retries + 1] (none when that is not positive); and the run never
    ends with a delay: [send] does not sleep before giving up. *)
Theorem send_is_bounded (d : CommandDispatcher T) :
  let run := send module_id method_name payload timeout_s d in
  exists extra,
    awaits (snd run) = awaits d ++ extra /\
    Forall (fun x => x = Invoke module_id method_name payload timeout_s
                     \/ x = Sleep RETRY_DELAY_S) extra /\
    (invocations extra <= Z.to_nat (_max_retries d + 1))%nat /\
    (extra = [] \/ exists before, extra = before ++ [Invoke module_id method_name payload timeout_s]).
Proof. exact (send_awaits d). Qed.

Lemma send_loop_propagates (j : nat) :
  forall (a len : Z) (last : option exn) (d : CommandDispatcher T) (e : exn),
    (Z.of_nat j < len)%Z ->
    (a + len = _max_retries d + 2)%Z ->
    (forall k, (k < j)%nat -> fails module_id method_name payload timeout_s k (_client d)) ->
    outcome module_id method_name payload timeout_s j (_client d) = Raise e ->
    is_Exception e = false ->
    send_loop (seqZ a len) last module_id method_name payload timeout_s d
    = (Raise e,
       mkDispatcher (client_after module_id method_name payload timeout_s (S j) (_client d))
                    (_max_retries d)
                    (awaits d ++ retried the_call j ++ [the_call])).
Proof.
  induction j as [|j IH]; intros a len last d e Hlen Hend Hfail Hout Hexc.
  - rewrite seqZ_cons by lia. rewrite send_loop_cons.
    unfold outcome in Hout; simpl in Hout |- *.
    destruct (invoke_method module_id method_name payload timeout_s (_client d)) as [r c].
    simpl in Hout; subst r. rewrite Hexc. reflexivity.
  - rewrite seqZ_cons by lia. rewrite send_loop_cons.
    destruct (Hfail O) as (e0 & He0 & Hexc0); [lia|].
    unfold outcome in He0; simpl in He0.
    destruct (invoke_method module_id method_name payload timeout_s (_client d))
      as [r c] eqn:Hinv.
    simpl in He0; subst r. rewrite Hexc0.
    replace (a <=? _max_retries d)%Z with true by (symmetry; apply Z.leb_le; lia).
    rewrite (IH (Z.succ a) (Z.pred len) (Some e0) _ e); simpl.
    + rewrite Hinv; simpl. rewrite <- !app_assoc. reflexivity.
    + lia.
    + lia.
    + intros k Hk. specialize (Hfail (S k) ltac:(lia)).
      unfold fails, outcome in *; simpl in Hfail. rewrite Hinv in Hfail. exact Hfail.
    + unfold outcome in *; simpl in Hout. rewrite Hinv in Hout. exact Hout.
    + exact Hexc.
Qed.

(** X6.  Only an [Exception] is retried.  When, after [j] failed
    attempts with [j <= max_retries], an invocation raises something that
    is no [Exception] (a [CancelledError]), [send] lets it through as it
    is, at once: no further invocation, no delay, no [RuntimeError]. *)
Theorem send_lets_cancellation_through (d : CommandDispatcher T) (j : nat) (e : exn) :
  (Z.of_nat j <= _max_retries d)%Z ->
  (forall k, (k < j)%nat -> fails module_id method_name payload timeout_s k (_client d)) ->
  outcome module_id method_name payload timeout_s j (_client d) = Raise e ->
  is_Exception e = false ->
  let run := send module_id method_name payload timeout_s d in
  fst run = Raise e /\
  awaits (snd run)
  = awaits d ++ retried (Invoke module_id method_name payload timeout_s) j
             ++ [Invoke module_id method_name payload timeout_s].
Proof.
  intros Hj Hfail Hout Hexc run. unfold run, send, bind, Py.get; simpl.
  rewrite (send_loop_propagates j 1 (_max_retries d + 1) None d e);
    [split; reflexivity | lia | lia | exact Hfail | exact Hout | exact Hexc].
Qed.

End DispatcherMore.

(** * More on the registry *)

Section RegistryMore.
Import Registry.
Context `{Builtins}.

Lemma Qeq_bool_comm (x y : Q) : Qeq_bool x y = Qeq_bool y x.
Proof.
  destruct (Qeq_bool x y) eqn:E1, (Qeq_bool y x) eqn:E2; try reflexivity.
  - apply Qeq_bool_sym in E1. congruence.
  - apply Qeq_bool_sym in E2. congruence.
Qed.

Lemma key_eqb_sym (a b : value) : key_eqb a b = key_eqb b a.
Proof.
  destruct a as [|x|x|x|x|x|x], b as [|y|y|y|y|y|y]; simpl; try reflexivity;
    try apply Qeq_bool_comm.
  apply String.eqb_sym.
Qed.

Lemma key_eqb_trans (a b c : value) :
  key_eqb a b = true -> key_eqb b c = true -> key_eqb a c = true.
Proof.
  destruct a as [|x|x|x|x|x|x], b as [|y|y|y|y|y|y]; simpl; try discriminate;
    destruct c as [|z|z|z|z|z|z]; simpl; try discriminate; try reflexivity;
    try (apply Qeq_bool_trans).
  intros E1 E2. apply String.eqb_eq in E1, E2. subst. apply String.eqb_refl.
Qed.

(** Storing under one key leaves what is stored under the others. *)
Lemma getitem_setitem_other (k k' : value) (v : AssetSnapshot) (d : assets) :
  key_eqb k k' = false -> getitem k' (setitem k v d) = getitem k' d.
Proof.
  intros Hne. induction d as [|[k0 v0] d IH]; simpl.
  - now rewrite Hne.
  - destruct (key_eqb k0 k) eqn:E0; simpl; [|now rewrite IH].
    destruct (key_eqb k0 k') eqn:E1; [|reflexivity].
    rewrite key_eqb_sym in E0. rewrite (key_eqb_trans _ _ _ E0 E1) in Hne. discriminate.
Qed.

Lemma keys_setitem (k : value) (v : AssetSnapshot) (d : assets) :
  map fst (setitem k v d)
  = map fst d ++ match getitem k d with Some _ => [] | None => [k] end.
Proof.
  induction d as [|[k0 v0] d IH]; simpl; [reflexivity|].
  destruct (key_eqb k0 k); simpl; [now rewrite app_nil_r | now rewrite IH].
Qed.

(** X7.  What [update] does to the rest of the registry.  A call that
    returns normally for a dict with a truthy asset id keeps the keys in
    their order, adding the id at the end when it was not there; whatever
    the call does, the snapshots stored under other ids stay as they are;
    and a call that raises, or finds no asset id, leaves the registry as
    it is. *)
Theorem update_touches_one_asset (now : string) (data : pydict) (d : assets) :
  let id := dict_get "asset_id" VNone data in
  let d' := snd (update now data d) in
  (forall k, key_eqb id k = false -> getitem k d' = getitem k d) /\
  (truthy id = true -> fst (update now data d) = Ok tt ->
   map fst d' = map fst d ++ match getitem id d with Some _ => [] | None => [id] end) /\
  (truthy id = false \/ fst (update now data d) <> Ok tt -> d' = d).
Proof.
  intros id d'. unfold d', update. fold id.
  destruct (truthy id) eqn:Hid; simpl.
  - destruct (_extract_power_kw data) as [power|e]; simpl.
    + destruct (hashable id) eqn:Hh; simpl.
      * split; [|split].
        -- intros k Hk. now apply getitem_setitem_other.
        -- intros _ _. apply keys_setitem.
        -- intros [Hf|Hf]; [discriminate | now destruct Hf].
      * split; [|split]; [reflexivity | discriminate | reflexivity].
    + split; [|split]; [reflexivity | discriminate | reflexivity].
  - split; [|split]; [reflexivity | discriminate | reflexivity].
Qed.

Lemma getitem_found (k k' : value) (s : AssetSnapshot) (d : assets) :
  In (k', s) d -> key_eqb k' k = true -> getitem k d <> None.
Proof.
  induction d as [|[k0 v0] d IH]; intros Hin Hk; [destruct Hin|].
  simpl. destruct (key_eqb k0 k) eqn:E; [discriminate|].
  destruct Hin as [[= -> ->]|Hin]; [congruence | now apply IH].
Qed.

Lemma setitem_distinct (k : value) (v : AssetSnapshot) (d : assets) :
  distinct_keys d -> distinct_keys (setitem k v d).
Proof.
  induction d as [|[k0 v0] d IH]; intros Hd; simpl; [now split|].
  destruct Hd as [Hk0 Hd]. destruct (key_eqb k0 k) eqn:E; simpl; [now split|].
  split; [|now apply IH].
  rewrite getitem_setitem_other; [exact Hk0|]. now rewrite key_eqb_sym.
Qed.

Lemma setitem_keyed (k : value) (v : AssetSnapshot) (d : assets) :
  truthy k = true -> hashable k = true -> key_eqb k (asset_id v) = true ->
  keyed d -> keyed (setitem k v d).
Proof.
  intros Ht Hh Hv. unfold keyed.
  induction d as [|[k0 v0] d IH]; intros Hd; simpl.
  - constructor; [|constructor]. simpl. auto.
  - inversion Hd as [|e l He Hl]; subst e l. simpl in He.
    destruct (key_eqb k0 k) eqn:E; constructor; simpl; auto.
    destruct He as (Ht0 & Hh0 & _). eauto using key_eqb_trans.
Qed.

Lemma update_keeps_keys (now : string) (data : pydict) (d : assets) :
  distinct_keys d /\ keyed d ->
  distinct_keys (snd (update now data d)) /\ keyed (snd (update now data d)).
Proof.
  intros [Hd Hk]. unfold update.
  destruct (truthy (dict_get "asset_id" VNone data)) eqn:Hid; simpl; [|now split].
  destruct (_extract_power_kw data) as [power|e]; simpl; [|now split].
  destruct (hashable (dict_get "asset_id" VNone data)) eqn:Hh; simpl; [|now split].
  split; [now apply setitem_distinct | apply setitem_keyed; auto using key_eqb_refl].
Qed.

Lemma feed_keeps_keys (telemetry : list (string * pydict)) (d : assets) :
  distinct_keys d /\ keyed d ->
  distinct_keys (feed telemetry d) /\ keyed (feed telemetry d).
Proof.
  revert d. induction telemetry as [|m l IH]; intros d Hd; [exact Hd|].
  simpl. apply IH, update_keeps_keys, Hd.
Qed.

Lemma stored_under_own_id (d : assets) :
  distinct_keys d -> keyed d ->
  forall k s, In (k, s) d -> getitem (asset_id s) d = Some s.
Proof.
  induction d as [|[k0 v0] d IH]; intros Hd Hk k s Hin; [destruct Hin|].
  destruct Hd as [Hk0 Hd]. inversion Hk as [|e l He Hl]; subst. simpl in He.
  destruct He as (_ & _ & He). simpl.
  destruct Hin as [[= -> ->]|Hin]; [now rewrite He|].
  destruct (key_eqb k0 (asset_id s)) eqn:E; [|now apply (IH Hd Hl k)].
  exfalso. apply (getitem_found k0 k s d Hin); [|exact Hk0].
  unfold keyed in Hl. rewrite List.Forall_forall in Hl. destruct (Hl (k, s) Hin) as (_ & _ & Hks).
  simpl in Hks. rewrite key_eqb_sym in E. exact (key_eqb_trans _ _ _ Hks E).
Qed.

(** X8.  The registry holds one snapshot per asset.  Whatever telemetry
    it has been fed since it was created, no two of its keys are equal,
    every key is a truthy hashable value equal to the asset id of its
    snapshot, and every snapshot it holds is the one [get] finds under
    that snapshot's asset id. *)
Theorem registry_holds_one_snapshot_per_asset (telemetry : list (string * pydict)) :
  let d := feed telemetry [] in
  distinct_keys d /\ keyed d /\
  (forall k s, In (k, s) d -> fst (get (asset_id s) d) = Ok (Some s)).
Proof.
  intros d.
  assert (Hinv : distinct_keys d /\ keyed d).
  { unfold d. apply feed_keeps_keys. split; [exact I | constructor]. }
  destruct Hinv as [Hd Hk]. split; [exact Hd|]. split; [exact Hk|].
  intros k s Hin. unfold get, bind, Py.get, ret.
  assert (Hh : hashable (asset_id s) = true).
  { unfold keyed in Hk. rewrite List.Forall_forall in Hk. destruct (Hk (k, s) Hin) as (_ & Hh & Hks).
    simpl in Hh, Hks. destruct (asset_id s); try reflexivity;
      destruct k; simpl in Hks; discriminate. }
  rewrite Hh. simpl. f_equal. f_equal. exact (stored_under_own_id d Hd Hk k s Hin).
Qed.

End RegistryMore.

(** * More on the aggregator *)

Section AggregatorMore.
Import Registry Aggregator.
Open Scope Q_scope.
Context `{FloatArith}.
#[local] Arguments String.eqb : simpl never.

Lemma fault_alerts_faulted (snaps : list AssetSnapshot) :
  fault_alerts snaps = map fault_alert (faulted snaps).
Proof.
  unfold fault_alerts, faulted. induction snaps as [|s snaps IH]; simpl; [reflexivity|].
  rewrite IH. destruct (eq_str (state s) "FAULT"); reflexivity.
Qed.

(** X9.  The alerts of a computation, for a threshold that is not
    negative: one critical [ASSET_FAULT] alert for every snapshot whose
    state is ["FAULT"], in the order of the registry and naming the asset,
    followed by at most one balance warning, [GRID_SURPLUS] when the
    unrounded balance is above the threshold and [GRID_DEFICIT] when it
    is below minus the threshold; never both. *)
Theorem alerts_are_faults_then_one_balance_alert
  (self : Aggregator) (now : string) (registry : Registry.assets) :
  0 <= surplus_threshold_kw self ->
  let balance := unrounded_balance (powers registry) in
  alerts (compute self now registry)
  = map fault_alert (faulted (map snd registry))
    ++ (if Qlt_le_dec (surplus_threshold_kw self) (value_of balance)
        then [mkAlert "warning" "GRID_SURPLUS" (GridSurplusOf balance) VNone]
        else if Qlt_le_dec (value_of balance) (- surplus_threshold_kw self)
        then [mkAlert "warning" "GRID_DEFICIT" (GridDeficitOf (abs_ balance)) VNone]
        else []).
Proof.
  intros HT balance. rewrite compute_alerts. fold balance.
  unfold _check_alerts. rewrite fault_alerts_faulted.
  destruct (Qlt_le_dec (surplus_threshold_kw self) (value_of balance)) as [Hs|Hs].
  - rewrite (proj2 (gt_spec _ _) Hs).
    assert (Hd : lt (value_of balance) (- surplus_threshold_kw self) = false)
      by (apply lt_false; lra).
    now rewrite Hd.
  - rewrite (proj2 (gt_false _ _) Hs).
    destruct (Qlt_le_dec (value_of balance) (- surplus_threshold_kw self)) as [Hd|Hd].
    + now rewrite (proj2 (lt_spec _ _) Hd).
    + rewrite (proj2 (lt_false _ _) Hd). now rewrite app_nil_r.
Qed.

End AggregatorMore.

(** * More on the asset state machine *)

Section AssetMore.
Import Asset.
Context {D : Type} `{Hooks D}.

Lemma call_transition (o : op) (a : BaseAsset D) :
  hooks_return ->
  fst (call o a) = Ok tt /\ _state (snd (call o a)) = transition o (_state a).
Proof.
  intros (Hstart & Hstop & Hfault). destruct a as [i s c d], o as [| |code|]; simpl.
  - unfold start, start_enter, start_resume, set_state, modify, bind, get; simpl. destruct s; simpl; auto.
    unfold hook; simpl. specialize (Hstart d). destruct (_on_start d) as [[[]|e] d']; simpl in *;
      [auto | discriminate].
  - unfold stop, bind, get; simpl. destruct s; simpl; auto;
      unfold hook; simpl; specialize (Hstop d); destruct (_on_stop d) as [[[]|e] d']; simpl in *;
      auto; discriminate.
  - unfold fault, bind; simpl. unfold hook; simpl. specialize (Hfault code d).
    destruct (_on_fault code d) as [[[]|e] d']; simpl in *; [auto | discriminate].
  - unfold reset, bind, get; simpl. destruct s; simpl; auto.
Qed.

Lemma run_app (ops1 ops2 : list op) (a : BaseAsset D) :
  run (ops1 ++ ops2) a = run ops2 (run ops1 a).
Proof. unfold run. apply fold_left_app. Qed.

(** X10.  Calls of [BaseAsset] run one after the other, each to its
    end.  With hooks that return normally, every call returns normally
    and moves [_state] as the state machine of the docstring says; so
    between such calls an asset that started out fresh is in [IDLE],
    [RUNNING] or [FAULT], never in [STARTING] or [STOPPING]. *)
Theorem calls_follow_the_state_machine (id : string) (d : D) (ops : list op) :
  hooks_return ->
  let a := run ops (__init__ id d) in
  (_state a = IDLE \/ _state a = RUNNING \/ _state a = FAULT) /\
  (forall o, fst (call o a) = Ok tt /\ _state (snd (call o a)) = transition o (_state a)).
Proof.
  intros Hh a. split; [|intros o; now apply call_transition].
  unfold a. induction ops as [|o ops IH] using rev_ind; [simpl; auto|].
  rewrite run_app. simpl.
  destruct (call_transition o (run ops (__init__ id d)) Hh) as [_ ->].
  destruct IH as [-> | [-> | ->] ]; destruct o; simpl; auto.
Qed.

(** X11.  A stop hook that raises leaves the asset in [STOPPING], where
    of the methods of [BaseAsset] only [fault] gets it out: the exception reaches the caller of [stop],
    and from then on [start], [stop] and [reset] return normally and
    change nothing. *)
Theorem failed_stop_leaves_asset_stopping (a : BaseAsset D) (e : exn) (ops : list op) :
  _state a = RUNNING \/ _state a = STARTING ->
  fst (_on_stop (driver a)) = Raise e ->
  forallb (fun o => negb (is_fault o)) ops = true ->
  let a' := snd (stop a) in
  fst (stop a) = Raise e /\
  _state a' = STOPPING /\ _fault_code a' = _fault_code a /\
  Forall (fun o => call o a' = (Ok tt, a')) ops /\
  run ops a' = a'.
Proof.
  intros Hs He Hops a'.
  assert (Hstop : fst (stop a) = Raise e /\ _state a' = STOPPING /\ _fault_code a' = _fault_code a).
  { unfold a', stop, bind, get; simpl.
    destruct a as [i s c d]; simpl in *.
    assert (Hgo : negb (AssetState_eqb s RUNNING || AssetState_eqb s STARTING) = false)
      by (destruct Hs as [->| ->]; reflexivity).
    rewrite Hgo. simpl. unfold hook; simpl.
    destruct (_on_stop d) as [[[]|e'] d']; simpl in *; [discriminate|].
    injection He as He. subst e'. auto. }
  destruct Hstop as (Hr & Hst & Hc). split; [exact Hr|]. split; [exact Hst|]. split; [exact Hc|].
  assert (Hcall : forall o, is_fault o = false -> call o a' = (Ok tt, a')).
  { intros o Ho. destruct o as [| |code|]; simpl in *; try discriminate.
    - unfold start, start_enter, start_resume, set_state, modify, bind, get; simpl. rewrite Hst. reflexivity.
    - unfold stop, bind, get; simpl. rewrite Hst. reflexivity.
    - unfold reset, bind, get; simpl. rewrite Hst. reflexivity. }
  clearbody a'. clear Hr Hc. induction ops as [|o ops IH]; simpl in *.
  - split; [constructor | reflexivity].
  - apply andb_prop in Hops as [Ho Hops]. apply Bool.negb_true_iff in Ho.
    destruct (IH Hops) as [IH1 IH2]. split.
    + constructor; auto.
    + unfold run in *. simpl. rewrite (Hcall o Ho). simpl. exact IH2.
Qed.

End AssetMore.

(** * The controller's entry point *)

Section ControllerProps.
Import Registry Aggregator Dispatcher Interp Controller.
Context {T : Type} `{BaseEdgeClient T} `{FloatArith}.
Variable BATTERY_MODULE_ID : string.
Open Scope Q_scope.
#[local] Arguments String.eqb : simpl never.

Lemma abs_nonneg (n : number) : 0 <= value_of (abs_ n).
Proof.
  destruct n as [z|q]; simpl; [|apply Qabs_nonneg].
  change 0 with (inject_Z 0). rewrite <- Zle_Qle. apply Z.abs_nonneg.
Qed.

Lemma min_cap (x : number) (cap : Q) :
  0 <= value_of x -> 0 <= cap ->
  0 <= value_of (min_number x (Float cap)) <= cap.
Proof.
  intros Hx Hc. unfold min_number. simpl. destruct (lt cap (value_of x)) eqn:E.
  - split; [exact Hc | apply Qle_refl].
  - apply lt_false in E. split; assumption.
Qed.

Lemma balancing_await_cons p a l x :
  balancing_await BATTERY_MODULE_ID p l x -> balancing_await BATTERY_MODULE_ID p (a :: l) x.
Proof.
  unfold balancing_await, with_code. simpl.
  intros [Hx|[[Hx Hl]|[Hx Hl]]]; [now left | right; left | right; right];
    (split; [exact Hx|]); destruct (String.eqb (code a) _); [discriminate | exact Hl | discriminate | exact Hl].
Qed.

(** A command of the balancing, with its [except RuntimeError]. *)
Lemma guarded_send (method_name : string) (payload : pydict) (d : CommandDispatcher T) :
  let run :=
    try_except_RuntimeError
      (bind (send BATTERY_MODULE_ID method_name payload DEFAULT_TIMEOUT_S) (fun _ => ret tt))
      (ret tt) d in
  returned_or_cancelled (fst run) /\
  exists extra,
    awaits (snd run) = awaits d ++ extra /\
    Forall (fun x => x = Invoke BATTERY_MODULE_ID method_name payload DEFAULT_TIMEOUT_S
                     \/ x = Sleep RETRY_DELAY_S) extra.
Proof.
  intros run. unfold run, try_except_RuntimeError, bind.
  destruct (send_awaits BATTERY_MODULE_ID method_name payload DEFAULT_TIMEOUT_S d)
    as (extra & Ha & Hall & _).
  pose proof (send_raises BATTERY_MODULE_ID method_name payload DEFAULT_TIMEOUT_S d) as Hr.
  destruct (send BATTERY_MODULE_ID method_name payload DEFAULT_TIMEOUT_S d) as [[r|e] d'];
    simpl in *.
  - split; [exact I | eauto].
  - unfold is_RuntimeError. destruct (Hr e eq_refl) as [Hc|Hc].
    + rewrite Hc. simpl. split; [exact I | eauto].
    + destruct (exn_cls e) eqn:Hcls; simpl; try (split; [exact Hc | eauto]).
      unfold is_Exception in Hc. rewrite Hcls in Hc. discriminate.
Qed.

Lemma on_alert_awaits (balance : number) (alert : GridAlert) (d : CommandDispatcher T) :
  let p := min_number (abs_ balance) (Float 50) in
  let run := on_alert BATTERY_MODULE_ID balance alert d in
  returned_or_cancelled (fst run) /\
  exists extra,
    awaits (snd run) = awaits d ++ extra /\
    Forall (balancing_await BATTERY_MODULE_ID p [alert]) extra /\
    (balance_alerts [alert] = 0%nat -> extra = []).
Proof.
  intros p run. unfold run, on_alert, charge_battery, discharge_battery, balancing_await, with_code, balance_alerts. simpl.
  destruct (String.eqb (code alert) "GRID_SURPLUS") eqn:Es.
  - destruct (guarded_send "start_charging" [("power_kw", number_value p)] d) as (Hr & extra & Ha & Hall).
    split; [exact Hr|]. exists extra. split; [exact Ha|]. split; [|discriminate].
    eapply List.Forall_impl; [|exact Hall]. simpl.
    intros x [Hx|Hx]; [right; left; split; [exact Hx | discriminate] | now left].
  - destruct (String.eqb (code alert) "GRID_DEFICIT") eqn:Ed.
    + destruct (guarded_send "start_discharging" [("power_kw", number_value p)] d)
        as (Hr & extra & Ha & Hall).
      split; [exact Hr|]. exists extra. split; [exact Ha|]. split; [|discriminate].
      eapply List.Forall_impl; [|exact Hall]. simpl.
      intros x [Hx|Hx]; [right; right; split; [exact Hx | discriminate] | now left].
    + assert (E : (if String.eqb (code alert) "ASSET_FAULT" then ret tt else ret tt) d
                  = (Ok tt, d))
        by (destruct (String.eqb (code alert) "ASSET_FAULT"); reflexivity).
      rewrite E. simpl. split; [exact I|]. exists []. rewrite app_nil_r.
      repeat split. constructor.
Qed.

Lemma for_alerts_awaits (balance : number) (l : list GridAlert) :
  forall d : CommandDispatcher T,
    let p := min_number (abs_ balance) (Float 50) in
    let run := for_alerts BATTERY_MODULE_ID balance l d in
    returned_or_cancelled (fst run) /\
    exists extra,
      awaits (snd run) = awaits d ++ extra /\
      Forall (balancing_await BATTERY_MODULE_ID p l) extra /\
      (balance_alerts l = 0%nat -> extra = []).
Proof.
  induction l as [|alert l IH]; intros d p run.
  - unfold run; simpl. split; [exact I|]. exists []. rewrite app_nil_r.
    repeat split. constructor.
  - unfold run; simpl. unfold bind.
    destruct (on_alert_awaits balance alert d) as (Hr & extra & Ha & Hall & Hnone).
    fold p in Hall.
    assert (Hsplit : balance_alerts (alert :: l) = 0%nat ->
                     balance_alerts [alert] = 0%nat /\ balance_alerts l = 0%nat).
    { unfold balance_alerts. simpl.
      destruct (String.eqb (code alert) "GRID_SURPLUS" || String.eqb (code alert) "GRID_DEFICIT");
        simpl; [discriminate | auto]. }
    assert (Hmono : Forall (balancing_await BATTERY_MODULE_ID p (alert :: l)) extra).
    { eapply List.Forall_impl; [|exact Hall]. simpl. unfold balancing_await, with_code. simpl.
      intros x [Hx|[[Hx Hl]|[Hx Hl]]]; [now left | right; left | right; right];
        (split; [exact Hx|]);
        destruct (String.eqb (code alert) _); solve [discriminate | now destruct Hl]. }
    destruct (on_alert BATTERY_MODULE_ID balance alert d) as [[[]|e] d1]; simpl in *.
    + destruct (IH d1) as (Hr2 & extra2 & Ha2 & Hall2 & Hnone2).
      split; [exact Hr2|]. exists (extra ++ extra2).
      rewrite Ha2, Ha, <- app_assoc. split; [reflexivity|]. split.
      * apply List.Forall_app. split; [exact Hmono|].
        eapply List.Forall_impl; [|exact Hall2]. intros x. apply balancing_await_cons.
      * intros Hz. destruct (Hsplit Hz) as [Hz1 Hz2].
        rewrite (Hnone Hz1), (Hnone2 Hz2). reflexivity.
    + split; [exact Hr|]. exists extra. split; [exact Ha|]. split; [exact Hmono|].
      intros Hz. apply Hnone, Hsplit, Hz.
Qed.

(** X12.  What balancing commands.  Whatever the registry holds and
    whatever the client does, [_apply_balancing] on the figures of
    [compute] awaits nothing but commands to the battery module and retry
    delays: [start_charging] only when there is a surplus alert,
    [start_discharging] only when there is a deficit alert, both with the
    absolute value of the reported (rounded) balance capped at 50 kW as
    power; asset faults command nothing; and a command that fails with an
    [Exception] does not make balancing fail. *)
Theorem balancing_commands_are_capped
  (self : Aggregator) (now : string) (registry : Registry.assets) (d : CommandDispatcher T) :
  let t := compute self now registry in
  let p := min_number (abs_ (grid_balance_kw t)) (Float 50) in
  let run := _apply_balancing BATTERY_MODULE_ID t registry d in
  0 <= value_of p <= 50 /\
  returned_or_cancelled (fst run) /\
  exists extra,
    awaits (snd run) = awaits d ++ extra /\
    Forall (balancing_await BATTERY_MODULE_ID p (alerts t)) extra /\
    (balance_alerts (alerts t) = 0%nat -> extra = []).
Proof.
  intros t p run. split.
  - apply min_cap; [apply abs_nonneg | discriminate].
  - unfold run, _apply_balancing. simpl fst.
    apply for_alerts_awaits.
Qed.

End ControllerProps.

(** * Telemetry, from an asset module to the registry *)

Section TelemetryProps.
Import Client Controller.
Context {S : Type} `{Formatter} `{Registry.Builtins}.

(** A message on an output topic goes to the message handler, with the
    name of the output as input name. *)
Lemma dispatch_output {W : Type} (module_id output_name : string) (payload : value) (addr_ : Z)
  (h : value -> string -> M W unit) (w : world W) :
  no_slash module_id = true -> no_slash output_name = true ->
  _message_handler (fst w) = Some h ->
  _dispatch (output_topic module_id output_name) payload addr_ w
  = handler (h payload output_name) w.
Proof.
  intros Hm Hn Hh. destruct w as [c st]. simpl in Hh.
  pose proof (output_topic_not_response module_id output_name Hm Hn) as Hr.
  pose proof (output_topic_not_method (_module_id c) module_id output_name Hm Hn) as Hmeth.
  pose proof (output_topic_name module_id output_name Hn) as Hname.
  unfold response_id in Hr.
  unfold _dispatch, bind, self; simpl.
  unfold contains at 1. rewrite Hr. rewrite Hmeth, Hh.
  unfold contains, rsplit_last. rewrite Hname. reflexivity.
Qed.

(** X13.  Telemetry reaches the registry.  What an asset module sends
    with [send_message_to_output(data, "telemetry")] is published on its
    telemetry topic; delivered to a listening controller it is handed to
    [AssetRegistry.update].  When [update] returns, the registry is the
    updated one and the listener goes on; when [update] raises, the
    registry is as before and the listener task ends, so that the
    controller takes no further message. *)
Theorem telemetry_reaches_the_registry
  (sender : world S) (data : pydict) (addr_ : Z) (clock : nat -> string)
  (c : LocalMqttEdgeClient controller) (st : controller) :
  no_slash (_module_id (fst sender)) = true ->
  _listening c = true ->
  _message_handler c = Some (handle_asset_telemetry clock) ->
  let topic := output_topic (_module_id (fst sender)) "telemetry" in
  let outcome := Registry.update (clock (handled st)) data (registry st) in
  let run := deliver (mkMessage topic (Some (VDict data)) addr_) (c, st) in
  published (fst (snd (send_message_to_output data "telemetry" sender)))
    = published (fst sender) ++ [(topic, VDict data)] /\
  fst run = Ok tt /\
  registry (snd (snd run)) = snd outcome /\
  match fst outcome with
  | Ok _ => fst (snd run) = c
  | Raise _ =>
      snd outcome = registry st /\
      fst (snd run) = with_listening false c /\
      forall m, deliver m (snd run) = (Ok tt, snd run)
  end.
Proof.
  intros Hm Hl Hh topic outcome run. split; [reflexivity|].
  unfold run, deliver, bind, self; simpl. rewrite Hl. simpl.
  unfold topic. rewrite (dispatch_output _ _ _ _ (handle_asset_telemetry clock)) by auto.
  unfold handler, handle_asset_telemetry; simpl. fold outcome.
  assert (Hkeep : forall e, fst outcome = Raise e -> snd outcome = registry st).
  { unfold outcome, Registry.update. intros e.
    destruct (truthy _); simpl; [|discriminate].
    destruct (Registry._extract_power_kw data); simpl; [|reflexivity].
    destruct (hashable _); simpl; [discriminate | reflexivity]. }
  destruct outcome as [[[]|e] reg] eqn:Ho; simpl in *.
  - auto.
  - split; [reflexivity|]. split; [reflexivity|]. split; [now apply (Hkeep e)|].
    split; [reflexivity|]. intros m. reflexivity.
Qed.

End TelemetryProps.

(** * The battery module *)

Section BatteryProps.
Import Asset Client Interp Battery.
Context `{EnumFormat} `{Registry.Builtins}.
Open Scope Q_scope.
#[local] Arguments String.eqb : simpl never.

Lemma hook_start_charging_fails p (a : BaseAsset BatteryStorage) e a' :
  hook (start_charging p) a = (Raise e, a') -> a' = a /\ exn_cls e = RuntimeError.
Proof.
  destruct a as [i s c b]. unfold hook, start_charging, bind, Py.get; simpl.
  destruct b as [cap maxp delay soc pw temp st]; simpl.
  destruct st as [[]| |]; simpl; try (intros [= <- <-]; split; reflexivity);
    destruct (ge soc SOC_MAX); simpl; try discriminate; intros [= <- <-]; split; reflexivity.
Qed.

Lemma hook_start_discharging_fails p (a : BaseAsset BatteryStorage) e a' :
  hook (start_discharging p) a = (Raise e, a') -> a' = a /\ exn_cls e = RuntimeError.
Proof.
  destruct a as [i s c b]. unfold hook, start_discharging, bind, Py.get; simpl.
  destruct b as [cap maxp delay soc pw temp st]; simpl.
  destruct st as [[]| |]; simpl; try (intros [= <- <-]; split; reflexivity);
    destruct (le soc SOC_MIN); simpl; try discriminate; intros [= <- <-]; split; reflexivity.
Qed.

Lemma float_raises (v : value) (e : exn) :
  Registry.float_ v = Raise e -> is_Exception e = true /\ is_RuntimeError e = false.
Proof.
  unfold Registry.float_. destruct v; try discriminate; try (intros [= <-]; split; reflexivity).
  destruct (Registry.float_of_str s); [discriminate|]. intros [= <-]. split; reflexivity.
Qed.

(** X14.  The battery module answers every request.  [handle_method]
    returns a response that carries the request id of the request; the
    status is 200, 404, 409 or 500; it is 404 exactly for a method other
    than the four it knows, and 500 exactly when [float] of the power of
    a charge or discharge request raises; and whenever the status is not
    200 the battery is left as it was. *)
Theorem battery_handler_answers_every_request
  (MAX_POWER_KW : Q) (request : DirectMethodRequest) (a : BaseAsset BatteryStorage) :
  let known := name request = "start_charging" \/ name request = "start_discharging"
               \/ name request = "stop" \/ name request = "reset" in
  let power := Registry.float_ (dict_get "power_kw" (VFloat MAX_POWER_KW) (payload request)) in
  exists response a',
    handle_method MAX_POWER_KW request a = (Ok response, a') /\
    response_request_id response = request_id request /\
    (status response = 200 \/
     (status response = 404 \/ status response = 409 \/ status response = 500) /\ a' = a)%Z /\
    (status response = 404%Z <-> ~ known) /\
    (status response = 500%Z <->
     (name request = "start_charging" \/ name request = "start_discharging") /\
     exists e, power = Raise e).
Proof.
  intros known power. unfold known, power. clear known power.
  unfold handle_method, try_except, bind, lift, ret.
  destruct (String.eqb_spec (name request) "start_charging") as [E1|E1].
  { destruct (Registry.float_ _) as [p|e] eqn:Ef.
    - destruct (hook (start_charging p) a) as [[[]|e] a1] eqn:Hh; [answer|].
      destruct (hook_start_charging_fails _ _ _ _ Hh) as [-> Hc].
      assert (Hex : is_Exception e = true) by (unfold is_Exception; now rewrite Hc).
      assert (Hrt : is_RuntimeError e = true) by (unfold is_RuntimeError; now rewrite Hc).
      rewrite Hex, Hrt. answer.
    - destruct (float_raises _ _ Ef) as [Hex Hrt]. rewrite Hex, Hrt. answer. }
  destruct (String.eqb_spec (name request) "start_discharging") as [E2|E2].
  { destruct (Registry.float_ _) as [p|e] eqn:Ef.
    - destruct (hook (start_discharging p) a) as [[[]|e] a1] eqn:Hh; [answer|].
      destruct (hook_start_discharging_fails _ _ _ _ Hh) as [-> Hc].
      assert (Hex : is_Exception e = true) by (unfold is_Exception; now rewrite Hc).
      assert (Hrt : is_RuntimeError e = true) by (unfold is_RuntimeError; now rewrite Hc).
      rewrite Hex, Hrt. answer.
    - destruct (float_raises _ _ Ef) as [Hex Hrt]. rewrite Hex, Hrt. answer. }
  destruct (String.eqb_spec (name request) "stop") as [E3|E3]; [answer|].
  destruct (String.eqb_spec (name request) "reset") as [E4|E4].
  { assert (Hr : fst (reset a) = Ok tt) by apply reset_state.
    destruct (reset a) as [r a1]. simpl in Hr. subst r. answer. }
  answer.
Qed.

End BatteryProps.

(** * The boiler module *)

Section BoilerProps.
Import Asset Client Interp BoilerDriver.
Context `{EnumFormat} `{Formatter} `{Registry.Builtins}.
Open Scope Q_scope.
#[local] Arguments String.eqb : simpl never.

Lemma le_spec x y : le x y = true <-> x <= y.
Proof. unfold le. rewrite Bool.negb_true_iff. apply gt_false. Qed.

Lemma start_safe (a : BaseAsset Boiler) : safe a -> safe (snd (start a)).
Proof.
  intros (Ht & Hz). destruct a as [i s c b].
  unfold start, start_enter, start_resume, set_state, modify, bind, Py.get; simpl in *.
  destruct s; simpl; unfold safe; simpl; split; try exact Ht; try exact Hz.
  intros Hn; now destruct Hn.
Qed.

Lemma stop_safe (a : BaseAsset Boiler) : safe a -> safe (snd (Asset.stop a)).
Proof.
  intros (Ht & Hz). destruct a as [i s c b].
  unfold Asset.stop, bind, Py.get; simpl in *.
  destruct s; simpl; unfold safe; simpl; split; try exact Ht; try exact Hz.
  all: intros _; reflexivity.
Qed.

Lemma reset_safe (a : BaseAsset Boiler) : safe a -> safe (snd (reset a)).
Proof.
  intros (Ht & Hz). destruct a as [i s c b].
  unfold reset, bind, Py.get; simpl in *.
  destruct s; simpl; unfold safe; simpl; split; try exact Ht; try exact Hz.
  intros _; apply Hz; discriminate.
Qed.

(** [set_temperature] in full: it takes effect in [RUNNING] for a target
    from 40 to 120, and raises without any effect otherwise. *)
Lemma set_temperature_cases (target : Q) (a : BaseAsset Boiler) :
  (_state a = RUNNING /\ 40 <= target /\ target <= 120 /\
   set_temperature target a
   = (Ok tt, mkAsset (asset_id a) (_state a) (_fault_code a)
                     (mkBoiler (max_power_kw (driver a)) (_startup_delay_s (driver a)) target
                               (_current_temp_c (driver a)) (_power_kw (driver a))
                               (_pressure_bar (driver a)))))
  \/ (exists e, set_temperature target a = (Raise e, a) /\
                (exn_cls e = RuntimeError \/ exn_cls e = ValueError) /\
                (_state a <> RUNNING \/ ~ (40 <= target /\ target <= 120))).
Proof.
  destruct a as [i s c b]. unfold set_temperature, bind, Py.get; simpl.
  destruct (AssetState_eqb s RUNNING) eqn:Es; simpl.
  - apply AssetState_eqb_eq in Es. subst s.
    destruct (le 40 target) eqn:E1; simpl.
    + destruct (le target 120) eqn:E2; simpl.
      * left. apply le_spec in E1, E2. repeat split; auto.
      * right. eexists. split; [reflexivity|]. split; [now right|]. right.
        intros [_ Hle]. apply le_spec in Hle. congruence.
    + right. eexists. split; [reflexivity|]. split; [now right|]. right.
      intros [Hle _]. apply le_spec in Hle. congruence.
  - right. eexists. split; [reflexivity|]. split; [now left|]. left.
    intros ->. discriminate.
Qed.

Lemma set_temperature_safe target (a : BaseAsset Boiler) :
  safe a -> safe (snd (set_temperature target a)).
Proof.
  intros Ha. destruct (set_temperature_cases target a) as [(Hs & Hlo & Hhi & ->)|(e & -> & _)];
    [|exact Ha].
  destruct Ha as (Ht & Hz). unfold safe; simpl. split; [split; assumption|].
  intros Hn. now destruct Hn.
Qed.

Lemma handle_method_safe (request : DirectMethodRequest) (a : BaseAsset Boiler) :
  safe a -> safe (snd (handle_method request a)).
Proof.
  intros Ha. unfold handle_method, try_except, bind, lift, ret.
  destruct (String.eqb (name request) "start").
  { pose proof (start_safe a Ha) as Hs.
    destruct (start a) as [[[]|e] a1]; simpl in *; [exact Hs|].
    destruct (is_Exception e); exact Hs. }
  destruct (String.eqb (name request) "stop").
  { pose proof (stop_safe a Ha) as Hs.
    destruct (Asset.stop a) as [[[]|e] a1]; simpl in *; [exact Hs|].
    destruct (is_Exception e); exact Hs. }
  destruct (String.eqb (name request) "set_temperature").
  { destruct (getitem "target_celsius" (payload request)) as [v|e]; simpl.
    - destruct (Registry.float_ v) as [target|e]; simpl.
      + pose proof (set_temperature_safe target a Ha) as Hs.
        destruct (set_temperature target a) as [[[]|e] a1]; simpl in *; [exact Hs|].
        destruct (is_Exception e); exact Hs.
      + destruct (is_Exception e); exact Ha.
    - destruct (is_Exception e); exact Ha. }
  destruct (String.eqb (name request) "reset").
  { pose proof (reset_safe a Ha) as Hs.
    destruct (reset a) as [[[]|e] a1]; simpl in *; [exact Hs|].
    destruct (is_Exception e); exact Hs. }
  exact Ha.
Qed.

(** X15.  No request moves the setpoint of the boiler out of its safe
    range.  A boiler whose setpoint is between 40 and 120 and which
    draws no power unless it is running is still so after any sequence
    of direct method requests, with whatever names and payloads. *)
Theorem boiler_stays_in_safe_range (requests : list DirectMethodRequest) (a : BaseAsset Boiler) :
  safe a -> safe (fold_left (fun a request => snd (handle_method request a)) requests a).
Proof.
  revert a. induction requests as [|request requests IH]; intros a Ha; [exact Ha|].
  simpl. apply IH, handle_method_safe, Ha.
Qed.

Lemma lookup_raises (key : string) (d : pydict) (e : exn) :
  getitem key d = Raise e ->
  is_Exception e = true /\ is_RuntimeError e || is_ValueError e = false.
Proof.
  unfold getitem. destruct (dict_lookup key d); [discriminate|].
  intros [= <-]. split; reflexivity.
Qed.

(** X16.  What a [set_temperature] request does.  The answer carries the
    request id.  The status is 200 exactly when the payload has a
    numeric [target_celsius] from 40 to 120 and the boiler is running;
    the setpoint is then that target and nothing else changes.  In every
    other case the boiler is left as it was; the status is 500 when the
    key is absent or [float] of its value raises something other than
    [ValueError], and 409 otherwise, also for a string that is no
    number. *)
Theorem set_temperature_request_is_all_or_nothing
  (request : DirectMethodRequest) (a : BaseAsset Boiler) :
  name request = "set_temperature" ->
  exists response a',
    handle_method request a = (Ok response, a') /\
    response_request_id response = request_id request /\
    ((status response = 200%Z /\
      exists v target,
        getitem "target_celsius" (payload request) = Ok v /\
        Registry.float_ v = Ok target /\
        _state a = RUNNING /\ 40 <= target /\ target <= 120 /\
        response_payload response = [("status", VStr "ok"); ("target_celsius", VFloat target)] /\
        a' = mkAsset (asset_id a) (_state a) (_fault_code a)
                     (mkBoiler (max_power_kw (driver a)) (_startup_delay_s (driver a)) target
                               (_current_temp_c (driver a)) (_power_kw (driver a))
                               (_pressure_bar (driver a))))
     \/ (a' = a /\
         match getitem "target_celsius" (payload request) with
         | Raise _ => status response = 500%Z
         | Ok v =>
             match Registry.float_ v with
             | Raise e => status response = (if is_ValueError e then 409 else 500)%Z
             | Ok target =>
                 status response = 409%Z /\
                 (_state a <> RUNNING \/ ~ (40 <= target /\ target <= 120))
             end
         end)).
Proof.
  intros Hn. unfold handle_method, try_except, bind, lift, ret. rewrite Hn.
  change (String.eqb "set_temperature" "start") with false.
  change (String.eqb "set_temperature" "stop") with false.
  change (String.eqb "set_temperature" "set_temperature") with true.
  cbv iota.
  destruct (getitem "target_celsius" (payload request)) as [v|e] eqn:Eg.
  - destruct (Registry.float_ v) as [target|e] eqn:Ef.
    + destruct (set_temperature_cases target a)
        as [(Hs & Hlo & Hhi & ->)|(e & -> & Hcls & Hwhy)].
      * eexists _, _. split; [reflexivity|]. split; [reflexivity|]. left.
        split; [reflexivity|]. exists v, target. simpl. repeat split; auto.
      * assert (Hex : is_Exception e = true)
          by (unfold is_Exception; destruct Hcls as [-> | ->]; reflexivity).
        assert (Hk : is_RuntimeError e || is_ValueError e = true)
          by (unfold is_RuntimeError, is_ValueError; destruct Hcls as [-> | ->]; reflexivity).
        rewrite Hex, Hk. eexists _, _. split; [reflexivity|]. split; [reflexivity|]. right.
        split; [reflexivity|]. split; [reflexivity | exact Hwhy].
    + assert (Hex : is_Exception e = true) by (eapply float_raises; eauto).
      assert (Hrt : is_RuntimeError e = false) by (eapply float_raises; eauto).
      rewrite Hex, Hrt. eexists _, _. split; [reflexivity|]. split; [reflexivity|]. right.
      split; [reflexivity|]. simpl. unfold is_RuntimeError, is_ValueError in *. destruct (exn_cls e); try discriminate; reflexivity.
  - destruct (lookup_raises _ _ _ Eg) as [Hex Hk]. rewrite Hex, Hk.
    eexists _, _. split; [reflexivity|]. split; [reflexivity|]. right.
    split; reflexivity.
Qed.

End BoilerProps.

(** * The solar module *)

Section SolarProps.
Import Asset Client Interp Solar.
Context `{EnumFormat} `{Registry.Builtins}.
Open Scope Q_scope.
#[local] Arguments String.eqb : simpl never.

Lemma clamp_range (target max_power : Q) :
  0 <= max_power ->
  0 <= max_ 0 (min_ target max_power) /\ max_ 0 (min_ target max_power) <= max_power.
Proof.
  intros Hm. unfold max_, min_.
  destruct (Aggregator.lt max_power target) eqn:E1;
    [apply lt_spec in E1 | apply lt_false in E1];
    match goal with
    | |- context [Aggregator.gt ?x 0] =>
        destruct (Aggregator.gt x 0) eqn:E2; [apply gt_spec in E2 | apply gt_false in E2]
    end; split; lra.
Qed.

Lemma set_output_range target (a : BaseAsset SolarInverter) :
  in_range a -> in_range (snd (set_output target a)).
Proof.
  intros Ha. pose proof Ha as (Hm & Ht). destruct a as [i s c v].
  unfold set_output, bind, Py.get; simpl in *.
  destruct (AssetState_eqb s RUNNING); simpl; [|exact Ha].
  destruct (clamp_range target (max_power_kw v) Hm) as [Hlo Hhi].
  unfold in_range; simpl. tauto.
Qed.

Lemma solar_start_range (a : BaseAsset SolarInverter) : in_range a -> in_range (snd (start a)).
Proof.
  intros Ha. pose proof Ha as (Hm & Ht). destruct a as [i s c v].
  unfold start, start_enter, start_resume, set_state, modify, bind, Py.get; simpl in *.
  destruct s; simpl; try exact Ha. unfold in_range; simpl. repeat split; try tauto; lra.
Qed.

Lemma solar_stop_range (a : BaseAsset SolarInverter) :
  in_range a -> in_range (snd (Asset.stop a)).
Proof.
  intros Ha. pose proof Ha as (Hm & Ht). destruct a as [i s c v].
  unfold Asset.stop, bind, Py.get; simpl in *.
  destruct s; simpl; try exact Ha; unfold in_range; simpl; repeat split; try tauto; lra.
Qed.

Lemma solar_reset_range (a : BaseAsset SolarInverter) : in_range a -> in_range (snd (reset a)).
Proof.
  intros Ha. destruct a as [i s c v].
  unfold reset, bind, Py.get; simpl in *. destruct s; simpl; exact Ha.
Qed.

Lemma solar_handle_method_range (request : DirectMethodRequest) (a : BaseAsset SolarInverter) :
  in_range a -> in_range (snd (handle_method request a)).
Proof.
  intros Ha. unfold handle_method, try_except, bind, lift, ret.
  destruct (String.eqb (name request) "start").
  { pose proof (solar_start_range a Ha) as Hs.
    destruct (start a) as [[[]|e] a1]; simpl in *; [exact Hs|].
    destruct (is_Exception e); exact Hs. }
  destruct (String.eqb (name request) "stop").
  { pose proof (solar_stop_range a Ha) as Hs.
    destruct (Asset.stop a) as [[[]|e] a1]; simpl in *; [exact Hs|].
    destruct (is_Exception e); exact Hs. }
  destruct (String.eqb (name request) "set_output").
  { destruct (getitem "target_kw" (payload request)) as [v|e]; simpl.
    - destruct (Registry.float_ v) as [target|e]; simpl.
      + pose proof (set_output_range target a Ha) as Hs.
        destruct (set_output target a) as [[[]|e] a1]; simpl in *; [exact Hs|].
        destruct (is_Exception e); exact Hs.
      + destruct (is_Exception e); exact Ha.
    - destruct (is_Exception e); exact Ha. }
  destruct (String.eqb (name request) "reset").
  { pose proof (solar_reset_range a Ha) as Hs.
    destruct (reset a) as [[[]|e] a1]; simpl in *; [exact Hs|].
    destruct (is_Exception e); exact Hs. }
  exact Ha.
Qed.

(** X17.  The target of the solar inverter stays within the rating
    whatever the module is asked.  An inverter whose target is between
    zero and a rating that is not negative is still so after any sequence
    of direct method requests, with whatever names and payloads. *)
Theorem solar_output_stays_within_rating
  (requests : list DirectMethodRequest) (a : BaseAsset SolarInverter) :
  in_range a ->
  in_range (fold_left (fun a request => snd (handle_method request a)) requests a).
Proof.
  revert a. induction requests as [|request requests IH]; intros a Ha; [exact Ha|].
  simpl. apply IH, solar_handle_method_range, Ha.
Qed.

End SolarProps.

(** * Instances *)



(** A method request whose payload is a JSON array makes the battery
    module's dispatch raise [TypeError]; its listener ends, and a call the
    module makes afterwards times out. *)
Lemma raising_dispatch_stops_listener_witness :
  let m := Client.mkMessage "edge/battery-module/methods/start_charging" (Some (VList [])) 0 in
  let w' := snd (Client.deliver m Scenario.battery_module) in
  fst (Client.deliver m Scenario.battery_module) = Ok tt /\
  Client._listening (fst w') = false /\
  fst (Client.invoke_method "13.000000" [Scenario.response_to "stop-13.000000" 200 []]
         "solar-module" "stop" [] 10 w')
  = Raise (Client.timed_out "solar-module" "stop" 10).
Proof.
  intros m w'.
  destruct (raising_dispatch_stops_listener m (VList [])
              (mkExn TypeError "pop expected at most 1 argument, got 2")
              Scenario.battery_module) as (Hr & Hl & Hcalls).
  - apply bounded_no_pending. reflexivity.
  - reflexivity.
  - reflexivity.
  - reflexivity.
  - split; [exact Hr|]. split; [exact Hl|]. apply Hcalls.
Defined.

(** Two charge commands issued at the same clock reading: the answer
    goes to the second. *)
Lemma colliding_calls_witness :
  let w0 := Scenario.controller_module in
  let first := issued "12.000000" "start_charging" (fst w0) in
  let w1 := snd (Client.invoke_method_begin "12.000000" "battery-module" "start_charging"
                   [("power_kw", VFloat 25)] w0) in
  let second := issued "12.000000" "start_charging" (fst w1) in
  let w2 := snd (Client.invoke_method_begin "12.000000" "battery-module" "start_charging"
                   [("power_kw", VFloat 40)] w1) in
  let w3 := snd (Client._dispatch
                   "edge/battery-module/methods/response/start_charging-12.000000"
                   (VDict [("status", VInt 200); ("payload", VDict [("status", VStr "charging")])])
                   0 w2) in
  fst (Client.invoke_method_end second "battery-module" "start_charging" 10 w3)
    = Ok (VDict [("status", VStr "charging")]) /\
  fst (Client.invoke_method_end first "battery-module" "start_charging" 10 w3)
    = Raise (Client.timed_out "battery-module" "start_charging" 10).
Proof.
  intros w0 first w1 second w2 w3.
  destruct (colliding_calls "12.000000" "battery-module" "start_charging"
              [("power_kw", VFloat 25)] [("power_kw", VFloat 40)] 10
              "edge/battery-module/methods/response/start_charging-12.000000"
              [("status", VInt 200); ("payload", VDict [("status", VStr "charging")])]
              0 w0) as (_ & _ & Hsecond & Hfirst).
  - apply bounded_no_pending. reflexivity.
  - reflexivity.
  - split; [|exact Hfirst]. fold w1 w2 w3 second in Hsecond. now rewrite Hsecond.
Defined.

(** One transient failure, then a cancellation. *)
Lemma send_lets_cancellation_through_witness :
  let transient := mkExn OtherException "transient" in
  let cancelled := mkExn CancelledError "" in
  let d := Dispatcher.__init__ [Raise transient; Raise cancelled; Ok VNone] 2 in
  let run := Dispatcher.send "solar-module" "start" [] 10 d in
  fst run = Raise cancelled /\
  Dispatcher.awaits (snd run)
  = [Dispatcher.Invoke "solar-module" "start" [] 10; Dispatcher.Sleep Dispatcher.RETRY_DELAY_S;
     Dispatcher.Invoke "solar-module" "start" [] 10].
Proof.
  intros transient cancelled d run.
  apply (send_lets_cancellation_through "solar-module" "start" [] 10 d 1 cancelled).
  - vm_compute; discriminate.
  - intros k Hk. assert (k = O) as -> by lia. exists transient. split; reflexivity.
  - reflexivity.
  - reflexivity.
Defined.

(** Threshold 10 kW, a faulted boiler that last drew 5 kW and an
    inverter at 40.25 kW, under both summations. *)
Lemma alerts_are_faults_then_one_balance_alert_witness :
  let self := Aggregator.mkAggregator "edge-device-01" 10 in
  let boiler := Registry.mkSnapshot (VStr "boiler-01") (VStr "industrial_boiler") (VStr "FAULT")
                                    (-5) (VStr "t") [] in
  let solar := Registry.mkSnapshot (VStr "solar-01") (VStr "solar_inverter") (VStr "RUNNING")
                                   40.25 (VStr "t") [] in
  let registry := [(VStr "boiler-01", boiler); (VStr "solar-01", solar)] in
  let expected :=
    [fault_alert boiler;
     Aggregator.mkAlert "warning" "GRID_SURPLUS" (Aggregator.GridSurplusOf (Float (141 # 4))) VNone] in
  Aggregator.alerts
    (Aggregator.compute (H := Binary64.arith Binary64.Plain) self "t1" registry) = expected /\
  Aggregator.alerts
    (Aggregator.compute (H := Binary64.arith Binary64.Compensated) self "t1" registry) = expected.
Proof.
  intros self boiler solar registry expected. split.
  - rewrite (alerts_are_faults_then_one_balance_alert (H := Binary64.arith Binary64.Plain)
               self "t1" registry) by (vm_compute; discriminate).
    reflexivity.
  - rewrite (alerts_are_faults_then_one_balance_alert (H := Binary64.arith Binary64.Compensated)
               self "t1" registry) by (vm_compute; discriminate).
    reflexivity.
Defined.

(** A boiler is started, faulted and reset. *)
Lemma calls_follow_the_state_machine_witness :
  let a := Asset.run [Asset.Start; Asset.Fault "OVER_PRESSURE"; Asset.Reset]
                     (Asset.__init__ "boiler-01" (Asset.mkBoiler 200 3 80 20 0 1)) in
  (Asset._state a = Asset.IDLE \/ Asset._state a = Asset.RUNNING \/ Asset._state a = Asset.FAULT) /\
  (forall o, fst (Asset.call o a) = Ok tt /\
             Asset._state (snd (Asset.call o a)) = transition o (Asset._state a)).
Proof.
  apply (calls_follow_the_state_machine "boiler-01" (Asset.mkBoiler 200 3 80 20 0 1)
           [Asset.Start; Asset.Fault "OVER_PRESSURE"; Asset.Reset]).
  split; [|split]; intros; reflexivity.
Defined.

(** A running asset whose stop hook raises. *)
Lemma failed_stop_leaves_asset_stopping_witness :
  let a := Asset.mkAsset "valve-01" Asset.RUNNING None tt in
  let a' := snd (Asset.stop (H := stuck_valve) a) in
  fst (Asset.stop (H := stuck_valve) a) = Raise (mkExn OtherException "valve stuck") /\
  Asset._state a' = Asset.STOPPING /\
  Asset.run (H := stuck_valve) [Asset.Start; Asset.Stop; Asset.Reset] a' = a'.
Proof.
  intros a a'.
  destruct (failed_stop_leaves_asset_stopping (H := stuck_valve) a
              (mkExn OtherException "valve stuck") [Asset.Start; Asset.Stop; Asset.Reset])
    as (Hr & Hs & _ & _ & Hrun).
  - left. reflexivity.
  - reflexivity.
  - reflexivity.
  - split; [exact Hr|]. split; [exact Hs | exact Hrun].
Defined.

(** The battery module reports; the controller stores the snapshot. *)
Lemma telemetry_reaches_the_registry_witness :
  let data := [("asset_id", VStr "battery-01"); ("asset_type", VStr "battery_storage");
               ("state", VStr "CHARGING"); ("power_kw", VFloat 30)] in
  let c := Client.connect
             (Client.on_message (Controller.handle_asset_telemetry (fun _ => "t0"))
                (Client.__init__ "mosquitto" "controller-module" ["edge/+/outputs/telemetry"])) in
  let run := Client.deliver
               (Client.mkMessage "edge/battery-module/outputs/telemetry" (Some (VDict data)) 0)
               (c, Controller.mkController [] 0) in
  fst run = Ok tt /\
  Controller.registry (snd (snd run)) = snd (Registry.update "t0" data []).
Proof.
  intros data c run.
  destruct (telemetry_reaches_the_registry Scenario.battery_module data 0 (fun _ => "t0")
              c (Controller.mkController [] 0)) as (_ & Hr & Hreg & _).
  - reflexivity.
  - reflexivity.
  - reflexivity.
  - split; [exact Hr | exact Hreg].
Defined.

(** A fresh boiler is started and asked for 500 degrees. *)
Lemma boiler_stays_in_safe_range_witness :
  safe (fold_left (fun a request => snd (BoilerDriver.handle_method request a))
          [Client.mkRequest (VStr "r1") "start" [];
           Client.mkRequest (VStr "r2") "set_temperature" [("target_celsius", VFloat 500)]]
          (Asset.Boiler__init__ "boiler-01")).
Proof.
  apply (boiler_stays_in_safe_range
           [Client.mkRequest (VStr "r1") "start" [];
            Client.mkRequest (VStr "r2") "set_temperature" [("target_celsius", VFloat 500)]]
           (Asset.Boiler__init__ "boiler-01")).
  unfold safe; simpl. split; [split; vm_compute; discriminate | reflexivity].
Defined.

(** A running boiler is asked for 90 degrees. *)
Lemma set_temperature_request_is_all_or_nothing_witness :
  let a := Asset.run [Asset.Start] (Asset.Boiler__init__ "boiler-01") in
  let request := Client.mkRequest (VStr "r1") "set_temperature" [("target_celsius", VFloat 90)] in
  exists response a',
    BoilerDriver.handle_method request a = (Ok response, a') /\
    Client.status response = 200%Z /\
    Asset._target_temp_c (Asset.driver a') = 90%Q.
Proof.
  intros a request.
  destruct (set_temperature_request_is_all_or_nothing request a)
    as (response & a' & Hrun & _ & _); [reflexivity|].
  exists response, a'. split; [exact Hrun|].
  vm_compute in Hrun. injection Hrun as <- <-. split; reflexivity.
Defined.

(** A fresh inverter of 100 kW is started and asked for 250 kW. *)
Lemma solar_output_stays_within_rating_witness :
  in_range (fold_left (fun a request => snd (Solar.handle_method request a))
              [Client.mkRequest (VStr "r1") "start" [];
               Client.mkRequest (VStr "r2") "set_output" [("target_kw", VFloat 250)]]
              (Solar.__init__ "solar-01" 100 2)).
Proof.
  apply (solar_output_stays_within_rating
           [Client.mkRequest (VStr "r1") "start" [];
            Client.mkRequest (VStr "r2") "set_output" [("target_kw", VFloat 250)]]
           (Solar.__init__ "solar-01" 100 2)).
  unfold in_range; simpl. repeat split; vm_compute; discriminate.
Defined.
